(** * Adaptive route search of the travel route planner

    A shallow embedding of the server's route service
    ([generateWalkingRoute], [generateCyclingRoute], their retry loops and
    [callOpenRouteService]), and of [makeRateLimitedRequest] from the rate
    limiter, followed by the properties the specification states about them.

    Conventions of the embedding.
    - A JavaScript number is a rational ([Q]) and arithmetic is exact, where
      the source adds and multiplies doubles; two numbers are compared with
      [==] ([Qeq]), as [===] compares values.
    - The payload of the provider is typed as the code reads it, except that
      the [distance] or the [duration] of a segment may be missing.  The field
      then reads [undefined], every sum it enters is [NaN], and every
      comparison with [NaN] is false: such numbers are [JsNumber]s.
    - [Math.cos], [Math.sin], [Math.sqrt], [Math.PI] and the rendering of a
      number inside a template literal are implementation-approximated in
      ECMAScript; they are the fields of the class [JsRuntime] and every
      theorem holds for every instance.  [Math.random()] draws are inputs.
    - A coordinate in provider order is the pair [(lng, lat)], as the arrays
      [[lng, lat]] of the source.
    - [await] is sequential composition; the world (the log of HTTP requests
      sent so far) is passed explicitly.  Console output and sleeps are
      dropped. *)

From Stdlib Require Import QArith Qround Qminmax Qabs ZArith List String Ascii Bool Lia Lqa.
From Stdlib Require Import DecimalString.
Import ListNotations.

Local Open Scope Q_scope.

(** ** JavaScript values *)

Definition Qleb (x y : Q) : bool := Qle_bool x y.
Definition Qltb (x y : Q) : bool := negb (Qle_bool y x).
Definition Qgeb (x y : Q) : bool := Qleb y x.
Definition Qgtb (x y : Q) : bool := Qltb y x.

(** [${n}] for an integer. *)
Definition showZ (z : Z) : string := NilZero.string_of_int (Z.to_int z).
Definition showNat (n : nat) : string := showZ (Z.of_nat n).

(** [s.includes(sub)] *)
Definition includes (s sub : string) : bool :=
  match String.index 0 sub s with Some _ => true | None => false end.

Class JsRuntime : Type := {
  Math_PI : Q;
  Math_cos : Q -> Q;
  Math_sin : Q -> Q;
  Math_sqrt : Q -> Q;
  Number_toString : Q -> string
}.

(** [n] zeros. *)
Fixpoint zeros (n : nat) : string :=
  match n with
  | O => EmptyString
  | S n' => String "0" (zeros n')
  end.

(** The digits [s] filled with zeros on the left up to [width] digits. *)
Definition zeroPad (width : nat) (s : string) : string :=
  (zeros (width - String.length s) ++ s)%string.

(** [x.toFixed(digits)]: the integer [n] with [n / 10^digits] nearest to
    [x], the larger one on a tie, rendered with [digits] decimals. *)
Definition Number_toFixed (x : Q) (digits : nat) : string :=
  let scale := (10 ^ Z.of_nat digits)%Z in
  let n := Qfloor (Qabs x * inject_Z scale + (1 # 2)) in
  let sign := if Qltb x 0 then "-"%string else EmptyString in
  let whole := showZ (n / scale) in
  match digits with
  | O => (sign ++ whole)%string
  | _ => (sign ++ whole ++ "." ++ zeroPad digits (showZ (n mod scale)))%string
  end.

(** A number computed from the payload: a rational, or [NaN]. *)
Inductive JsNumber : Type :=
| Num (q : Q)
| NaN.

(** [x + y] *)
Definition numAdd (x y : JsNumber) : JsNumber :=
  match x, y with
  | Num a, Num b => Num (a + b)
  | _, _ => NaN
  end.

(** [x * c] and [x / c] for a literal [c]; the source divides by the
    literals 1000, 60 and 20 only. *)
Definition numMul (x : JsNumber) (c : Q) : JsNumber :=
  match x with
  | Num a => Num (a * c)
  | NaN => NaN
  end.

Definition numDiv (x : JsNumber) (c : Q) : JsNumber :=
  match x with
  | Num a => Num (a / c)
  | NaN => NaN
  end.

(** [x < c], [x <= c], [x >= c], [x > c] and [x === c] for a literal [c]:
    false when [x] is [NaN]. *)
Definition numLtb (x : JsNumber) (c : Q) : bool :=
  match x with Num a => Qltb a c | NaN => false end.
Definition numLeb (x : JsNumber) (c : Q) : bool :=
  match x with Num a => Qleb a c | NaN => false end.
Definition numGeb (x : JsNumber) (c : Q) : bool :=
  match x with Num a => Qgeb a c | NaN => false end.
Definition numGtb (x : JsNumber) (c : Q) : bool :=
  match x with Num a => Qgtb a c | NaN => false end.
Definition numEqb (x : JsNumber) (c : Q) : bool :=
  match x with Num a => Qeq_bool a c | NaN => false end.

(** [isNaN(x)] *)
Definition isNaN (x : JsNumber) : bool :=
  match x with Num _ => false | NaN => true end.

(** [x.toFixed(digits)] *)
Definition numToFixed (x : JsNumber) (digits : nat) : string :=
  match x with
  | Num a => Number_toFixed a digits
  | NaN => "NaN"
  end.

(** An [Error] object: its [message] and [error.response?.status]. *)
Record JsError : Type := mkError {
  message : string;
  response_status : option Z
}.

Definition newError (msg : string) : JsError := mkError msg None.

(** [status === code] for an optional status. *)
Definition statusIs (status : option Z) (code : Z) : bool :=
  match status with
  | Some s => (s =? code)%Z
  | None => false
  end.

(** Reading a property of [undefined]. *)
Definition typeError (prop : string) : JsError :=
  newError ("Cannot read properties of undefined (reading '" ++ prop ++ "')").

(** How the evaluation of a block ends. *)
Inductive Completion (A : Type) : Type :=
| Returned (a : A)
| Thrown (e : JsError).
Arguments Returned {A} a.
Arguments Thrown {A} e.

(** ** Provider payload *)

Definition Coord : Type := (Q * Q)%type.

Record LatLng : Type := mkLatLng { lat : Q; lng : Q }.

(** [{ lat: coord[1], lng: coord[0] }] *)
Definition toLatLng (coord : Coord) : LatLng := mkLatLng (snd coord) (fst coord).

(** A segment: [segment.distance] (metres) and [segment.duration]
    (seconds) as they enter a sum, [NaN] for a missing field, and
    [segment.elevation_gain]. *)
Record Segment : Type := mkSegment {
  distance : JsNumber;
  duration : JsNumber;
  elevation_gain : option Q
}.

(** [features[k]]: [properties.segments], [properties.summary.duration] and
    [geometry.coordinates]. *)
Record Feature : Type := mkFeature {
  segments : list Segment;
  summary_duration : option Q;
  coordinates : list Coord
}.

Record ResponseData : Type := mkData { features : list Feature }.

(** ** The network *)

Record Request : Type := mkRequest {
  req_profile : string;
  req_coordinates : list Coord
}.

(** An axios failure: [error.message], [error.response?.status] ([None] for a
    network error) and [error.response.data?.error?.message]. *)
Record AxiosError : Type := mkAxiosError {
  ax_message : string;
  ax_status : option Z;
  ax_data_message : option string
}.

Inductive HttpResult : Type :=
| HttpOk (data : ResponseData)
| HttpErr (e : AxiosError).

(** The provider: what the [k]-th request sent by this process is answered. *)
Definition Network : Type := nat -> Request -> HttpResult.

(** The world is the log of the requests sent, oldest first. *)
Definition NetLog : Type := list Request.

Definition axios_post (net : Network) (req : Request) (w : NetLog)
  : HttpResult * NetLog :=
  (net (List.length w) req, (w ++ [req])%list).

(** rateLimiter: [makeRateLimitedRequest]; a 429 is retried once. *)
Definition makeRateLimitedRequest (net : Network) (req : Request) (w : NetLog)
  : HttpResult * NetLog :=
  match axios_post net req w with
  | (HttpErr error, w1) =>
      if statusIs (ax_status error) 429 then axios_post net req w1
      else (HttpErr error, w1)
  | ok => ok
  end.

(** ** callOpenRouteService *)

Section OpenRouteService.
Context {rt : JsRuntime}.
Variable apiKey : option string.   (* process.env.OPENROUTESERVICE_API_KEY *)
Variable net : Network.

Definition orsUrl (profile : string) : string :=
  ("https://api.openrouteservice.org/v2/directions/" ++ profile ++ "/geojson")%string.

Definition showCoord (lng lat : Q) : string :=
  ("[" ++ Number_toString lng ++ ", " ++ Number_toString lat ++ "]")%string.

(** The straight-line test, on [coordinates[0]] and [coordinates[1]]. *)
Definition straightLineKm (c1 c2 : Coord) : Q :=
  let '(lng1, lat1) := c1 in
  let '(lng2, lat2) := c2 in
  Math_sqrt ((lat2 - lat1) ^ 2 + (lng2 - lng1) ^ 2) * 111.

Definition pointsTooFarApart (coordinates : list Coord) : bool :=
  match coordinates with
  | c1 :: c2 :: _ => Qgtb (straightLineKm c1 c2) 80
  | _ => false
  end.

(** The [for] loop over the coordinates, from index [i]. *)
Fixpoint validateCoordinates (i : nat) (coordinates : list Coord) : option JsError :=
  match coordinates with
  | [] => None
  | (lng, lat) :: rest =>
      if Qltb lat (-90) || Qgtb lat 90 || Qltb lng (-180) || Qgtb lng 180 then
        Some (newError ("Invalid coordinates at index " ++ showNat i ++ ": "
                        ++ showCoord lng lat))
      else if Qltb (Qabs lat) (1 # 10) && Qltb (Qabs lng) (1 # 10) then
        Some (newError ("Coordinates too close to 0,0 at index " ++ showNat i ++ ": "
                        ++ showCoord lng lat))
      else validateCoordinates (S i) rest
  end.

(** The [while (attempt <= maxRetries)] loop; [tries] is
    [maxRetries + 1 - attempt] and [lastError] is [lastError.message]. *)
Fixpoint requestLoop (maxRetries tries : nat) (lastError : string)
         (req : Request) (w : NetLog) : Completion ResponseData * NetLog :=
  match tries with
  | O =>
      (Thrown (newError ("Failed to call OpenRouteService after "
                         ++ showNat (maxRetries + 1) ++ " attempts: " ++ lastError)), w)
  | S tries' =>
      match makeRateLimitedRequest net req w with
      | (HttpOk data, w1) => (Returned data, w1)
      | (HttpErr error, w1) =>
          match ax_status error with
          | Some status =>
              if (status =? 400)%Z then
                let detail :=
                  match ax_data_message error with
                  | Some m => if String.eqb m EmptyString then ax_message error else m
                  | None => ax_message error
                  end in
                (Thrown (newError ("Invalid request parameters - Status 400: " ++ detail)), w1)
              else if (status =? 404)%Z then
                (Thrown (newError ("Invalid profile or endpoint - Status 404: "
                                   ++ req_profile req ++ " profile not found. URL: "
                                   ++ orsUrl (req_profile req))), w1)
              else if (status =? 401)%Z || (status =? 403)%Z then
                (Thrown (newError ("Authentication error - Status " ++ showZ status
                                   ++ ": Check API key validity")), w1)
              else requestLoop maxRetries tries' (ax_message error) req w1
          | None => requestLoop maxRetries tries' (ax_message error) req w1
          end
      end
  end.

Definition apiKeyMissing : bool :=
  match apiKey with
  | None => true
  | Some k => String.eqb k EmptyString
  end.

(** [callOpenRouteService(coordinates, profile, targetDistance, maxRetries)];
    [targetDistance] is not read by the source. *)
Definition callOpenRouteService (coordinates : list Coord) (profile : string)
           (maxRetries : nat) (w : NetLog) : Completion ResponseData * NetLog :=
  if apiKeyMissing then
    (Thrown (newError "OPENROUTESERVICE_API_KEY not configured in environment variables"), w)
  else if pointsTooFarApart coordinates then
    (Thrown (newError "Points too far apart for routing"), w)
  else
    match validateCoordinates 0 coordinates with
    | Some e => (Thrown e, w)
    | None => requestLoop maxRetries (S maxRetries) EmptyString (mkRequest profile coordinates) w
    end.

End OpenRouteService.

(** ** Loops

    A loop is its condition, its body (which ends in the next state, the
    update expression applied, or leaves the function) and the statements
    after it. *)

Section Loop.
Variables (St R : Type).
Variable test : St -> bool.
Variable body : St -> St + R.
Variable after : St -> R.

Definition loop_step (s : St) : St + R :=
  if test s then body s else inr (after s).

(** The loop as a machine: [fuel] bounds the evaluations of the condition. *)
Fixpoint run_loop (fuel : nat) (s : St) : option R :=
  match fuel with
  | O => None
  | S fuel' =>
      match loop_step s with
      | inl s' => run_loop fuel' s'
      | inr r => Some r
      end
  end.

(** [for (i = i0; i < n; i++)] whose body assigns neither [i] nor [n]:
    [k = n - i] iterations remain. *)
Fixpoint for_loop (k : nat) (s : St) : R :=
  match k with
  | O => after s
  | S k' =>
      match body s with
      | inl s' => for_loop k' s'
      | inr r => r
      end
  end.

End Loop.
Arguments loop_step {St R} test body after s.
Arguments run_loop {St R} test body after fuel s.
Arguments for_loop {St R} body after k s.

(** How a [try] block ends: a [return], its last statement, or a [throw];
    the last two with the variables as they are at that point. *)
Inductive TryResult (St R : Type) : Type :=
| TryReturn (r : R)
| TryDone (s : St)
| TryThrow (e : JsError) (s : St).
Arguments TryReturn {St R} r.
Arguments TryDone {St R} s.
Arguments TryThrow {St R} e s.

(** One invocation of the routing call by a retry loop. *)
Record Call : Type := mkCall {
  call_waypoints : list Coord;
  call_profile : string
}.

(** [response.features[0].properties.segments.reduce((sum, segment) =>
    sum + segment.distance, 0) / 1000] *)
Definition sumDistance (segs : list Segment) : JsNumber :=
  fold_left (fun sum segment => numAdd sum (distance segment)) segs (Num 0).

Definition sumDuration (segs : list Segment) : JsNumber :=
  fold_left (fun sum segment => numAdd sum (duration segment)) segs (Num 0).

(** [segment.elevation_gain || 0] *)
Definition sumElevation (segs : list Segment) : Q :=
  fold_left (fun sum segment =>
               sum + match elevation_gain segment with Some g => g | None => 0 end)
            segs 0.

Definition routeDistanceKm (response : ResponseData) : Completion JsNumber :=
  match features response with
  | [] => Thrown (typeError "properties")
  | feature :: _ => Returned (numDiv (sumDistance (segments feature)) 1000)
  end.

(** ** Walking: the ring of waypoints *)

Section Ring.
Context {rt : JsRuntime}.

(** [Math.min(Math.max(6, Math.floor(targetDistance * 1.2)), 10)] *)
Definition numPointsFor (targetDistance : Q) : Z :=
  Z.min (Z.max 6 (Qfloor (targetDistance * (12 # 10)))) 10.

(** [Math.max(targetDistance / (2 * Math.PI * 3), 0.5)] *)
Definition baseRadiusKmFor (targetDistance : Q) : Q :=
  Qmax (targetDistance / (2 * Math_PI * 3)) (5 # 10).

Definition ringPoint (centerLat centerLng radiusDeg : Q) (numPoints : Z) (i : nat)
  : Coord :=
  let angle := (2 * Math_PI * inject_Z (Z.of_nat i)) / inject_Z numPoints in
  let lat := centerLat + radiusDeg * Math_cos angle in
  let lng := centerLng + radiusDeg * Math_sin angle in
  (lng, lat).

(** The [for (i = 0; i < numPoints; i++)] loop that pushes the points, then
    the push of [[waypoints[0][0], waypoints[0][1]]]. *)
Definition ringWaypoints (centerLat centerLng radiusDeg : Q) (numPoints : Z)
  : Completion (list Coord) :=
  let waypoints :=
    map (ringPoint centerLat centerLng radiusDeg numPoints) (seq 0 (Z.to_nat numPoints)) in
  match waypoints with
  | [] => Thrown (typeError "0")
  | first :: _ => Returned (waypoints ++ [(fst first, snd first)])
  end.

(** The ring the loop regenerates at a radius given in kilometres, when
    [numPoints] is positive. *)
Definition ringAt (centerLat centerLng : Q) (numPoints : Z) (radiusKm : Q) : list Coord :=
  map (ringPoint centerLat centerLng (radiusKm / 111) numPoints) (seq 0 (Z.to_nat numPoints))
  ++ [ringPoint centerLat centerLng (radiusKm / 111) numPoints 0].

End Ring.

(** ** Walking: validateAndRetryRoute and generateWalkingRoute

    The retry loops reach the provider through [callOpenRouteService] only.
    They are written over any implementation [geoOracle] of that call and any
    type of world, so that they run against the real client over a network
    as well as against a scripted provider. *)

(** An entry of [dayDetails]. *)
Record DayDetail : Type := mkDayDetail {
  day : nat;
  day_distance : JsNumber;
  day_duration : JsNumber;
  day_startPoint : LatLng;
  day_endPoint : LatLng;
  day_path : list LatLng
}.

(** The route object, without its texts ([instructions], [metadata],
    provider [waypoints], [difficulty], [surface]). *)
Record Route : Type := mkRoute {
  route_distance : JsNumber;
  estimatedDuration : JsNumber;
  path : list LatLng;
  startPoint : LatLng;
  endPoint : LatLng;
  elevationGain : Q;
  routeType : string;
  isMultiDay : bool;
  dayDetails : list DayDetail
}.

(** [coordinates[0]] and [coordinates[coordinates.length - 1]], then the
    read of their components. *)
Definition firstPoint (coords : list Coord) : Completion LatLng :=
  match coords with
  | [] => Thrown (typeError "1")
  | c :: _ => Returned (toLatLng c)
  end.

Definition lastPoint (coords : list Coord) : Completion LatLng :=
  match rev coords with
  | [] => Thrown (typeError "1")
  | c :: _ => Returned (toLatLng c)
  end.

Section Walking.
Context {rt : JsRuntime} {World : Type}.
Variable geoOracle : list Coord -> string -> World -> Completion ResponseData * World.

(** The variables of [generateWalkingRoute] the closure reads. *)
Variables centerLat centerLng : Q.
Variable numPoints : Z.
Variable baseRadiusKm : Q.

(** The variables of the loop; [wl_calls] records the routing calls made. *)
Record WalkLoop : Type := mkWalkLoop {
  wl_attempt : nat;
  wl_waypoints : list Coord;
  wl_radius : Q;
  wl_world : World;
  wl_calls : list Call
}.

Definition walk_regenerate (s : WalkLoop) (factor : Q)
  : TryResult WalkLoop ResponseData :=
  let currentRadius := wl_radius s * factor in
  let newRadiusDeg := currentRadius / 111 in
  match ringWaypoints centerLat centerLng newRadiusDeg numPoints with
  | Returned newWaypoints =>
      TryDone (mkWalkLoop (wl_attempt s) newWaypoints currentRadius (wl_world s) (wl_calls s))
  | Thrown e =>
      TryThrow e (mkWalkLoop (wl_attempt s) (wl_waypoints s) currentRadius
                             (wl_world s) (wl_calls s))
  end.

(** The [try] block, from the completion of the routing call on. *)
Definition walk_try (s : WalkLoop) (response : Completion ResponseData)
  : TryResult WalkLoop ResponseData :=
  match response with
  | Thrown e => TryThrow e s
  | Returned tempResponse =>
      match routeDistanceKm tempResponse with
      | Thrown e => TryThrow e s
      | Returned tempDistance =>
          if numGeb tempDistance 5 && numLeb tempDistance 15 then TryReturn tempResponse
          else if numGtb tempDistance 15 then walk_regenerate s (8 # 10)
          else if numLtb tempDistance 5 then walk_regenerate s (13 # 10)
          else TryReturn tempResponse
      end
  end.

Definition walk_next (s : WalkLoop) : WalkLoop :=
  mkWalkLoop (S (wl_attempt s)) (wl_waypoints s) (wl_radius s) (wl_world s) (wl_calls s).

Definition walk_test (maxRetries : nat) (s : WalkLoop) : bool :=
  wl_attempt s <? maxRetries.

(** The state after the routing call of an iteration. *)
Definition called (s : WalkLoop) (w1 : World) : WalkLoop :=
  mkWalkLoop (wl_attempt s) (wl_waypoints s) (wl_radius s) w1
             (wl_calls s ++ [mkCall (wl_waypoints s) "foot-walking"]).

Definition walk_body (maxRetries : nat) (s : WalkLoop)
  : WalkLoop + (Completion ResponseData * WalkLoop) :=
  let '(response, w1) := geoOracle (wl_waypoints s) "foot-walking" (wl_world s) in
  let s1 := called s w1 in
  match walk_try s1 response with
  | TryReturn tempResponse => inr (Returned tempResponse, s1)
  | TryDone s2 => inl (walk_next s2)
  | TryThrow apiError s2 =>
      if wl_attempt s2 =? maxRetries - 1 then inr (Thrown apiError, s2)
      else inl (walk_next s2)
  end.

Definition walk_after (maxRetries : nat) (s : WalkLoop)
  : Completion ResponseData * WalkLoop :=
  (Thrown (newError ("Failed to generate acceptable route after "
                     ++ showNat maxRetries ++ " attempts")), s).

Definition walk_init (initialWaypoints : list Coord) (w : World) : WalkLoop :=
  mkWalkLoop 0 initialWaypoints baseRadiusKm w [].

(** [validateAndRetryRoute(initialWaypoints, targetDist, maxRetries)];
    [targetDist] is only logged. *)
Definition validateAndRetryRoute (initialWaypoints : list Coord) (maxRetries : nat)
           (w : World) : Completion ResponseData * WalkLoop :=
  for_loop (walk_body maxRetries) (walk_after maxRetries) maxRetries
           (walk_init initialWaypoints w).

End Walking.
Arguments WalkLoop World : clear implicits.

Section GenerateWalkingRoute.
Context {rt : JsRuntime} {World : Type}.
Variable geoOracle : list Coord -> string -> World -> Completion ResponseData * World.

Definition walkingTargetDistance : Q := 10.

(** The statements of [generateWalkingRoute] after the retry loop. *)
Definition assembleWalkingRoute (response : ResponseData) : Completion Route :=
  match features response with
  | [] => Thrown (newError "No route found")
  | feature :: _ =>
      let totalDistance := sumDistance (segments feature) in
      let totalDuration := sumDuration (segments feature) in
      let finalDistanceKm := numDiv totalDistance 1000 in
      if numLtb finalDistanceKm 3 then
        Thrown (newError ("Unable to generate a walking route for this location. The best possible route is "
                          ++ numToFixed finalDistanceKm 2
                          ++ "km. Please try a different city or location with more road networks."))
      else if numGtb finalDistanceKm 20 then
        Thrown (newError ("Unable to generate a walking route under 20km for this location. The shortest possible route is "
                          ++ numToFixed finalDistanceKm 2
                          ++ "km. Please try a different location or consider a cycling route."))
      else
        let estimatedDurationMinutes :=
          if numEqb (numDiv totalDuration 60) 0 || isNaN (numDiv totalDuration 60) then
            match summary_duration feature with
            | Some d => if Qeq_bool d 0 then numMul finalDistanceKm 12 else Num (d / 60)
            | None => numMul finalDistanceKm 12
            end
          else numDiv totalDuration 60 in
        match firstPoint (coordinates feature), lastPoint (coordinates feature) with
        | Returned start, Returned finish =>
            Returned (mkRoute finalDistanceKm estimatedDurationMinutes
                              (map toLatLng (coordinates feature)) start finish
                              (sumElevation (segments feature))
                              "walking" false [])
        | Thrown e, _ => Thrown e
        | _, Thrown e => Thrown e
        end
  end.

(** [generateWalkingRoute(params)] once [geocodeLocation(country, city)]
    has completed with [geocoded]. *)
Definition generateWalkingRoute (geocoded : Completion (option LatLng)) (w : World)
  : Completion Route * World :=
  match geocoded with
  | Thrown e => (Thrown e, w)
  | Returned None => (Thrown (newError "Could not find city/country coordinates"), w)
  | Returned (Some center) =>
      let centerLat := lat center in
      let centerLng := lng center in
      let baseRadiusKm := baseRadiusKmFor walkingTargetDistance in
      let radiusDeg := baseRadiusKm / 111 in
      let numPoints := numPointsFor walkingTargetDistance in
      match ringWaypoints centerLat centerLng radiusDeg numPoints with
      | Thrown e => (Thrown e, w)
      | Returned waypoints =>
          match validateAndRetryRoute geoOracle centerLat centerLng numPoints
                                      baseRadiusKm waypoints 8 w with
          | (Thrown error, s) => (Thrown error, wl_world s)
          | (Returned response, s) => (assembleWalkingRoute response, wl_world s)
          end
      end
  end.

End GenerateWalkingRoute.

(** ** Cycling: generateCityRouteWithRetry and generateCyclingRoute *)

Definition cyclingProfiles : list string := ["cycling-road"; "cycling-regular"]%string.

(** [list.indexOf(x)], counting from [i]. *)
Fixpoint indexOf (l : list string) (x : string) (i : Z) : Z :=
  match l with
  | [] => (-1)%Z
  | y :: rest => if String.eqb y x then i else indexOf rest x (i + 1)%Z
  end.

Section Cycling.
Context {rt : JsRuntime} {World : Type}.
Variable geoOracle : list Coord -> string -> World -> Completion ResponseData * World.

(** The variables of the loop.  [currentWaypoints] is a two-element array
    at both call sites and stays one; [cl_calls] records the routing calls
    made. *)
Record CycleLoop : Type := mkCycleLoop {
  cl_attempt : nat;
  cl_waypoints : Coord * Coord;
  cl_profile : string;
  cl_world : World;
  cl_calls : list Call
}.

Definition pairList (wp : Coord * Coord) : list Coord := [fst wp; snd wp].

(** [currentWaypoints[1] = [startCoord[0] + lngDiff * k, startCoord[1] + latDiff * k]] *)
Definition rescaleEnd (wp : Coord * Coord) (k : Q) : Coord * Coord :=
  let '(startCoord, endCoord) := wp in
  let latDiff := snd endCoord - snd startCoord in
  let lngDiff := fst endCoord - fst startCoord in
  (startCoord, (fst startCoord + lngDiff * k, snd startCoord + latDiff * k)).

Definition cycle_set_waypoints (s : CycleLoop) (wp : Coord * Coord) : CycleLoop :=
  mkCycleLoop (cl_attempt s) wp (cl_profile s) (cl_world s) (cl_calls s).

Definition cycle_set_profile (s : CycleLoop) (profile : string) : CycleLoop :=
  mkCycleLoop (cl_attempt s) (cl_waypoints s) profile (cl_world s) (cl_calls s).

Definition cycle_next (s : CycleLoop) : CycleLoop :=
  mkCycleLoop (S (cl_attempt s)) (cl_waypoints s) (cl_profile s) (cl_world s) (cl_calls s).

(** The [try] block, from the completion of the routing call on. *)
Definition cycle_try (s : CycleLoop) (called : Completion ResponseData)
  : TryResult CycleLoop (ResponseData * JsNumber) :=
  match called with
  | Thrown e => TryThrow e s
  | Returned response =>
      match routeDistanceKm response with
      | Thrown e => TryThrow e s
      | Returned actualDistance =>
          if numGeb actualDistance 5 && numLeb actualDistance 60 then
            TryReturn (response, actualDistance)
          else if numLtb actualDistance 5 && (cl_attempt s <? 3) then
            TryDone (cycle_set_waypoints s (rescaleEnd (cl_waypoints s) 2))
          else if numGtb actualDistance 60 && (cl_attempt s <? 3) then
            TryDone (cycle_set_waypoints s (rescaleEnd (cl_waypoints s) (6 # 10)))
          else TryReturn (response, actualDistance)
      end
  end.

(** The coordinate adjustment of the [catch] block. *)
Definition rotatedWaypoints (waypoints : Coord * Coord) (attempt : nat) : Coord * Coord :=
  let originalStart := fst waypoints in
  let baseRadius := (5 # 100) + inject_Z (Z.of_nat attempt) * (2 # 100) in
  let angle := inject_Z (Z.of_nat attempt) * 45 in
  let angleRad := (angle * Math_PI) / 180 in
  let newEndLng := fst originalStart + Math_cos angleRad * baseRadius in
  let newEndLat := snd originalStart + Math_sin angleRad * baseRadius in
  (originalStart, (newEndLng, newEndLat)).

(** The [catch] block. *)
Definition cycle_catch (waypoints : Coord * Coord) (maxRetries : nat)
           (apiError : JsError) (s : CycleLoop)
  : CycleLoop + (Completion (ResponseData * JsNumber) * CycleLoop) :=
  let adjust :=
    let s' := cycle_set_waypoints s (rotatedWaypoints waypoints (cl_attempt s)) in
    if cl_attempt s =? maxRetries - 1 then inr (Thrown apiError, s')
    else inl (cycle_next s') in
  if statusIs (response_status apiError) 404
     && includes (message apiError) "profile not found" then
    let currentProfileIndex := indexOf cyclingProfiles (cl_profile s) 0 in
    if (currentProfileIndex <? Z.of_nat (List.length cyclingProfiles) - 1)%Z then
      inl (cycle_next
             (cycle_set_profile s
                (nth (Z.to_nat (currentProfileIndex + 1)) cyclingProfiles EmptyString)))
    else adjust
  else adjust.

Definition cycle_test (maxRetries : nat) (s : CycleLoop) : bool :=
  cl_attempt s <? maxRetries.

Definition cycle_body (waypoints : Coord * Coord) (maxRetries : nat) (s : CycleLoop)
  : CycleLoop + (Completion (ResponseData * JsNumber) * CycleLoop) :=
  let '(called, w1) := geoOracle (pairList (cl_waypoints s)) (cl_profile s) (cl_world s) in
  let s1 := mkCycleLoop (cl_attempt s) (cl_waypoints s) (cl_profile s) w1
                        (cl_calls s ++ [mkCall (pairList (cl_waypoints s)) (cl_profile s)]) in
  match cycle_try s1 called with
  | TryReturn result => inr (Returned result, s1)
  | TryDone s2 => inl (cycle_next s2)
  | TryThrow apiError s2 => cycle_catch waypoints maxRetries apiError s2
  end.

Definition cycle_after (routeName : string) (maxRetries : nat) (s : CycleLoop)
  : Completion (ResponseData * JsNumber) * CycleLoop :=
  (Thrown (newError ("CYCLING_ROUTE_FAILED: Unable to generate " ++ routeName ++ " after "
                     ++ showNat maxRetries
                     ++ " attempts. This location may not have suitable cycling infrastructure or road connectivity.")),
   s).

(** [let currentWaypoints = [...waypoints]]: a copy, the caller's array is
    never written. *)
Definition cycle_init (waypoints : Coord * Coord) (w : World) : CycleLoop :=
  mkCycleLoop 0 waypoints (hd EmptyString cyclingProfiles) w [].

(** [generateCityRouteWithRetry(waypoints, profile, targetDistance,
    routeName, maxRetries)]; [profile] is not read and [targetDistance] is
    only logged. *)
Definition generateCityRouteWithRetry (waypoints : Coord * Coord) (routeName : string)
           (maxRetries : nat) (w : World)
  : Completion (ResponseData * JsNumber) * CycleLoop :=
  for_loop (cycle_body waypoints maxRetries) (cycle_after routeName maxRetries) maxRetries
           (cycle_init waypoints w).

End Cycling.
Arguments CycleLoop World : clear implicits.

Section GenerateCyclingRoute.
Context {rt : JsRuntime} {World : Type}.
Variable geoOracle : list Coord -> string -> World -> Completion ResponseData * World.

(** The four [Math.random()] draws, in the order they are made. *)
Record Draws : Type := mkDraws { draw1 : Q; draw2 : Q; draw3 : Q; draw4 : Q }.

(** [day1Waypoints] and [day2Waypoints]. *)
Definition proposedWaypoints (startCenter : LatLng) (r : Draws)
  : (Coord * Coord) * (Coord * Coord) :=
  let startLat := lat startCenter in
  let startLng := lng startCenter in
  let kmToDegrees := 1 / 111 in
  let day1Angle := draw1 r * 2 * Math_PI in
  let day1DistanceDeg := (15 + draw2 r * 15) * kmToDegrees in
  let day1EndLat := startLat + day1DistanceDeg * Math_cos day1Angle in
  let day1EndLng := startLng + day1DistanceDeg * Math_sin day1Angle in
  let day2Angle := day1Angle + Math_PI + (draw3 r * Math_PI - Math_PI / 2) in
  let day2DistanceDeg := (15 + draw4 r * 15) * kmToDegrees in
  let day2EndLat := day1EndLat + day2DistanceDeg * Math_cos day2Angle in
  let day2EndLng := day1EndLng + day2DistanceDeg * Math_sin day2Angle in
  (((startLng, startLat), (day1EndLng, day1EndLat)),
   ((day1EndLng, day1EndLat), (day2EndLng, day2EndLat))).

(** The duration the route reports. *)
Definition cyclingDuration (totalDistance totalDurationSeconds : JsNumber) : JsNumber :=
  let calculatedDurationMinutes := numDiv totalDurationSeconds 60 in
  let estimatedDurationMinutes := numMul (numDiv totalDistance 20) 60 in
  if numLtb calculatedDurationMinutes 10 && numGtb totalDistance 20
  then estimatedDurationMinutes
  else calculatedDurationMinutes.

(** The second [try] block of [generateCyclingRoute]: the route object. *)
Definition assembleCyclingRoute (day1 day2 : Feature)
           (actualDay1Distance actualDay2Distance : JsNumber) : Completion Route :=
  let totalDistance := numAdd actualDay1Distance actualDay2Distance in
  let totalDurationSeconds :=
    numAdd (sumDuration (segments day1)) (sumDuration (segments day2)) in
  let totalDuration := cyclingDuration totalDistance totalDurationSeconds in
  let path1 := map toLatLng (coordinates day1) in
  let path2 := map toLatLng (coordinates day2) in
  match firstPoint (coordinates day1), lastPoint (coordinates day1),
        firstPoint (coordinates day2), lastPoint (coordinates day2) with
  | Returned start1, Returned end1, Returned start2, Returned end2 =>
      Returned
        (mkRoute totalDistance totalDuration (path1 ++ path2) start1 end2
                 (sumElevation (segments day1) + sumElevation (segments day2))
                 "cycling" true
                 [ mkDayDetail 1 actualDay1Distance (numDiv (sumDuration (segments day1)) 60)
                               start1 end1 path1;
                   mkDayDetail 2 actualDay2Distance (numDiv (sumDuration (segments day2)) 60)
                               start2 end2 path2 ])
  | Thrown e, _, _, _ | _, Thrown e, _, _ | _, _, Thrown e, _ | _, _, _, Thrown e =>
      Thrown (newError ("Failed to process cycling route: " ++ message e))
  end.

Definition cyclingFailed (error : JsError) : JsError :=
  newError ("CYCLING_ROUTE_FAILED: Unable to generate city-to-city cycling route: "
            ++ message error
            ++ ". Please try a different country or location with better road connectivity.").

(** [generateCyclingRoute(params)] once [geocodeLocation(country, city)]
    has completed with [geocoded]; both days run with the default
    [maxRetries = 8]. *)
Definition generateCyclingRoute (geocoded : Completion (option LatLng)) (r : Draws)
           (w : World) : Completion Route * World :=
  match geocoded with
  | Thrown e => (Thrown e, w)
  | Returned None => (Thrown (newError "Could not find starting city coordinates"), w)
  | Returned (Some startCenter) =>
      let '(day1Waypoints, day2Waypoints) := proposedWaypoints startCenter r in
      match generateCityRouteWithRetry geoOracle day1Waypoints "Day 1" 8 w with
      | (Thrown error, s1) => (Thrown (cyclingFailed error), cl_world s1)
      | (Returned (day1Response, actualDay1Distance), s1) =>
          let day1EndCoords := snd day1Waypoints in
          let updatedDay2Waypoints := (day1EndCoords, snd day2Waypoints) in
          match generateCityRouteWithRetry geoOracle updatedDay2Waypoints "Day 2" 8
                                           (cl_world s1) with
          | (Thrown error, s2) => (Thrown (cyclingFailed error), cl_world s2)
          | (Returned (day2Response, actualDay2Distance), s2) =>
              match features day1Response, features day2Response with
              | day1 :: _, day2 :: _ =>
                  (assembleCyclingRoute day1 day2 actualDay1Distance actualDay2Distance,
                   cl_world s2)
              | _, _ =>
                  (Thrown (newError "Could not generate cycling route - invalid response structure"),
                   cl_world s2)
              end
          end
      end
  end.

End GenerateCyclingRoute.

(** [generateRoute(params)]: the dispatch on [routeType]. *)
Definition generateRoute {rt : JsRuntime} {World : Type}
           (geoOracle : list Coord -> string -> World -> Completion ResponseData * World)
           (routeType : string) (geocoded : Completion (option LatLng)) (r : Draws)
           (w : World) : Completion Route * World :=
  if String.eqb routeType "cycling" then generateCyclingRoute geoOracle geocoded r w
  else generateWalkingRoute geoOracle geocoded w.

(** The routing call as both loops make it:
    [callOpenRouteService(currentWaypoints, profile, distance, 2)]. *)
Definition routingCall {rt : JsRuntime} (apiKey : option string) (net : Network)
  : list Coord -> string -> NetLog -> Completion ResponseData * NetLog :=
  fun waypoints profile w => callOpenRouteService apiKey net waypoints profile 2 w.

(** The error [callOpenRouteService] throws on a 401 or a 403. *)
Definition authenticationError (status : Z) : JsError :=
  newError ("Authentication error - Status " ++ showZ status ++ ": Check API key validity").

(** ** Running the model

    A runtime with rational approximations of the [Math] functions, and
    providers scripted by the index of the call, to run the model on
    concrete inputs. *)

Module Approx.

Definition PI : Q := 3141592653589793 # 1000000000000000.

(** Rounding down to twelve decimals. *)
Definition fix12 (x : Q) : Q := Qfloor (x * 1000000000000) # 1000000000000.

(** [n] further terms of the power series; [term] is the term of degree
    [k], [x2] is the square of the argument. *)
Fixpoint series (n : nat) (k : Z) (term acc x2 : Q) : Q :=
  match n with
  | O => acc
  | S n' =>
      let term' := fix12 (- term * x2 / inject_Z ((k + 1) * (k + 2))) in
      series n' (k + 2)%Z term' (fix12 (acc + term')) x2
  end.

Definition cos (x : Q) : Q := series 20 0 1 1 (fix12 (x * x)).
Definition sin (x : Q) : Q := series 20 1 (fix12 x) (fix12 x) (fix12 (x * x)).

(** The square root to nine decimals. *)
Definition sqrt (x : Q) : Q :=
  Z.sqrt (Qnum x * 10 ^ 18 / Zpos (Qden x)) # 1000000000.

#[export] Instance runtime : JsRuntime :=
  {| Math_PI := PI;
     Math_cos := cos;
     Math_sin := sin;
     Math_sqrt := sqrt;
     Number_toString := fun x => Number_toFixed x 6 |}.

End Approx.

(** A provider scripted by the number of calls already answered; the world
    is that number. *)
Definition scripted (script : nat -> list Coord -> string -> Completion ResponseData)
  : list Coord -> string -> nat -> Completion ResponseData * nat :=
  fun waypoints profile n => (script n waypoints profile, S n).

(** A response that measures [km] kilometres in [seconds] seconds along the
    requested waypoints. *)
Definition measuring (km seconds : Q) (waypoints : list Coord) : ResponseData :=
  mkData [mkFeature [mkSegment (Num (km * 1000)) (Num seconds) None] None waypoints].

(** A response along the requested waypoints whose only segment has a
    duration and no [distance]. *)
Definition unmeasured (seconds : Q) (waypoints : list Coord) : ResponseData :=
  mkData [mkFeature [mkSegment NaN (Num seconds) None] None waypoints].

(** A response of two segments along the requested waypoints. *)
Definition twoSegments (km1 seconds1 km2 seconds2 : Q) (waypoints : list Coord)
  : ResponseData :=
  mkData [mkFeature [mkSegment (Num (km1 * 1000)) (Num seconds1) None;
                     mkSegment (Num (km2 * 1000)) (Num seconds2) None]
                    None waypoints].

(** The provider of the scenario: 18 km, 16 km and 13 km on the first three
    calls, each along the waypoints requested. *)
Definition shrinkingProvider : list Coord -> string -> nat -> Completion ResponseData * nat :=
  scripted (fun n waypoints _ =>
              let km := nth n [18; 16; 13] 0 in
              Returned (measuring km (km * 720) waypoints)).

(** A city centre: latitude 32, longitude 34.75. *)
Definition sampleCenter : LatLng := mkLatLng 32 (3475 # 100).

(** The provider that measures the same distance at every call. *)
Definition constantProvider (km : Q) : list Coord -> string -> nat -> Completion ResponseData * nat :=
  scripted (fun _ waypoints _ => Returned (measuring km (km * 720) waypoints)).

(** The provider that measures 18 km at the first call and 10 km afterwards. *)
Definition settlingProvider : list Coord -> string -> nat -> Completion ResponseData * nat :=
  scripted (fun n waypoints _ =>
              let km := nth n [18] 10 in
              Returned (measuring km (km * 720) waypoints)).

(** The ring around [sampleCenter] and the initial radius, in the runtime
    [Approx.runtime]. *)
Definition sampleRing (radiusKm : Q) : list Coord :=
  ringAt (rt := Approx.runtime) (lat sampleCenter) (lng sampleCenter)
         (numPointsFor walkingTargetDistance) radiusKm.

Definition sampleRadius : Q := baseRadiusKmFor (rt := Approx.runtime) walkingTargetDistance.

(** A network that answers the first request with the status [status] and
    every later request with a route of [km] kilometres along the requested
    coordinates. *)
Definition failingOnce (status : Z) (km : Q) : Network :=
  fun k req =>
    match k with
    | O => HttpErr (mkAxiosError "Request failed" (Some status) None)
    | S _ => HttpOk (measuring km (km * 180) (req_coordinates req))
    end.

(** Four draws of [Math.random()]. *)
Definition sampleDraws : Draws := mkDraws 0 0 (3 # 4) 0.

(** [a[0] === b[0] && a[1] === b[1]] *)
Definition sameCoord (a b : Coord) : bool :=
  Qeq_bool (fst a) (fst b) && Qeq_bool (snd a) (snd b).

(** [a.lat === b.lat && a.lng === b.lng] *)
Definition samePoint (a b : LatLng) : bool :=
  Qeq_bool (lat a) (lat b) && Qeq_bool (lng a) (lng b).

(** Two points a tenth of a degree of longitude apart. *)
Definition nearPair : list Coord := [(3475 # 100, 32); (3485 # 100, 32)].

(** Two points two degrees of longitude apart. *)
Definition farApartPair : list Coord := [(3475 # 100, 32); (3675 # 100, 32)].

(** A list whose second and third points are more than 80 km apart while
    its first two are close. *)
Definition farApartLater : list Coord :=
  [(3475 # 100, 32); (3485 # 100, 32); (3675 # 100, 32)].

(** ** Further functions of the route service *)

(** The callback of [coordinates.filter] in [createWaypoints]; a number is
    truthy when it is not zero. *)
Definition waypointIsValid (coord : LatLng) : bool :=
  negb (Qeq_bool (lat coord) 0) && negb (Qeq_bool (lng coord) 0)
  && Qgtb (lat coord) (-90) && Qltb (lat coord) 90
  && Qgtb (lng coord) (-180) && Qltb (lng coord) 180
  && negb (Qltb (Qabs (lat coord)) (1 # 10) && Qltb (Qabs (lng coord)) (1 # 10)).

(** The loop [for (i = step; i < filtered.length - 1; i += step)] of
    [createWaypoints], from the value [i] on: the points it pushes.  [fuel]
    bounds the iterations. *)
Fixpoint simplifyFrom (fuel i step : nat) (filtered : list LatLng) : list LatLng :=
  match fuel with
  | O => []
  | S fuel' =>
      if (i <? List.length filtered - 1)%nat then
        match nth_error filtered i with
        | Some coord => coord :: simplifyFrom fuel' (i + step) step filtered
        | None => []
        end
      else []
  end.

(** [createWaypoints(coordinates)] *)
Definition createWaypoints (coordinates : list LatLng) : list LatLng :=
  let filtered := filter waypointIsValid coordinates in
  if (List.length filtered <=? 3)%nat then filtered
  else
    let step := Nat.max 1 (List.length filtered / 10) in
    match filtered with
    | [] => []
    | first :: _ =>
        first :: simplifyFrom (List.length filtered) step step filtered
        ++ [last filtered first]
    end.

(** [getOpenRouteProfile(routeType)] *)
Definition getOpenRouteProfile (routeType : string) : string :=
  if String.eqb routeType "walking" then "foot-walking"
  else if String.eqb routeType "cycling" then "cycling-road"
  else "foot-walking".

(** *** The image address kept by saveRouteToDb *)

(** [s.split(c)[0]] *)
Fixpoint beforeChar (c : ascii) (s : string) : string :=
  match s with
  | EmptyString => EmptyString
  | String a rest => if Ascii.eqb a c then EmptyString else String a (beforeChar c rest)
  end.

(** [c.toLowerCase()] on the letters A to Z. *)
Definition asciiLower (c : ascii) : ascii :=
  let n := nat_of_ascii c in
  if ((65 <=? n) && (n <=? 90))%nat then ascii_of_nat (n + 32) else c.

Fixpoint lowerCase (s : string) : string :=
  match s with
  | EmptyString => EmptyString
  | String a rest => String (asciiLower a) (lowerCase rest)
  end.

(** [s.endsWith(suffix)] *)
Fixpoint endsWith (s suffix : string) : bool :=
  if String.eqb s suffix then true
  else
    match s with
    | EmptyString => false
    | String _ rest => endsWith rest suffix
    end.

(** The test [/\.(jpg|jpeg|png|webp)$/i]. *)
Definition hasImageExtension (s : string) : bool :=
  let l := lowerCase s in
  endsWith l ".jpg" || endsWith l ".jpeg" || endsWith l ".png" || endsWith l ".webp".

Definition unsplashPrefix : string := "https://images.unsplash.com/".

(** The statements of [saveRouteToDb] that clean [imageUrl], from
    [imageUrlRaw] on. *)
Definition cleanImageUrl (imageUrlRaw : string) : string :=
  if String.prefix unsplashPrefix imageUrlRaw then
    let imageUrl := beforeChar "?" imageUrlRaw in
    if hasImageExtension imageUrl then imageUrl else (imageUrl ++ ".jpg")%string
  else imageUrlRaw.

(** *** Pagination of getUserRoutesFromDb *)

Record Pagination : Type := mkPagination {
  currentPage : Z;
  totalPages : Z;
  totalRoutes : Z;
  hasNextPage : bool;
  hasPrevPage : bool
}.

(** The [pagination] object [getUserRoutesFromDb] returns. *)
Definition paginationOf (page limit totalCount : Z) : Pagination :=
  let pages := Qceiling (inject_Z totalCount / inject_Z limit) in
  mkPagination page pages totalCount (page <? pages)%Z (1 <? page)%Z.

(** [getUserRoutesFromDb(userId, options)] on the documents the query
    matches, in the order of the sort: [find(query).sort(sort).skip(skip)
    .limit(limit)] and [countDocuments(query)], for the integers [page] and
    [limit] of at least 1 that [GET /my-routes] passes: [skip] and [limit]
    there drop and keep that many documents.  The images fetched for the
    routes that lack one are left out. *)
Definition getUserRoutesFromDb {A : Type} (matching : list A) (page limit : Z)
  : list A * Pagination :=
  let skip := ((page - 1) * limit)%Z in
  (firstn (Z.to_nat limit) (skipn (Z.to_nat skip) matching),
   paginationOf page limit (Z.of_nat (List.length matching))).

(** ** The limiter of route generation *)

Definition limiterWindowMs : Z := 5 * 60 * 1000.
Definition limiterMaxRequests : nat := 3.

Inductive LimiterOutcome : Type :=
| LimiterNext
| LimiterTooMany (retryAfter : Z).

(** [routeGenerationLimiter(req, res, next)] on [req.session.routeRequests]
    (the empty list when the session has none) and the value of
    [Date.now()]: [next()] or the 429 answer with its [retryAfter], and the
    list the session holds afterwards. *)
Definition routeGenerationLimiter (routeRequests : list Z) (now : Z)
  : LimiterOutcome * list Z :=
  let recentRequests :=
    filter (fun timestamp => (now - timestamp <? limiterWindowMs)%Z) routeRequests in
  if (limiterMaxRequests <=? List.length recentRequests)%nat then
    (LimiterTooMany
       (Qceiling (inject_Z (hd 0%Z recentRequests + limiterWindowMs - now) / 1000)),
     routeRequests)
  else (LimiterNext, (recentRequests ++ [now])%list).



(** ** The routes: POST /generate and POST /save *)

(** The message of the 500 answer of [POST /generate] for an error thrown
    by [generateRoute]. *)
Definition generateFailureMessage (error : JsError) : string :=
  if includes (message error) "exceed" then message error
  else if includes (message error) "Unable to generate" then message error
  else "Failed to generate route. Please try a different location or route type.".

(** The fields of the body of [POST /save] the business checks read. *)
Record SaveBody : Type := mkSaveBody {
  save_routeType : string;
  save_distance : Q;
  save_dayDetails : option (list DayDetail);
  save_startPoint : LatLng;
  save_endPoint : LatLng;
  save_path : list LatLng
}.

(** The first check that answers, in the order of the handler. *)
Fixpoint firstAnswer (checks : list (option (Z * string))) : option (Z * string) :=
  match checks with
  | [] => None
  | Some answer :: _ => Some answer
  | None :: rest => firstAnswer rest
  end.

(** The business checks of [POST /save], from the distance check to the
    check of the path: the status and message of the answer that rejects
    the body, or [None] when the handler goes on to the database.  Every
    coordinate of the body is a pair of numbers, so [validPath] is the
    path. *)
Definition saveBusinessChecks (body : SaveBody) : option (Z * string) :=
  let distance := save_distance body in
  let walkingDistance :=
    if String.eqb (save_routeType body) "walking"
       && (Qltb distance 5 || Qgtb distance 15)
    then Some (400%Z, "Walking routes must be between 5-15 km"%string)
    else None in
  let cyclingDistance :=
    if String.eqb (save_routeType body) "cycling" then
      match save_dayDetails body with
      | Some days =>
          match find (fun d => numGtb (day_distance d) 60) days with
          | Some d =>
              Some (400%Z,
                    ("Cycling routes cannot exceed 60 km per day. Day " ++ showNat (day d)
                     ++ " is " ++ numToFixed (day_distance d) 1 ++ " km")%string)
          | None => None
          end
      | None =>
          if Qgtb distance 60
          then Some (400%Z, "Cycling routes cannot exceed 60 km per day"%string)
          else None
      end
    else None in
  let circular :=
    if String.eqb (save_routeType body) "walking" then
      let threshold := 1 # 1000 in
      let isCircular :=
        Qltb (Qabs (lat (save_startPoint body) - lat (save_endPoint body))) threshold
        && Qltb (Qabs (lng (save_startPoint body) - lng (save_endPoint body))) threshold in
      if negb isCircular
      then Some (400%Z,
                 "Walking routes must be circular (start and end at the same point)"%string)
      else None
    else None in
  let validPath :=
    if (List.length (save_path body) <? 2)%nat
    then Some (400%Z, "Route must have at least 2 valid coordinates"%string)
    else None in
  firstAnswer [walkingDistance; cyclingDistance; circular; validPath].

(** [safeToNumber(value, fallback)] of the client on a number of the
    answer of [POST /generate]: the answer is JSON, where [NaN] is written
    [null], and [safeToNumber] gives [fallback] for what is not a number. *)
Definition safeToNumber (value : JsNumber) (fallback : Q) : Q :=
  match value with
  | Num a => a
  | NaN => fallback
  end.

(** The body the client posts to save a generated route: the fields of the
    route itself, the distance through [safeToNumber(distance, 5)].  A
    walking route has no [dayDetails].  The distance of a day that is [NaN]
    arrives as [null], and [null > 60] is false as [NaN > 60] is. *)
Definition saveBodyOf (route : Route) : SaveBody :=
  mkSaveBody (routeType route) (safeToNumber (route_distance route) 5)
             (match dayDetails route with [] => None | days => Some days end)
             (startPoint route) (endPoint route) (path route).

(** ** Vocabulary of the statements *)

(** [s] is [l] with some elements removed. *)
Inductive Subsequence {A : Type} : list A -> list A -> Prop :=
| Subsequence_nil : forall l, Subsequence [] l
| Subsequence_take : forall x s l, Subsequence s l -> Subsequence (x :: s) (x :: l)
| Subsequence_skip : forall x s l, Subsequence s l -> Subsequence s (x :: l).

(** A coordinate [callOpenRouteService] lets through. *)
Definition coordinateInRange (c : Coord) : Prop :=
  -90 <= snd c /\ snd c <= 90 /\ -180 <= fst c /\ fst c <= 180
  /\ ~ (Qabs (snd c) < 1 # 10 /\ Qabs (fst c) < 1 # 10).

(** An answer after which [callOpenRouteService] tries again: a failure
    without status, or with a status other than 400, 404, 401, 403, and
    other than the 429 the rate limiter retries itself. *)
Definition retriedFailure (answer : HttpResult) : Prop :=
  match answer with
  | HttpOk _ => False
  | HttpErr e =>
      match ax_status e with
      | None => True
      | Some status =>
          status <> 400%Z /\ status <> 404%Z /\ status <> 401%Z /\ status <> 403%Z
          /\ status <> 429%Z
      end
  end.

(** The window test of the limiter. *)
Definition inWindow (now timestamp : Z) : bool := (now - timestamp <? limiterWindowMs)%Z.

(** [x] is a number and equals [q]; lies within [lo, hi]; exceeds [c]; is
    below [c]. *)
Definition numIs (x : JsNumber) (q : Q) : Prop :=
  match x with Num a => a == q | NaN => False end.

Definition numWithin (x : JsNumber) (lo hi : Q) : Prop :=
  match x with Num a => lo <= a /\ a <= hi | NaN => False end.

Definition numExceeds (x : JsNumber) (c : Q) : Prop :=
  match x with Num a => c < a | NaN => False end.

Definition numBelow (x : JsNumber) (c : Q) : Prop :=
  match x with Num a => a < c | NaN => False end.

(** Two numbers of the payload are the same: both [NaN], or equal
    rationals. *)
Definition numSame (x y : JsNumber) : Prop :=
  match x, y with
  | Num a, Num b => a == b
  | NaN, NaN => True
  | _, _ => False
  end.

(** The total the provider gave over the segments of a route: the sum of
    the field [field] of every segment, [NaN] as soon as a segment lacks
    it. *)
Fixpoint providerTotal (field : Segment -> JsNumber) (segs : list Segment) : JsNumber :=
  match segs with
  | [] => Num 0
  | segment :: rest => numAdd (field segment) (providerTotal field rest)
  end.

(** * Properties *)

(** ** Comparisons *)

Lemma Qleb_le (x y : Q) : Qleb x y = true <-> x <= y.
Proof. unfold Qleb. apply Qle_bool_iff. Qed.

Lemma Qltb_lt (x y : Q) : Qltb x y = true <-> x < y.
Proof.
  unfold Qltb. rewrite negb_true_iff. split.
  - intros Hf. apply Qnot_le_lt. intros Hle.
    apply Qle_bool_iff in Hle. congruence.
  - intros Hlt. destruct (Qle_bool y x) eqn:E; [|reflexivity].
    apply Qle_bool_iff in E. exfalso. exact (Qlt_not_le _ _ Hlt E).
Qed.

Lemma Qltb_ge (x y : Q) : Qltb x y = false <-> y <= x.
Proof.
  unfold Qltb. rewrite negb_false_iff. apply Qle_bool_iff.
Qed.

Lemma Qleb_gt (x y : Q) : Qleb x y = false <-> y < x.
Proof.
  rewrite <- Qltb_lt. unfold Qltb, Qleb.
  destruct (Qle_bool x y); simpl; split; congruence.
Qed.

Lemma Qgeb_le (x y : Q) : Qgeb x y = true <-> y <= x.
Proof. unfold Qgeb. apply Qleb_le. Qed.

Lemma Qgtb_lt (x y : Q) : Qgtb x y = true <-> y < x.
Proof. unfold Qgtb. apply Qltb_lt. Qed.

(** The ideal band of the walking loop, as a proposition. *)
Lemma ideal_band_iff (d : Q) :
  Qgeb d 5 && Qleb d 15 = true <-> 5 <= d /\ d <= 15.
Proof. rewrite andb_true_iff, Qgeb_le, Qleb_le. tauto. Qed.

(** ** The loop machine and the bounded [for] loop *)

Section LoopFacts.
Variables (St R : Type).
Variable counter : St -> nat.
Variable bound : nat.
Variable body : St -> St + R.
Variable after : St -> R.
Hypothesis body_counts : forall s s', body s = inl s' -> counter s' = S (counter s).

(** With a counter the body increments, the machine halts within
    [bound - counter] iterations, on what [for_loop] computes. *)
Lemma run_loop_for_loop (k : nat) :
  forall (s : St) (fuel : nat),
    (counter s + k = bound)%nat -> (k < fuel)%nat ->
    run_loop (fun s => counter s <? bound) body after fuel s
    = Some (for_loop body after k s).
Proof.
  induction k as [|k IH]; intros s fuel Hk Hfuel;
    (destruct fuel as [|fuel]; [lia|]); simpl; unfold loop_step.
  - replace (counter s <? bound) with false
      by (symmetry; apply Nat.ltb_ge; lia).
    reflexivity.
  - replace (counter s <? bound) with true
      by (symmetry; apply Nat.ltb_lt; lia).
    destruct (body s) as [s'|r] eqn:Hb; [|reflexivity].
    apply IH; [|lia]. rewrite (body_counts _ _ Hb). lia.
Qed.

(** What the body preserves up to one more unit per iteration is bounded
    by the number of iterations. *)
Variable size : St -> nat.
Variable rsize : R -> nat.
Hypothesis body_grows : forall s s', body s = inl s' -> (size s' <= S (size s))%nat.
Hypothesis body_exits : forall s r, body s = inr r -> (rsize r <= S (size s))%nat.
Hypothesis after_keeps : forall s, (rsize (after s) <= size s)%nat.

Lemma for_loop_size (k : nat) :
  forall s, (rsize (for_loop body after k s) <= size s + k)%nat.
Proof.
  induction k as [|k IH]; intros s; simpl.
  - rewrite Nat.add_0_r. apply after_keeps.
  - destruct (body s) as [s'|r] eqn:Hb.
    + specialize (IH s'). apply body_grows in Hb. lia.
    + apply body_exits in Hb. lia.
Qed.

End LoopFacts.

(** ** Bounded retries *)

Section RetryBounds.
Context {rt : JsRuntime} {World : Type}.
Variable geoOracle : list Coord -> string -> World -> Completion ResponseData * World.

Lemma walk_body_counts centerLat centerLng numPoints maxRetries s s' :
  walk_body geoOracle centerLat centerLng numPoints maxRetries s = inl s' ->
  wl_attempt s' = S (wl_attempt s)
  /\ List.length (wl_calls s') = S (List.length (wl_calls s)).
Proof.
  unfold walk_body, walk_try, walk_regenerate.
  destruct (geoOracle _ _ _) as [called w1].
  destruct called as [resp|e]; simpl.
  - destruct (routeDistanceKm resp) as [d|e]; simpl.
    + repeat match goal with
             | |- context [if ?b then _ else _] => destruct b; simpl
             | |- context [match ringWaypoints ?a ?b ?c ?d with _ => _ end] =>
                 destruct (ringWaypoints a b c d); simpl
             end;
        intros H; inversion H; subst; simpl;
        rewrite ?length_app; simpl; split; try reflexivity; lia.
    + destruct (_ =? _); intros H; inversion H; subst; simpl;
        rewrite length_app; simpl; split; try reflexivity; lia.
  - destruct (_ =? _); intros H; inversion H; subst; simpl;
      rewrite length_app; simpl; split; try reflexivity; lia.
Qed.

Lemma walk_body_exits centerLat centerLng numPoints maxRetries s out s' :
  walk_body geoOracle centerLat centerLng numPoints maxRetries s = inr (out, s') ->
  List.length (wl_calls s') = S (List.length (wl_calls s)).
Proof.
  unfold walk_body, walk_try, walk_regenerate.
  destruct (geoOracle _ _ _) as [called w1].
  destruct called as [resp|e]; simpl.
  - destruct (routeDistanceKm resp) as [d|e]; simpl.
    + repeat match goal with
             | |- context [if ?b then _ else _] => destruct b; simpl
             | |- context [match ringWaypoints ?a ?b ?c ?d with _ => _ end] =>
                 destruct (ringWaypoints a b c d); simpl
             end;
        intros H; inversion H; subst; simpl;
        rewrite ?length_app; simpl; lia.
    + destruct (_ =? _); intros H; inversion H; subst; simpl;
        rewrite length_app; simpl; lia.
  - destruct (_ =? _); intros H; inversion H; subst; simpl;
      rewrite length_app; simpl; lia.
Qed.

End RetryBounds.

Section CyclingRetryBounds.
Context {rt : JsRuntime} {World : Type}.
Variable geoOracle : list Coord -> string -> World -> Completion ResponseData * World.

Lemma cycle_catch_counts waypoints maxRetries apiError s :
  match cycle_catch waypoints maxRetries apiError s with
  | inl s' => @cl_attempt World s' = S (cl_attempt s) /\ @cl_calls World s' = cl_calls s
  | inr (_, s') => @cl_calls World s' = cl_calls s
  end.
Proof.
  unfold cycle_catch.
  repeat match goal with
         | |- context [if ?b then _ else _] => destruct b
         end; simpl; auto.
Qed.

Lemma cycle_body_counts waypoints maxRetries s :
  match cycle_body geoOracle waypoints maxRetries s with
  | inl s' => @cl_attempt World s' = S (cl_attempt s)
              /\ List.length (@cl_calls World s') = S (List.length (cl_calls s))
  | inr (_, s') => List.length (@cl_calls World s') = S (List.length (cl_calls s))
  end.
Proof.
  unfold cycle_body.
  destruct (geoOracle _ _ _) as [called w1].
  set (s1 := mkCycleLoop _ _ _ _ _).
  assert (Hs1 : cl_attempt s1 = cl_attempt s
                /\ List.length (cl_calls s1) = S (List.length (cl_calls s))).
  { subst s1; simpl. rewrite length_app. simpl. lia. }
  destruct Hs1 as [Ha Hc].
  assert (Hcatch : forall e,
             match cycle_catch waypoints maxRetries e s1 with
             | inl s' => @cl_attempt World s' = S (cl_attempt s)
                         /\ List.length (@cl_calls World s') = S (List.length (cl_calls s))
             | inr (_, s') => List.length (@cl_calls World s') = S (List.length (cl_calls s))
             end).
  { intros e. pose proof (cycle_catch_counts waypoints maxRetries e s1) as H.
    destruct (cycle_catch waypoints maxRetries e s1) as [s'|[out s']].
    - destruct H as [H1 H2]. rewrite H1, H2, Ha. auto.
    - rewrite H. exact Hc. }
  unfold cycle_try.
  destruct called as [resp|e]; [|apply Hcatch].
  destruct (routeDistanceKm resp) as [d|e]; [|apply Hcatch].
  repeat match goal with
         | |- context [if ?b then _ else _] => destruct b
         end; simpl; auto.
Qed.

End CyclingRetryBounds.

(** C1.  Whatever the routing call answers, with [maxRetries = N] the
    walking loop and the per-day cycling loop, run as machines that test
    [attempt < maxRetries] before every iteration, halt: any fuel above [N]
    is enough.  They halt on a returned response or a thrown error, the one
    the bounded [for] loop computes, having made at most [N] routing
    calls. *)
Theorem retry_loops_halt_within_maxRetries
        {rt : JsRuntime} {World : Type}
        (geoOracle : list Coord -> string -> World -> Completion ResponseData * World)
        (N extra : nat) (w : World) :
  (forall centerLat centerLng numPoints baseRadiusKm initialWaypoints,
      exists outcome s,
        run_loop (walk_test N)
                 (walk_body geoOracle centerLat centerLng numPoints N)
                 (walk_after N) (S N + extra)
                 (walk_init baseRadiusKm initialWaypoints w) = Some (outcome, s)
        /\ validateAndRetryRoute geoOracle centerLat centerLng numPoints baseRadiusKm
                                 initialWaypoints N w = (outcome, s)
        /\ (List.length (wl_calls s) <= N)%nat)
  /\
  (forall waypoints routeName,
      exists outcome s,
        run_loop (cycle_test N) (cycle_body geoOracle waypoints N)
                 (cycle_after routeName N) (S N + extra)
                 (cycle_init waypoints w) = Some (outcome, s)
        /\ generateCityRouteWithRetry geoOracle waypoints routeName N w = (outcome, s)
        /\ (List.length (cl_calls s) <= N)%nat).
Proof.
  split.
  - intros centerLat centerLng numPoints baseRadiusKm initialWaypoints.
    destruct (validateAndRetryRoute geoOracle centerLat centerLng numPoints baseRadiusKm
                                    initialWaypoints N w) as [outcome s] eqn:Hv.
    exists outcome, s. split; [|split; [reflexivity|]].
    + unfold walk_test.
      rewrite (run_loop_for_loop _ _ (@wl_attempt World) N _ (walk_after N)) with (k := N).
      * unfold validateAndRetryRoute in Hv. rewrite Hv. reflexivity.
      * intros a b Hb. apply walk_body_counts in Hb. tauto.
      * reflexivity.
      * lia.
    + unfold validateAndRetryRoute in Hv.
      pose proof (for_loop_size _ _
                    (walk_body geoOracle centerLat centerLng numPoints N) (walk_after N)
                    (fun s => List.length (wl_calls s))
                    (fun r => List.length (wl_calls (snd r)))) as Hsize.
      specialize (Hsize
                    (fun a b Hb => eq_ind_r (fun n => (n <= _)%nat) (le_n _)
                                     (proj2 (walk_body_counts _ _ _ _ _ _ _ Hb)))).
      assert (Hex : forall s0 r, walk_body geoOracle centerLat centerLng numPoints N s0 = inr r ->
                            (List.length (wl_calls (snd r)) <= S (List.length (wl_calls s0)))%nat).
      { intros s0 [out s'] Hb. apply walk_body_exits in Hb. simpl. lia. }
      specialize (Hsize Hex (fun s0 => le_n _) N (walk_init baseRadiusKm initialWaypoints w)).
      rewrite Hv in Hsize. simpl in Hsize. exact Hsize.
  - intros waypoints routeName.
    destruct (generateCityRouteWithRetry geoOracle waypoints routeName N w)
      as [outcome s] eqn:Hv.
    exists outcome, s. split; [|split; [reflexivity|]].
    + unfold cycle_test.
      rewrite (run_loop_for_loop _ _ (@cl_attempt World) N _ (cycle_after routeName N))
        with (k := N).
      * unfold generateCityRouteWithRetry in Hv. rewrite Hv. reflexivity.
      * intros a b Hb. pose proof (cycle_body_counts geoOracle waypoints N a) as H.
        rewrite Hb in H. tauto.
      * reflexivity.
      * lia.
    + unfold generateCityRouteWithRetry in Hv.
      pose proof (for_loop_size _ _
                    (cycle_body geoOracle waypoints N) (cycle_after routeName N)
                    (fun s => List.length (cl_calls s))
                    (fun r => List.length (cl_calls (snd r)))) as Hsize.
      assert (Hin : forall s0 s', cycle_body geoOracle waypoints N s0 = inl s' ->
                            (List.length (cl_calls s') <= S (List.length (cl_calls s0)))%nat).
      { intros s0 s' Hb. pose proof (cycle_body_counts geoOracle waypoints N s0) as H.
        rewrite Hb in H. lia. }
      assert (Hex : forall s0 r, cycle_body geoOracle waypoints N s0 = inr r ->
                            (List.length (cl_calls (snd r)) <= S (List.length (cl_calls s0)))%nat).
      { intros s0 [out s'] Hb. pose proof (cycle_body_counts geoOracle waypoints N s0) as H.
        rewrite Hb in H. simpl. lia. }
      specialize (Hsize Hin Hex (fun s0 => le_n _) N (cycle_init waypoints w)).
      rewrite Hv in Hsize. simpl in Hsize. exact Hsize.
Qed.

(** ** The ring of waypoints *)

Section RingFacts.
Context {rt : JsRuntime}.

Lemma numPointsFor_clamped (targetDistance : Q) :
  (6 <= numPointsFor targetDistance <= 10)%Z.
Proof. unfold numPointsFor. lia. Qed.

Lemma ringWaypoints_returns centerLat centerLng radiusDeg (numPoints : Z) :
  (0 < numPoints)%Z ->
  ringWaypoints centerLat centerLng radiusDeg numPoints
  = Returned (map (ringPoint centerLat centerLng radiusDeg numPoints)
                  (seq 0 (Z.to_nat numPoints))
              ++ [ringPoint centerLat centerLng radiusDeg numPoints 0]).
Proof.
  intros Hpos. unfold ringWaypoints.
  destruct (Z.to_nat numPoints) as [|n] eqn:Hn; [lia|].
  simpl. reflexivity.
Qed.

End RingFacts.

(** C7.  For every target distance the number of points is within [6, 10];
    the constructor returns [numPoints + 1] waypoints; the waypoint of index
    [i < numPoints] lies at angle [2 PI i / numPoints] on the circle of the
    current radius (in degrees, the radius over 111) around the centre; and
    the last waypoint is the first one again. *)
Theorem ring_waypoints_closed_circle
        {rt : JsRuntime} (targetDistance centerLat centerLng currentRadius : Q) :
  let numPoints := numPointsFor targetDistance in
  let radiusDeg := currentRadius / 111 in
  (6 <= numPoints <= 10)%Z
  /\ exists waypoints,
      ringWaypoints centerLat centerLng radiusDeg numPoints = Returned waypoints
      /\ List.length waypoints = S (Z.to_nat numPoints)
      /\ (forall i, (i < Z.to_nat numPoints)%nat ->
            let angle := (2 * Math_PI * inject_Z (Z.of_nat i)) / inject_Z numPoints in
            nth_error waypoints i
            = Some (centerLng + radiusDeg * Math_sin angle,
                    centerLat + radiusDeg * Math_cos angle))
      /\ nth_error waypoints (Z.to_nat numPoints) = nth_error waypoints 0
      /\ nth_error waypoints 0 <> None.
Proof.
  intros numPoints radiusDeg.
  pose proof (numPointsFor_clamped targetDistance) as Hclamp.
  fold numPoints in Hclamp. split; [exact Hclamp|].
  eexists. split; [apply ringWaypoints_returns; lia|].
  set (n := Z.to_nat numPoints).
  assert (Hn : (6 <= n)%nat) by (subst n; lia).
  set (pts := map (ringPoint centerLat centerLng radiusDeg numPoints) (seq 0 n)).
  assert (Hlen : List.length pts = n) by (subst pts; rewrite length_map, length_seq; reflexivity).
  assert (Hnth : forall i, (i < n)%nat ->
             nth_error pts i = Some (ringPoint centerLat centerLng radiusDeg numPoints i)).
  { intros i Hi. subst pts. rewrite nth_error_map.
    rewrite nth_error_seq. replace (i <? n)%nat with true; [reflexivity|].
    symmetry. apply Nat.ltb_lt. exact Hi. }
  repeat split.
  - rewrite length_app, Hlen. simpl. lia.
  - intros i Hi angle. rewrite nth_error_app1 by lia.
    rewrite (Hnth i Hi). reflexivity.
  - rewrite (nth_error_app1 _ _ (n := 0)) by lia. rewrite (Hnth 0%nat) by lia.
    rewrite nth_error_app2 by lia. rewrite Hlen, Nat.sub_diag. reflexivity.
  - rewrite nth_error_app1 by lia. rewrite (Hnth 0%nat) by lia. discriminate.
Qed.

Lemma ring_waypoints_closed_circle_witness :
  exists waypoints,
    ringWaypoints (rt := Approx.runtime) (lat sampleCenter) (lng sampleCenter)
                  (sampleRadius / 111) (numPointsFor 10)
    = Returned waypoints
    /\ List.length waypoints = 11%nat
    /\ nth_error waypoints 10 = nth_error waypoints 0.
Proof.
  destruct (ring_waypoints_closed_circle (rt := Approx.runtime) 10
              (lat sampleCenter) (lng sampleCenter) sampleRadius)
    as (_ & waypoints & Hring & Hlen & _ & Hlast & _).
  exists waypoints. split; [exact Hring|]. split; [exact Hlen|exact Hlast].
Defined.

(** ** One iteration of the walking loop *)

Section WalkingFacts.
Context {rt : JsRuntime} {World : Type}.
Variable geoOracle : list Coord -> string -> World -> Completion ResponseData * World.
Variables centerLat centerLng : Q.
Variable numPoints : Z.
Variable maxRetries : nat.
Hypothesis numPoints_pos : (0 < numPoints)%Z.

Local Abbreviation body := (walk_body geoOracle centerLat centerLng numPoints maxRetries).

Lemma walk_body_ideal s resp w1 (d : Q) :
  geoOracle (wl_waypoints s) "foot-walking" (wl_world s) = (Returned resp, w1) ->
  routeDistanceKm resp = Returned (Num d) ->
  5 <= d /\ d <= 15 ->
  body s = inr (Returned resp, called s w1).
Proof.
  intros Ho Hd Hband. unfold walk_body, walk_try. rewrite Ho, Hd.
  cbn [numGeb numLeb]. apply ideal_band_iff in Hband. rewrite Hband. reflexivity.
Qed.

Lemma walk_body_too_long s resp w1 (d : Q) :
  geoOracle (wl_waypoints s) "foot-walking" (wl_world s) = (Returned resp, w1) ->
  routeDistanceKm resp = Returned (Num d) ->
  15 < d ->
  body s = inl (mkWalkLoop (S (wl_attempt s)) (ringAt centerLat centerLng numPoints (wl_radius s * (8 # 10)))
                           (wl_radius s * (8 # 10)) w1
                           (wl_calls s ++ [mkCall (wl_waypoints s) "foot-walking"])).
Proof.
  intros Ho Hd Hlong. unfold walk_body, walk_try, walk_regenerate. rewrite Ho, Hd.
  cbn [numGeb numLeb numGtb numLtb].
  replace (Qgeb d 5 && Qleb d 15) with false.
  2:{ symmetry. apply andb_false_iff. right. apply Qleb_gt. exact Hlong. }
  apply Qgtb_lt in Hlong. rewrite Hlong.
  rewrite ringWaypoints_returns by exact numPoints_pos. reflexivity.
Qed.

Lemma walk_body_too_short s resp w1 (d : Q) :
  geoOracle (wl_waypoints s) "foot-walking" (wl_world s) = (Returned resp, w1) ->
  routeDistanceKm resp = Returned (Num d) ->
  d < 5 ->
  body s = inl (mkWalkLoop (S (wl_attempt s)) (ringAt centerLat centerLng numPoints (wl_radius s * (13 # 10)))
                           (wl_radius s * (13 # 10)) w1
                           (wl_calls s ++ [mkCall (wl_waypoints s) "foot-walking"])).
Proof.
  intros Ho Hd Hshort. unfold walk_body, walk_try, walk_regenerate. rewrite Ho, Hd.
  cbn [numGeb numLeb numGtb numLtb].
  replace (Qgeb d 5 && Qleb d 15) with false.
  2:{ symmetry. apply andb_false_iff. left. unfold Qgeb. apply Qleb_gt. exact Hshort. }
  replace (Qgtb d 15) with false.
  2:{ symmetry. unfold Qgtb. apply Qltb_ge. apply Qlt_le_weak.
      apply Qlt_trans with 5; [exact Hshort|reflexivity]. }
  apply Qltb_lt in Hshort. rewrite Hshort.
  rewrite ringWaypoints_returns by exact numPoints_pos. reflexivity.
Qed.

Lemma walk_body_thrown s e w1 :
  geoOracle (wl_waypoints s) "foot-walking" (wl_world s) = (Thrown e, w1) ->
  body s = if wl_attempt s =? maxRetries - 1
           then inr (Thrown e, called s w1)
           else inl (walk_next (called s w1)).
Proof.
  intros Ho. unfold walk_body, walk_try. rewrite Ho. reflexivity.
Qed.

(** A response whose measured distance is [NaN] fails the three tests of
    the loop and is returned by the last [else]. *)
Lemma walk_body_not_a_number s resp w1 :
  geoOracle (wl_waypoints s) "foot-walking" (wl_world s) = (Returned resp, w1) ->
  routeDistanceKm resp = Returned NaN ->
  body s = inr (Returned resp, called s w1).
Proof.
  intros Ho Hd. unfold walk_body, walk_try. rewrite Ho, Hd. reflexivity.
Qed.

(** The loop body leaves the function with a response only when that
    response measures within the ideal band, or measures [NaN]. *)
Lemma walk_body_returns_ideal s resp s' :
  body s = inr (Returned resp, s') ->
  routeDistanceKm resp = Returned NaN
  \/ exists d, routeDistanceKm resp = Returned (Num d) /\ 5 <= d /\ d <= 15.
Proof.
  unfold walk_body, walk_try, walk_regenerate.
  destruct (geoOracle _ _ _) as [[resp0|e] w1]; simpl.
  - destruct (routeDistanceKm resp0) as [[d|]|e] eqn:Hd; simpl.
    + destruct (Qgeb d 5 && Qleb d 15) eqn:Hband.
      * intros H; inversion H; subst. right. exists d. split; [exact Hd|].
        apply ideal_band_iff. exact Hband.
      * destruct (Qgtb d 15) eqn:Hlong.
        { destruct (ringWaypoints _ _ _ _); [discriminate|].
          destruct (_ =? _); discriminate. }
        destruct (Qltb d 5) eqn:Hshort.
        { destruct (ringWaypoints _ _ _ _); [discriminate|].
          destruct (_ =? _); discriminate. }
        exfalso. apply andb_false_iff in Hband.
        unfold Qgtb in Hlong. apply Qltb_ge in Hlong. apply Qltb_ge in Hshort.
        destruct Hband as [Hb|Hb].
        -- unfold Qgeb in Hb. apply Qleb_gt in Hb.
           exact (Qlt_not_le _ _ Hb Hshort).
        -- apply Qleb_gt in Hb. exact (Qlt_not_le _ _ Hb Hlong).
    + intros H; inversion H; subst. left. exact Hd.
    + destruct (_ =? _); discriminate.
  - destruct (_ =? _); discriminate.
Qed.

Lemma walk_loop_returns_ideal (k : nat) :
  forall s resp s',
    for_loop body (walk_after maxRetries) k s = (Returned resp, s') ->
    routeDistanceKm resp = Returned NaN
    \/ exists d, routeDistanceKm resp = Returned (Num d) /\ 5 <= d /\ d <= 15.
Proof.
  induction k as [|k IH]; intros s resp s'; simpl.
  - unfold walk_after. discriminate.
  - destruct (body s) as [s1|[out s1]] eqn:Hb.
    + apply IH.
    + intros H; inversion H; subst.
      apply walk_body_returns_ideal in Hb. exact Hb.
Qed.

End WalkingFacts.

(** ** What the walking search returns *)

Lemma routeDistanceKm_head (feature : Feature) (rest : list Feature) :
  routeDistanceKm (mkData (feature :: rest))
  = Returned (numDiv (sumDistance (segments feature)) 1000).
Proof. reflexivity. Qed.

(** A sum that has reached [NaN] stays [NaN], and a segment without the
    field makes the sum [NaN]. *)
Lemma sum_from_NaN (field : Segment -> JsNumber) (segs : list Segment) :
  fold_left (fun sum segment => numAdd sum (field segment)) segs NaN = NaN.
Proof. induction segs as [|seg rest IH]; [reflexivity|exact IH]. Qed.

Lemma sum_with_missing_field (field : Segment -> JsNumber) (segs : list Segment) :
  forall acc segment,
    In segment segs -> field segment = NaN ->
    fold_left (fun sum segment => numAdd sum (field segment)) segs acc = NaN.
Proof.
  induction segs as [|seg rest IH]; intros acc segment Hin Hmissing; [contradiction|].
  cbn [fold_left]. destruct Hin as [Heq|Hin].
  - subst seg. rewrite Hmissing. destruct acc; apply sum_from_NaN.
  - apply (IH _ segment); assumption.
Qed.

(** The route [generateWalkingRoute] returns reports the distance the loop
    measured on the response it returned: a distance within the ideal band
    [5, 15], or [NaN]. *)
Lemma generateWalkingRoute_distance
      {rt : JsRuntime} {World : Type}
      (geoOracle : list Coord -> string -> World -> Completion ResponseData * World)
      (geocoded : Completion (option LatLng)) (w w' : World) (route : Route) :
  generateWalkingRoute geoOracle geocoded w = (Returned route, w') ->
  route_distance route = NaN \/ numWithin (route_distance route) 5 15.
Proof.
  intros Hreturned. unfold generateWalkingRoute in Hreturned.
  destruct geocoded as [[center|]|e]; try discriminate Hreturned.
  destruct (ringWaypoints _ _ _ _) as [waypoints|e]; try discriminate Hreturned.
  destruct (validateAndRetryRoute _ _ _ _ _ _ _ _) as [[response|e] s] eqn:Hloop;
    try discriminate Hreturned.
  unfold validateAndRetryRoute in Hloop. apply walk_loop_returns_ideal in Hloop.
  assert (Hroute : routeDistanceKm response = Returned (route_distance route)).
  { destruct response as [[|feature rest]].
    - destruct Hloop as [Hd|(d & Hd & _)]; discriminate Hd.
    - rewrite routeDistanceKm_head.
      unfold assembleWalkingRoute in Hreturned. cbn [features] in Hreturned.
      destruct (numLtb _ 3); [discriminate Hreturned|].
      destruct (numGtb _ 20); [discriminate Hreturned|].
      destruct (firstPoint (coordinates feature)); [|discriminate Hreturned].
      destruct (lastPoint (coordinates feature)); [|discriminate Hreturned].
      inversion Hreturned; subst. reflexivity. }
  destruct Hloop as [Hd|(d & Hd & Hband)]; rewrite Hd in Hroute;
    inversion Hroute as [Heq].
  - left. reflexivity.
  - right. exact Hband.
Qed.

(** C10 fails on the code.  When the first response of the provider has a
    segment without [distance] (and a geometry), the measured distance is
    [NaN]; the tests [>= 5 && <= 15], [> 15] and [< 5] of the loop are all
    false, the last [else] returns the response at the first attempt, the
    tests [< 3] and [> 20] of the final validation are false as well, and
    [generateWalkingRoute] returns a route whose distance is [NaN], outside
    the ideal band. *)
Theorem walking_route_without_distance_is_returned
        {rt : JsRuntime} {World : Type}
        (geoOracle : list Coord -> string -> World -> Completion ResponseData * World)
        (center : LatLng) (w w1 : World)
        (response : ResponseData) (feature : Feature) (rest : list Feature)
        (segment : Segment)
        (Hcall : geoOracle (ringAt (lat center) (lng center)
                                   (numPointsFor walkingTargetDistance)
                                   (baseRadiusKmFor walkingTargetDistance))
                           "foot-walking"%string w
                 = (Returned response, w1))
        (Hfeature : features response = feature :: rest)
        (Hsegment : In segment (segments feature))
        (Hmissing : distance segment = NaN)
        (Hgeometry : coordinates feature <> []) :
  exists route s,
    validateAndRetryRoute geoOracle (lat center) (lng center)
                          (numPointsFor walkingTargetDistance)
                          (baseRadiusKmFor walkingTargetDistance)
                          (ringAt (lat center) (lng center)
                                  (numPointsFor walkingTargetDistance)
                                  (baseRadiusKmFor walkingTargetDistance)) 8 w
    = (Returned response, s)
    /\ wl_attempt s = 0%nat
    /\ generateWalkingRoute geoOracle (Returned (Some center)) w = (Returned route, w1)
    /\ route_distance route = NaN
    /\ ~ numWithin (route_distance route) 5 15.
Proof.
  assert (Hn : (0 < numPointsFor walkingTargetDistance)%Z)
    by (pose proof (numPointsFor_clamped walkingTargetDistance); lia).
  assert (Hsum : sumDistance (segments feature) = NaN)
    by (exact (sum_with_missing_field distance _ _ _ Hsegment Hmissing)).
  assert (Hd : routeDistanceKm response = Returned NaN).
  { unfold routeDistanceKm. rewrite Hfeature, Hsum. reflexivity. }
  set (ring := ringAt (lat center) (lng center) (numPointsFor walkingTargetDistance)
                      (baseRadiusKmFor walkingTargetDistance)) in *.
  assert (Hloop : validateAndRetryRoute geoOracle (lat center) (lng center)
                    (numPointsFor walkingTargetDistance)
                    (baseRadiusKmFor walkingTargetDistance) ring 8 w
                  = (Returned response,
                     called (walk_init (baseRadiusKmFor walkingTargetDistance) ring w) w1)).
  { unfold validateAndRetryRoute. cbn [for_loop].
    rewrite (walk_body_not_a_number geoOracle (lat center) (lng center)
               (numPointsFor walkingTargetDistance) 8
               (walk_init (baseRadiusKmFor walkingTargetDistance) ring w)
               response w1 Hcall Hd).
    reflexivity. }
  assert (Hpoints : exists start finish,
             firstPoint (coordinates feature) = Returned start
             /\ lastPoint (coordinates feature) = Returned finish).
  { unfold firstPoint, lastPoint.
    destruct (coordinates feature) as [|c cs] eqn:Hcs; [contradiction|].
    destruct (rev (c :: cs)) as [|c' cs'] eqn:Hrev.
    - apply (f_equal (@List.length Coord)) in Hrev. rewrite length_rev in Hrev.
      discriminate Hrev.
    - eexists. eexists. split; reflexivity. }
  destruct Hpoints as (start & finish & Hfirst & Hlast).
  eexists. eexists. split; [exact Hloop|]. split; [reflexivity|].
  split.
  - unfold generateWalkingRoute.
    rewrite ringWaypoints_returns by exact Hn.
    fold (ringAt (lat center) (lng center) (numPointsFor walkingTargetDistance)
                 (baseRadiusKmFor walkingTargetDistance)).
    fold ring. rewrite Hloop. cbn [wl_world called].
    unfold assembleWalkingRoute. rewrite Hfeature, Hsum, Hfirst, Hlast.
    cbn [numDiv numLtb numGtb]. reflexivity.
  - split; [reflexivity|]. intros Hwithin. exact Hwithin.
Qed.

(** ** Exhaustion of the walking search *)

Section WalkingExhaustion.
Context {rt : JsRuntime} {World : Type}.
Variable geoOracle : list Coord -> string -> World -> Completion ResponseData * World.
Variables centerLat centerLng : Q.
Variable numPoints : Z.
Variable maxRetries : nat.
Hypothesis numPoints_pos : (0 < numPoints)%Z.
Hypothesis always_short :
  forall waypoints w, exists response w1 d,
      geoOracle waypoints "foot-walking" w = (Returned response, w1)
      /\ routeDistanceKm response = Returned (Num d) /\ d < 5.

Lemma walk_loop_all_short (k : nat) :
  forall s, exists s',
      for_loop (walk_body geoOracle centerLat centerLng numPoints maxRetries)
               (walk_after maxRetries) k s
      = (Thrown (newError ("Failed to generate acceptable route after "
                           ++ showNat maxRetries ++ " attempts")), s')
      /\ List.length (wl_calls s') = (List.length (wl_calls s) + k)%nat.
Proof.
  induction k as [|k IH]; intros s; simpl.
  - exists s. split; [reflexivity|lia].
  - destruct (always_short (wl_waypoints s) (wl_world s)) as (resp & w1 & d & Ho & Hd & Hlt).
    rewrite (walk_body_too_short _ _ _ _ _ numPoints_pos _ _ _ _ Ho Hd Hlt).
    match goal with |- context [for_loop _ _ k ?s1] => destruct (IH s1) as (s' & Hs' & Hlen) end.
    exists s'. split; [exact Hs'|].
    rewrite Hlen. simpl. rewrite length_app. simpl. lia.
Qed.

End WalkingExhaustion.

(** C5, as the code behaves.  When every response of the provider measures
    2 km, [validateAndRetryRoute] makes exactly [maxRetries] routing calls
    and throws an error whose message is the fixed text with the number of
    attempts; no measured distance is part of it. *)
Theorem walking_exhaustion_throws_bare_error
        {rt : JsRuntime} {World : Type}
        (geoOracle : list Coord -> string -> World -> Completion ResponseData * World)
        (centerLat centerLng baseRadiusKm : Q) (numPoints : Z)
        (initialWaypoints : list Coord) (maxRetries : nat) (w : World)
        (Hpoints : (0 < numPoints)%Z)
        (Htwo : forall waypoints w0, exists response w1 d,
              geoOracle waypoints "foot-walking"%string w0 = (Returned response, w1)
              /\ routeDistanceKm response = Returned (Num d) /\ d == 2) :
  exists s,
    validateAndRetryRoute geoOracle centerLat centerLng numPoints baseRadiusKm
                          initialWaypoints maxRetries w
    = (Thrown (mkError ("Failed to generate acceptable route after "
                        ++ showNat maxRetries ++ " attempts") None), s)
    /\ List.length (wl_calls s) = maxRetries.
Proof.
  unfold validateAndRetryRoute.
  destruct (walk_loop_all_short geoOracle centerLat centerLng numPoints maxRetries Hpoints)
    with (k := maxRetries) (s := walk_init baseRadiusKm initialWaypoints w)
    as (s' & Hs' & Hlen).
  - intros waypoints w0. destruct (Htwo waypoints w0) as (resp & w1 & d & Ho & Hd & Heq).
    exists resp, w1, d. repeat split; try assumption. rewrite Heq. reflexivity.
  - exists s'. split; [exact Hs'|]. rewrite Hlen. reflexivity.
Qed.

(** ** Scenario: shrinking convergence *)

(** C6.  Against the provider that measures 18 km, 16 km and 13 km, the
    walking loop shrinks the radius by 0.8 after each of the first two
    attempts (too long), returns the third response at the third attempt,
    and the route reports 13 km. *)
Theorem walking_converges_at_third_attempt {rt : JsRuntime} (center : LatLng) :
  let r0 := baseRadiusKmFor walkingTargetDistance in
  let n := numPointsFor walkingTargetDistance in
  let ring := ringAt (lat center) (lng center) n in
  exists s route,
    validateAndRetryRoute shrinkingProvider (lat center) (lng center) n r0 (ring r0) 8 0%nat
    = (Returned (measuring 13 (13 * 720) (ring (r0 * (8 # 10) * (8 # 10)))), s)
    /\ wl_attempt s = 2%nat
    /\ wl_radius s = r0 * (8 # 10) * (8 # 10)
    /\ map call_waypoints (wl_calls s)
       = [ring r0; ring (r0 * (8 # 10)); ring (r0 * (8 # 10) * (8 # 10))]
    /\ generateWalkingRoute shrinkingProvider (Returned (Some center)) 0%nat
       = (Returned route, 3%nat)
    /\ numIs (route_distance route) 13.
Proof.
  intros r0 n ring.
  assert (Hn : (0 < n)%Z) by (subst n; pose proof (numPointsFor_clamped walkingTargetDistance); lia).
  set (s1 := mkWalkLoop 1 (ring (r0 * (8 # 10))) (r0 * (8 # 10)) 1%nat
                        [mkCall (ring r0) "foot-walking"]).
  set (s2 := mkWalkLoop 2 (ring (r0 * (8 # 10) * (8 # 10))) (r0 * (8 # 10) * (8 # 10)) 2%nat
                        [mkCall (ring r0) "foot-walking";
                         mkCall (ring (r0 * (8 # 10))) "foot-walking"]).
  assert (H1 : walk_body shrinkingProvider (lat center) (lng center) n 8
                         (walk_init r0 (ring r0) 0%nat) = inl s1).
  { erewrite walk_body_too_long; [reflexivity|exact Hn|reflexivity|reflexivity|reflexivity]. }
  assert (H2 : walk_body shrinkingProvider (lat center) (lng center) n 8 s1 = inl s2).
  { erewrite walk_body_too_long; [reflexivity|exact Hn|reflexivity|reflexivity|reflexivity]. }
  assert (H3 : walk_body shrinkingProvider (lat center) (lng center) n 8 s2
               = inr (Returned (measuring 13 (13 * 720) (ring (r0 * (8 # 10) * (8 # 10)))),
                      called s2 3%nat)).
  { erewrite walk_body_ideal; [reflexivity|reflexivity|reflexivity|].
    split; discriminate. }
  assert (Hloop : validateAndRetryRoute shrinkingProvider (lat center) (lng center) n r0
                                        (ring r0) 8 0%nat
                  = (Returned (measuring 13 (13 * 720) (ring (r0 * (8 # 10) * (8 # 10)))),
                     called s2 3%nat)).
  { unfold validateAndRetryRoute. cbn [for_loop]. rewrite H1. cbn [for_loop].
    rewrite H2. cbn [for_loop]. rewrite H3. reflexivity. }
  eexists. eexists. split; [exact Hloop|].
  split; [reflexivity|]. split; [reflexivity|]. split; [reflexivity|].
  split.
  - unfold generateWalkingRoute.
    fold r0. fold n. rewrite ringWaypoints_returns by exact Hn.
    fold (ringAt (lat center) (lng center) n r0). fold ring.
    rewrite Hloop. reflexivity.
  - reflexivity.
Qed.

(** ** Concrete runs *)

Lemma walking_route_without_distance_is_returned_witness :
  exists route,
    generateWalkingRoute (rt := Approx.runtime)
                         (scripted (fun _ waypoints _ => Returned (unmeasured 7200 waypoints)))
                         (Returned (Some sampleCenter)) 0%nat
    = (Returned route, 1%nat)
    /\ route_distance route = NaN.
Proof.
  destruct (walking_route_without_distance_is_returned (rt := Approx.runtime)
              (scripted (fun _ waypoints _ => Returned (unmeasured 7200 waypoints)))
              sampleCenter 0%nat 1%nat
              (unmeasured 7200 (sampleRing sampleRadius))
              (mkFeature [mkSegment NaN (Num 7200) None] None (sampleRing sampleRadius))
              [] (mkSegment NaN (Num 7200) None))
    as (route & s & _ & _ & Hroute & Hdistance & _).
  - reflexivity.
  - reflexivity.
  - left. reflexivity.
  - reflexivity.
  - vm_compute. discriminate.
  - exists route. split; [exact Hroute|exact Hdistance].
Defined.

Lemma walking_exhaustion_throws_bare_error_witness :
  exists s,
    validateAndRetryRoute (rt := Approx.runtime) (constantProvider 2)
                          (lat sampleCenter) (lng sampleCenter)
                          (numPointsFor walkingTargetDistance) sampleRadius
                          (sampleRing sampleRadius) 8 0%nat
    = (Thrown (mkError "Failed to generate acceptable route after 8 attempts" None), s)
    /\ List.length (wl_calls s) = 8%nat.
Proof.
  apply (walking_exhaustion_throws_bare_error (rt := Approx.runtime) (constantProvider 2)
           (lat sampleCenter) (lng sampleCenter) sampleRadius
           (numPointsFor walkingTargetDistance) (sampleRing sampleRadius) 8 0%nat).
  - reflexivity.
  - intros waypoints w0.
    exists (measuring 2 (2 * 720) waypoints), (S w0), ((0 + 2 * 1000) / 1000).
    split; [reflexivity|]. split; reflexivity.
Defined.

(** The branch of the final validation that reports the best distance, run
    on a 2 km response; the retry loop never hands it such a response. *)
Example final_validation_reports_best_distance (waypoints : list Coord) :
  assembleWalkingRoute (measuring 2 1440 waypoints)
  = Thrown (newError "Unable to generate a walking route for this location. The best possible route is 2.00km. Please try a different city or location with more road networks.").
Proof. vm_compute. reflexivity. Qed.

(** The whole of [generateWalkingRoute] on the exhausted search of C5. *)
Example generateWalkingRoute_exhausted :
  generateWalkingRoute (rt := Approx.runtime) (constantProvider 2)
                       (Returned (Some sampleCenter)) 0%nat
  = (Thrown (mkError "Failed to generate acceptable route after 8 attempts" None), 8%nat).
Proof. vm_compute. reflexivity. Qed.

(** ** Candidates outside the ideal band *)

(** One iteration of the cycling loop on a response within its band. *)
Lemma cycle_body_in_band
      {rt : JsRuntime} {World : Type}
      (geoOracle : list Coord -> string -> World -> Completion ResponseData * World)
      (waypoints : Coord * Coord) (maxRetries : nat) (s : CycleLoop World)
      (response : ResponseData) (w1 : World) (d : Q) :
  geoOracle (pairList (cl_waypoints s)) (cl_profile s) (cl_world s) = (Returned response, w1) ->
  routeDistanceKm response = Returned (Num d) ->
  5 <= d /\ d <= 60 ->
  cycle_body geoOracle waypoints maxRetries s
  = inr (Returned (response, Num d),
         mkCycleLoop (cl_attempt s) (cl_waypoints s) (cl_profile s) w1
                     (cl_calls s ++ [mkCall (pairList (cl_waypoints s)) (cl_profile s)])).
Proof.
  intros Ho Hd [Hlo Hhi]. unfold cycle_body, cycle_try. rewrite Ho, Hd.
  cbn [numGeb numLeb].
  replace (Qgeb d 5 && Qleb d 60) with true; [reflexivity|].
  symmetry. apply andb_true_iff. split; [apply Qgeb_le|apply Qleb_le]; assumption.
Qed.

(** C4, as the code behaves.  A walking candidate measured inside the
    acceptable range (3, 20) but outside the ideal band [5, 15] is not
    returned: the loop multiplies the radius by 0.8 when the candidate is
    above 15 km and by 1.3 when it is below 5 km, regenerates the ring at
    that radius and goes on to the next attempt.  The cycling loop has a
    single band: a candidate measured within [5, 60] is returned at once. *)
Theorem candidate_outside_ideal_band_is_retried
        {rt : JsRuntime} {World : Type}
        (geoOracle : list Coord -> string -> World -> Completion ResponseData * World)
        (centerLat centerLng : Q) (numPoints : Z) (maxRetries : nat)
        (s : WalkLoop World) (response : ResponseData) (w1 : World) (d : Q)
        (Hpoints : (0 < numPoints)%Z)
        (Hcall : geoOracle (wl_waypoints s) "foot-walking"%string (wl_world s)
                 = (Returned response, w1))
        (Hmeasured : routeDistanceKm response = Returned (Num d))
        (Hacceptable : 3 < d /\ d < 20)
        (Hnot_ideal : ~ (5 <= d /\ d <= 15)) :
  (exists factor,
      (15 < d /\ factor = 8 # 10 \/ d < 5 /\ factor = 13 # 10)
      /\ walk_body geoOracle centerLat centerLng numPoints maxRetries s
         = inl (mkWalkLoop (S (wl_attempt s))
                           (ringAt centerLat centerLng numPoints (wl_radius s * factor))
                           (wl_radius s * factor) w1
                           (wl_calls s ++ [mkCall (wl_waypoints s) "foot-walking"])))
  /\ (forall (waypoints : Coord * Coord) (c : CycleLoop World) (response' : ResponseData)
             (w1' : World) (d' : Q),
         geoOracle (pairList (cl_waypoints c)) (cl_profile c) (cl_world c)
         = (Returned response', w1') ->
         routeDistanceKm response' = Returned (Num d') ->
         5 <= d' /\ d' <= 60 ->
         exists c', cycle_body geoOracle waypoints maxRetries c
                    = inr (Returned (response', Num d'), c')).
Proof.
  split.
  - destruct (Qlt_le_dec 15 d) as [Hlong|Hle].
    + exists (8 # 10). split; [left; split; [exact Hlong|reflexivity]|].
      exact (walk_body_too_long _ _ _ _ _ Hpoints _ _ _ _ Hcall Hmeasured Hlong).
    + destruct (Qlt_le_dec d 5) as [Hshort|Hge].
      * exists (13 # 10). split; [right; split; [exact Hshort|reflexivity]|].
        exact (walk_body_too_short _ _ _ _ _ Hpoints _ _ _ _ Hcall Hmeasured Hshort).
      * exfalso. apply Hnot_ideal. split; assumption.
  - intros waypoints c response' w1' d' Ho Hd Hband.
    eexists. exact (cycle_body_in_band _ _ _ _ _ _ _ Ho Hd Hband).
Qed.

Lemma candidate_outside_ideal_band_is_retried_witness :
  exists s',
    walk_body (rt := Approx.runtime) settlingProvider (lat sampleCenter) (lng sampleCenter)
              (numPointsFor walkingTargetDistance) 8
              (walk_init sampleRadius (sampleRing sampleRadius) 0%nat)
    = inl s'
    /\ wl_attempt s' = 1%nat
    /\ wl_radius s' = sampleRadius * (8 # 10).
Proof.
  destruct (candidate_outside_ideal_band_is_retried
              (rt := Approx.runtime) settlingProvider (lat sampleCenter) (lng sampleCenter)
              (numPointsFor walkingTargetDistance) 8
              (walk_init sampleRadius (sampleRing sampleRadius) 0%nat)
              (measuring 18 (18 * 720) (sampleRing sampleRadius)) 1%nat
              ((0 + 18 * 1000) / 1000))
    as [(factor & [[_ Hf]|[Hshort _]] & Hbody) _].
  - reflexivity.
  - reflexivity.
  - reflexivity.
  - split; reflexivity.
  - intros [_ Hhi]. revert Hhi. vm_compute. intros Hhi. apply Hhi. reflexivity.
  - subst factor. eexists. split; [exact Hbody|]. split; reflexivity.
  - exfalso. revert Hshort. vm_compute. discriminate.
Defined.

(** C4 as stated fails: the first candidate measures 18 km, inside (3, 20)
    and outside [5, 15]; the search does not return it but makes a second
    routing call and returns the 10 km response of that call. *)
Lemma acceptable_candidate_is_not_returned :
  let first := measuring 18 (18 * 720) (sampleRing sampleRadius) in
  fst (settlingProvider (sampleRing sampleRadius) "foot-walking"%string 0%nat) = Returned first
  /\ (exists d, routeDistanceKm first = Returned (Num d)
                /\ 3 < d /\ d < 20 /\ ~ (5 <= d /\ d <= 15))
  /\ exists response s d,
      validateAndRetryRoute (rt := Approx.runtime) settlingProvider
                            (lat sampleCenter) (lng sampleCenter)
                            (numPointsFor walkingTargetDistance) sampleRadius
                            (sampleRing sampleRadius) 8 0%nat
      = (Returned response, s)
      /\ List.length (wl_calls s) = 2%nat
      /\ routeDistanceKm response = Returned (Num d)
      /\ d == 10.
Proof.
  intros first. split; [reflexivity|]. split.
  - exists ((0 + 18 * 1000) / 1000). split; [reflexivity|].
    split; [reflexivity|]. split; [reflexivity|].
    intros [_ Hhi]. revert Hhi. vm_compute. intros Hhi. apply Hhi. reflexivity.
  - assert (Hrun : exists s,
               validateAndRetryRoute (rt := Approx.runtime) settlingProvider
                                     (lat sampleCenter) (lng sampleCenter)
                                     (numPointsFor walkingTargetDistance) sampleRadius
                                     (sampleRing sampleRadius) 8 0%nat
               = (Returned (measuring 10 (10 * 720) (sampleRing (sampleRadius * (8 # 10)))), s)
               /\ List.length (wl_calls s) = 2%nat).
    { vm_compute. eexists. split; reflexivity. }
    destruct Hrun as (s & Hrun & Hlen).
    exists (measuring 10 (10 * 720) (sampleRing (sampleRadius * (8 # 10)))), s,
      ((0 + 10 * 1000) / 1000).
    split; [exact Hrun|]. split; [exact Hlen|]. split; reflexivity.
Qed.

(** ** What the cycling search returns *)

Section CyclingFacts.
Context {rt : JsRuntime} {World : Type}.
Variable geoOracle : list Coord -> string -> World -> Completion ResponseData * World.
Variable waypoints : Coord * Coord.
Variable maxRetries : nat.

Lemma cycle_catch_never_returns apiError (s : CycleLoop World) result s' :
  cycle_catch waypoints maxRetries apiError s <> inr (Returned result, s').
Proof.
  unfold cycle_catch.
  repeat match goal with
         | |- context [if ?b then _ else _] => destruct b
         end; discriminate.
Qed.

Lemma cycle_body_returns_measured (s : CycleLoop World) response d s' :
  cycle_body geoOracle waypoints maxRetries s = inr (Returned (response, d), s') ->
  routeDistanceKm response = Returned d.
Proof.
  unfold cycle_body, cycle_try.
  destruct (geoOracle _ _ _) as [[resp0|e] w1].
  - destruct (routeDistanceKm resp0) as [d0|e] eqn:Hd.
    + repeat match goal with
             | |- context [if ?b then _ else _] => destruct b
             end;
        intros H; inversion H; subst; exact Hd.
    + intros H. apply cycle_catch_never_returns in H. contradiction.
  - intros H. apply cycle_catch_never_returns in H. contradiction.
Qed.

Lemma cycle_loop_returns_measured routeName (k : nat) :
  forall (s : CycleLoop World) response d s',
    for_loop (cycle_body geoOracle waypoints maxRetries) (cycle_after routeName maxRetries) k s
    = (Returned (response, d), s') ->
    routeDistanceKm response = Returned d.
Proof.
  induction k as [|k IH]; intros s response d s'; simpl.
  - unfold cycle_after. discriminate.
  - destruct (cycle_body geoOracle waypoints maxRetries s) as [s1|[out s1]] eqn:Hb.
    + apply IH.
    + intros H; inversion H; subst.
      apply cycle_body_returns_measured in Hb. exact Hb.
Qed.

End CyclingFacts.

(** *** Sums over the segments *)

Lemma numSame_refl (x : JsNumber) : numSame x x.
Proof. destruct x; simpl; [reflexivity|exact I]. Qed.

Lemma numSame_sym (x y : JsNumber) : numSame x y -> numSame y x.
Proof. destruct x, y; simpl; auto. intros H. symmetry. exact H. Qed.

Lemma numSame_trans (x y z : JsNumber) : numSame x y -> numSame y z -> numSame x z.
Proof.
  destruct x, y, z; simpl; auto; try contradiction.
  intros H1 H2. rewrite H1. exact H2.
Qed.

Lemma numAdd_same (x x' y y' : JsNumber) :
  numSame x x' -> numSame y y' -> numSame (numAdd x y) (numAdd x' y').
Proof.
  destruct x, x', y, y'; simpl; auto; try contradiction.
  intros H1 H2. rewrite H1, H2. reflexivity.
Qed.

Lemma numDiv_same (x x' : JsNumber) (c : Q) :
  numSame x x' -> numSame (numDiv x c) (numDiv x' c).
Proof.
  destruct x, x'; simpl; auto. intros H. rewrite H. reflexivity.
Qed.

Lemma numMul_same (x x' : JsNumber) (c : Q) :
  numSame x x' -> numSame (numMul x c) (numMul x' c).
Proof.
  destruct x, x'; simpl; auto. intros H. rewrite H. reflexivity.
Qed.

Lemma numLtb_below (x : JsNumber) (c : Q) : numLtb x c = true <-> numBelow x c.
Proof. destruct x; simpl; [apply Qltb_lt|split; [discriminate|contradiction]]. Qed.

Lemma numGtb_exceeds (x : JsNumber) (c : Q) : numGtb x c = true <-> numExceeds x c.
Proof. destruct x; simpl; [apply Qgtb_lt|split; [discriminate|contradiction]]. Qed.

Lemma numBelow_same (x x' : JsNumber) (c : Q) :
  numSame x x' -> (numBelow x c <-> numBelow x' c).
Proof.
  destruct x, x'; simpl; try tauto. intros H. rewrite H. tauto.
Qed.

Lemma numExceeds_same (x x' : JsNumber) (c : Q) :
  numSame x x' -> (numExceeds x c <-> numExceeds x' c).
Proof.
  destruct x, x'; simpl; try tauto. intros H. rewrite H. tauto.
Qed.

(** The [reduce] of the source, which adds from the left starting at 0,
    computes the total of the field over the segments. *)
Lemma reduce_providerTotal (field : Segment -> JsNumber) (segs : list Segment) :
  forall acc,
    numSame (fold_left (fun sum segment => numAdd sum (field segment)) segs acc)
            (numAdd acc (providerTotal field segs)).
Proof.
  induction segs as [|seg rest IH]; intros acc; cbn [fold_left providerTotal].
  - destruct acc; simpl; [ring|exact I].
  - eapply numSame_trans; [apply IH|].
    destruct acc, (field seg), (providerTotal field rest); simpl; try exact I. ring.
Qed.

Lemma sumDistance_providerTotal (segs : list Segment) :
  numSame (sumDistance segs) (providerTotal distance segs).
Proof.
  eapply numSame_trans; [exact (reduce_providerTotal distance segs (Num 0))|].
  destruct (providerTotal distance segs); simpl; [ring|exact I].
Qed.

Lemma sumDuration_providerTotal (segs : list Segment) :
  numSame (sumDuration segs) (providerTotal duration segs).
Proof.
  eapply numSame_trans; [exact (reduce_providerTotal duration segs (Num 0))|].
  destruct (providerTotal duration segs); simpl; [ring|exact I].
Qed.

(** C9.  A route returned by [generateCyclingRoute] is assembled from the
    first features [day1] and [day2] of the two responses the per-day loops
    returned.  Its distance is the total of the distances of their segments,
    in kilometres.  If the total of the durations of their segments,
    converted to minutes, is below 10 while that distance exceeds 20 km, the
    route's [estimatedDuration] is [(distance / 20) * 60]; otherwise it is
    that total of the durations converted to minutes. *)
Theorem cycling_duration_rule
        {rt : JsRuntime} {World : Type}
        (geoOracle : list Coord -> string -> World -> Completion ResponseData * World)
        (geocoded : Completion (option LatLng)) (r : Draws) (w w' : World) (route : Route)
        (Hreturned : generateCyclingRoute geoOracle geocoded r w = (Returned route, w')) :
  exists startCenter response1 response2 d1 d2 s1 s2 day1 day2 rest1 rest2,
    geocoded = Returned (Some startCenter)
    /\ generateCityRouteWithRetry geoOracle (fst (proposedWaypoints startCenter r))
                                  "Day 1" 8 w
       = (Returned (response1, d1), s1)
    /\ generateCityRouteWithRetry geoOracle
                                  (snd (fst (proposedWaypoints startCenter r)),
                                   snd (snd (proposedWaypoints startCenter r)))
                                  "Day 2" 8 (cl_world s1)
       = (Returned (response2, d2), s2)
    /\ features response1 = day1 :: rest1
    /\ features response2 = day2 :: rest2
    /\ let totalDistance :=
         numAdd (numDiv (providerTotal distance (segments day1)) 1000)
                (numDiv (providerTotal distance (segments day2)) 1000) in
       let providerMinutes :=
         numDiv (numAdd (providerTotal duration (segments day1))
                        (providerTotal duration (segments day2))) 60 in
       numSame (route_distance route) totalDistance
       /\ (numBelow providerMinutes 10 /\ numExceeds totalDistance 20 ->
           numSame (estimatedDuration route) (numMul (numDiv totalDistance 20) 60))
       /\ (~ (numBelow providerMinutes 10 /\ numExceeds totalDistance 20) ->
           numSame (estimatedDuration route) providerMinutes).
Proof.
  unfold generateCyclingRoute in Hreturned.
  destruct geocoded as [[startCenter|]|e]; try discriminate Hreturned.
  destruct (proposedWaypoints startCenter r) as [day1Waypoints day2Waypoints] eqn:Hprop.
  destruct (generateCityRouteWithRetry geoOracle day1Waypoints "Day 1" 8 w)
    as [[[response1 d1]|e] s1] eqn:Hday1; try discriminate Hreturned.
  cbn [snd] in Hreturned.
  destruct (generateCityRouteWithRetry geoOracle _ "Day 2" 8 (cl_world s1))
    as [[[response2 d2]|e] s2] eqn:Hday2; try discriminate Hreturned.
  pose proof Hday1 as Hm1. apply cycle_loop_returns_measured in Hm1.
  pose proof Hday2 as Hm2. apply cycle_loop_returns_measured in Hm2.
  destruct response1 as [[|day1 rest1]]; [discriminate Hm1|].
  destruct response2 as [[|day2 rest2]]; [discriminate Hm2|].
  rewrite routeDistanceKm_head in Hm1, Hm2.
  inversion Hm1 as [Hd1]. inversion Hm2 as [Hd2]. clear Hm1 Hm2.
  cbn [features] in Hreturned.
  exists startCenter, (mkData (day1 :: rest1)), (mkData (day2 :: rest2)), d1, d2, s1, s2,
    day1, day2, rest1, rest2.
  rewrite Hprop. cbn [fst snd].
  split; [reflexivity|]. split; [exact Hday1|].
  split; [exact Hday2|]. split; [reflexivity|]. split; [reflexivity|].
  unfold assembleCyclingRoute in Hreturned.
  destruct (firstPoint (coordinates day1)); [|discriminate Hreturned].
  destruct (lastPoint (coordinates day1)); [|discriminate Hreturned].
  destruct (firstPoint (coordinates day2)); [|discriminate Hreturned].
  destruct (lastPoint (coordinates day2)); [|discriminate Hreturned].
  inversion Hreturned as [[Hroute Hw]]. clear Hreturned.
  cbn [route_distance estimatedDuration]. unfold cyclingDuration.
  set (totalDistance := numAdd (numDiv (providerTotal distance (segments day1)) 1000)
                               (numDiv (providerTotal distance (segments day2)) 1000)).
  set (providerMinutes := numDiv (numAdd (providerTotal duration (segments day1))
                                         (providerTotal duration (segments day2))) 60).
  assert (Hdistance : numSame (numAdd d1 d2) totalDistance).
  { subst d1 d2 totalDistance.
    apply numAdd_same; apply numDiv_same; apply sumDistance_providerTotal. }
  assert (Hminutes : numSame (numDiv (numAdd (sumDuration (segments day1))
                                             (sumDuration (segments day2))) 60)
                             providerMinutes).
  { subst providerMinutes.
    apply numDiv_same. apply numAdd_same; apply sumDuration_providerTotal. }
  cbv zeta. split; [exact Hdistance|]. split.
  - intros [Hshort Hfar].
    apply (numBelow_same _ _ 10 Hminutes) in Hshort. apply numLtb_below in Hshort.
    apply (numExceeds_same _ _ 20 Hdistance) in Hfar. apply numGtb_exceeds in Hfar.
    rewrite Hshort, Hfar. cbn [andb].
    apply numMul_same. apply numDiv_same. exact Hdistance.
  - intros Hnot.
    destruct (numLtb _ 10) eqn:Hshort; [|exact Hminutes].
    destruct (numGtb _ 20) eqn:Hfar; [|exact Hminutes].
    exfalso. apply Hnot. split.
    + apply (numBelow_same _ _ 10 Hminutes). apply numLtb_below. exact Hshort.
    + apply (numExceeds_same _ _ 20 Hdistance). apply numGtb_exceeds. exact Hfar.
Qed.

(** The rule of C9 on two days of 8 km in two segments each (5 km and
    3 km, 3500 s and 2500 s): the totals are 16 km and 12000 s, and the
    route reports the provider's 200 minutes. *)
Lemma cycling_duration_rule_witness :
  exists route,
    generateCyclingRoute (rt := Approx.runtime)
                         (scripted (fun _ waypoints _ =>
                                      Returned (twoSegments 5 3500 3 2500 waypoints)))
                         (Returned (Some sampleCenter)) sampleDraws 0%nat
    = (Returned route, 2%nat)
    /\ numIs (route_distance route) 16
    /\ numIs (estimatedDuration route) 200.
Proof.
  set (provider := scripted (fun _ waypoints _ =>
                               Returned (twoSegments 5 3500 3 2500 waypoints))).
  assert (Hrun : exists route,
             generateCyclingRoute (rt := Approx.runtime) provider
                                  (Returned (Some sampleCenter)) sampleDraws 0%nat
             = (Returned route, 2%nat)).
  { vm_compute. eexists. reflexivity. }
  destruct Hrun as [route Hrun]. exists route. split; [exact Hrun|].
  destruct (cycling_duration_rule _ _ _ _ _ _ Hrun)
    as (c & p1 & p2 & d1 & d2 & s1 & s2 & day1 & day2 & r1 & r2
        & Hgeo & Hday1 & Hday2 & Hf1 & Hf2 & Hdist & _ & Hkept).
  inversion Hgeo as [Hc]. subst c. clear Hgeo.
  assert (Hfirst : forall waypoints routeName (n : nat) result s,
             generateCityRouteWithRetry (rt := Approx.runtime) provider waypoints
                                        routeName 8 n = (Returned result, s) ->
             exists coords,
               features (fst result)
               = [mkFeature [mkSegment (Num (5 * 1000)) (Num 3500) None;
                             mkSegment (Num (3 * 1000)) (Num 2500) None]
                            None coords]).
  { intros waypoints routeName n result s Hloop.
    unfold generateCityRouteWithRetry in Hloop. cbn [for_loop] in Hloop.
    unfold cycle_body at 1 in Hloop. subst provider. unfold scripted at 1 in Hloop.
    unfold cycle_try, twoSegments, routeDistanceKm in Hloop.
    cbn [features segments sumDistance fold_left distance numAdd numDiv numGeb numLeb]
      in Hloop.
    replace (Qgeb ((0 + 5 * 1000 + 3 * 1000) / 1000) 5
             && Qleb ((0 + 5 * 1000 + 3 * 1000) / 1000) 60) with true in Hloop
      by reflexivity.
    inversion Hloop; subst. eexists. reflexivity. }
  destruct (Hfirst _ _ _ _ _ Hday1) as [coords1 Hp1].
  destruct (Hfirst _ _ _ _ _ Hday2) as [coords2 Hp2].
  cbn [fst] in Hp1, Hp2. rewrite Hp1 in Hf1. rewrite Hp2 in Hf2.
  inversion Hf1; subst day1 r1. inversion Hf2; subst day2 r2. clear Hf1 Hf2.
  cbn [segments providerTotal distance duration numAdd numDiv] in Hdist, Hkept.
  split.
  - destruct (route_distance route) as [a|]; [|contradiction].
    simpl in Hdist |- *. rewrite Hdist. reflexivity.
  - assert (Hduration : numSame (estimatedDuration route)
                                (Num ((3500 + (2500 + 0) + (3500 + (2500 + 0))) / 60))).
    { apply Hkept. intros [Hshort _]. simpl in Hshort.
      revert Hshort. vm_compute. intros Hshort. discriminate Hshort. }
    destruct (estimatedDuration route) as [a|]; [|contradiction].
    simpl in Hduration |- *. rewrite Hduration. reflexivity.
Defined.

(** The substitution of C9 at work: two days of 25 km for which the
    provider gives one minute each are reported as 150 minutes. *)
Example implausible_duration_is_replaced :
  exists route,
    generateCyclingRoute (rt := Approx.runtime)
                         (scripted (fun _ waypoints _ => Returned (measuring 25 60 waypoints)))
                         (Returned (Some sampleCenter)) sampleDraws 0%nat
    = (Returned route, 2%nat)
    /\ numIs (route_distance route) 50 /\ numIs (estimatedDuration route) 150.
Proof. vm_compute. eexists. split; [reflexivity|]. split; reflexivity. Qed.

(** ** Continuity between the two days *)

(** C2 fails on the code.  The first request of day 1 is answered 404, so
    the loop moves the end point of day 1 and the second request succeeds;
    day 1 then ends at the moved point, while day 2 is searched from the end
    point proposed at the start.  The provider routes along the coordinates
    it is given, and the two reported points differ. *)
Theorem cycling_day2_starts_at_proposed_end :
  let proposed := fst (proposedWaypoints (rt := Approx.runtime) sampleCenter sampleDraws) in
  exists route day1 day2 log,
    generateCyclingRoute (rt := Approx.runtime)
                         (routingCall (rt := Approx.runtime) (Some "key"%string)
                                      (failingOnce 404 10))
                         (Returned (Some sampleCenter)) sampleDraws []
    = (Returned route, log)
    /\ isMultiDay route = true
    /\ dayDetails route = [day1; day2]
    /\ day_endPoint day1
       = toLatLng (snd (rotatedWaypoints (rt := Approx.runtime) proposed 0))
    /\ day_startPoint day2 = toLatLng (snd proposed)
    /\ samePoint (day_startPoint day2) (day_endPoint day1) = false.
Proof.
  vm_compute. eexists. eexists. eexists. eexists.
  split; [reflexivity|]. split; [reflexivity|]. split; [reflexivity|].
  split; [reflexivity|]. split; reflexivity.
Qed.

(** ** Authentication errors *)

Lemma callOpenRouteService_authentication
      {rt : JsRuntime} (apiKey : option string) (net : Network)
      (coords : list Coord) (profile : string) (maxRetries : nat) (w : NetLog)
      (err : AxiosError) (status : Z) :
  apiKeyMissing apiKey = false ->
  pointsTooFarApart coords = false ->
  validateCoordinates 0 coords = None ->
  net (List.length w) (mkRequest profile coords) = HttpErr err ->
  ax_status err = Some status ->
  status = 401%Z \/ status = 403%Z ->
  callOpenRouteService apiKey net coords profile maxRetries w
  = (Thrown (authenticationError status), w ++ [mkRequest profile coords]).
Proof.
  intros Hkey Hnear Hvalid Hnet Hstatus Hauth.
  unfold callOpenRouteService. rewrite Hkey, Hnear, Hvalid.
  cbn [requestLoop]. unfold makeRateLimitedRequest, axios_post.
  rewrite Hnet, Hstatus. unfold authenticationError.
  destruct Hauth; subst status.
  - change (statusIs (Some 401%Z) 429) with false. cbv iota.
    rewrite Hstatus. reflexivity.
  - change (statusIs (Some 403%Z) 429) with false. cbv iota.
    rewrite Hstatus. reflexivity.
Qed.

(** C3, as the code behaves.  When the first response of the provider to a
    routing call is a 401 or a 403, [callOpenRouteService] throws the
    authentication error after that single request.  The retry loops handle
    it as any other error: it ends the search only at the last attempt
    ([attempt = maxRetries - 1]); before that, the walking loop goes on to
    the next attempt with the same waypoints and radius, and the cycling loop
    goes on with the end point moved to the rotated position. *)
Theorem authentication_error_uses_one_attempt
        {rt : JsRuntime} (apiKey : option string) (net : Network)
        (coords : list Coord) (profile : string) (w : NetLog)
        (err : AxiosError) (status : Z)
        (Hkey : apiKeyMissing apiKey = false)
        (Hnear : pointsTooFarApart coords = false)
        (Hvalid : validateCoordinates 0 coords = None)
        (Hnet : net (List.length w) (mkRequest profile coords) = HttpErr err)
        (Hstatus : ax_status err = Some status)
        (Hauth : status = 401%Z \/ status = 403%Z) :
  let w1 := (w ++ [mkRequest profile coords])%list in
  routingCall apiKey net coords profile w = (Thrown (authenticationError status), w1)
  /\ (forall centerLat centerLng numPoints maxRetries (s : WalkLoop NetLog),
         wl_waypoints s = coords -> profile = "foot-walking"%string -> wl_world s = w ->
         walk_body (routingCall apiKey net) centerLat centerLng numPoints maxRetries s
         = if wl_attempt s =? maxRetries - 1
           then inr (Thrown (authenticationError status), called s w1)
           else inl (walk_next (called s w1)))
  /\ (forall waypoints maxRetries (c : CycleLoop NetLog),
         pairList (cl_waypoints c) = coords -> cl_profile c = profile -> cl_world c = w ->
         let c1 := mkCycleLoop (cl_attempt c) (rotatedWaypoints waypoints (cl_attempt c))
                               (cl_profile c) w1
                               (cl_calls c ++ [mkCall coords profile]) in
         cycle_body (routingCall apiKey net) waypoints maxRetries c
         = if cl_attempt c =? maxRetries - 1
           then inr (Thrown (authenticationError status), c1)
           else inl (cycle_next c1)).
Proof.
  intros w1.
  assert (Hcall : routingCall apiKey net coords profile w
                  = (Thrown (authenticationError status), w1)).
  { unfold routingCall. apply callOpenRouteService_authentication with (err := err); assumption. }
  split; [exact Hcall|]. split.
  - intros centerLat centerLng numPoints maxRetries s Hwp Hprofile Hw.
    apply walk_body_thrown. rewrite Hwp, Hw, <- Hprofile. exact Hcall.
  - intros waypoints maxRetries c Hwp Hprofile Hw c1.
    unfold cycle_body. rewrite Hwp, Hprofile, Hw, Hcall.
    unfold cycle_try, cycle_catch. cbn [response_status authenticationError newError].
    subst c1. rewrite Hprofile. unfold cycle_set_waypoints. cbn.
    destruct (cl_attempt c =? maxRetries - 1); reflexivity.
Qed.

Lemma authentication_error_uses_one_attempt_witness :
  routingCall (rt := Approx.runtime) (Some "key"%string) (failingOnce 403 10)
              (sampleRing sampleRadius) "foot-walking" []
  = (Thrown (mkError "Authentication error - Status 403: Check API key validity" None),
     [mkRequest "foot-walking" (sampleRing sampleRadius)]).
Proof.
  apply (authentication_error_uses_one_attempt (rt := Approx.runtime)
           (Some "key"%string) (failingOnce 403 10) (sampleRing sampleRadius)
           "foot-walking" [] (mkAxiosError "Request failed" (Some 403%Z) None) 403%Z).
  - reflexivity.
  - vm_compute. reflexivity.
  - vm_compute. reflexivity.
  - reflexivity.
  - reflexivity.
  - right. reflexivity.
Defined.

(** C3 as stated fails.  The first request is answered 401 and the routing
    call throws the authentication error.  The walking search then sends a
    second request and returns a route; the cycling loop makes a second
    routing call, with another end point, and returns its response. *)
Lemma authentication_error_is_retried :
  let call := routingCall (rt := Approx.runtime) (Some "key"%string) (failingOnce 401 10) in
  let proposed := fst (proposedWaypoints (rt := Approx.runtime) sampleCenter sampleDraws) in
  fst (call (sampleRing sampleRadius) "foot-walking"%string [])
  = Thrown (mkError "Authentication error - Status 401: Check API key validity" None)
  /\ (exists route,
         generateWalkingRoute (rt := Approx.runtime) call (Returned (Some sampleCenter)) []
         = (Returned route,
            [mkRequest "foot-walking" (sampleRing sampleRadius);
             mkRequest "foot-walking" (sampleRing sampleRadius)]))
  /\ fst (call (pairList proposed) "cycling-road"%string [])
     = Thrown (mkError "Authentication error - Status 401: Check API key validity" None)
  /\ (exists result s,
         generateCityRouteWithRetry (rt := Approx.runtime) call proposed "Day 1" 8 []
         = (Returned result, s)
         /\ cl_calls s
            = [mkCall (pairList proposed) "cycling-road";
               mkCall (pairList (rotatedWaypoints (rt := Approx.runtime) proposed 0))
                      "cycling-road"]
         /\ sameCoord (snd proposed)
                      (snd (rotatedWaypoints (rt := Approx.runtime) proposed 0)) = false).
Proof.
  vm_compute.
  split; [reflexivity|]. split; [eexists; reflexivity|]. split; [reflexivity|].
  eexists. eexists. split; [reflexivity|]. split; reflexivity.
Qed.

(** ** The local straight-line test *)

Lemma pointsTooFarApart_first_pair {rt : JsRuntime} (c1 c2 : Coord) (rest : list Coord) :
  pointsTooFarApart (c1 :: c2 :: rest) = true <-> 80 < straightLineKm c1 c2.
Proof. unfold pointsTooFarApart. apply Qgtb_lt. Qed.

(** C8, as the code behaves.  A waypoint list whose first two points are
    more than 80 km apart (the Euclidean distance in degrees times 111) is
    rejected before any request: [callOpenRouteService] throws and the log
    of requests is unchanged.  The test reads the first two points only,
    whatever follows them. *)
Theorem far_first_pair_is_rejected_locally
        {rt : JsRuntime} (apiKey : option string) (net : Network)
        (c1 c2 : Coord) (rest : list Coord) (profile : string) (maxRetries : nat)
        (w : NetLog)
        (Hfar : 80 < straightLineKm c1 c2) :
  (exists e,
      callOpenRouteService apiKey net (c1 :: c2 :: rest) profile maxRetries w = (Thrown e, w)
      /\ (apiKeyMissing apiKey = false -> e = newError "Points too far apart for routing"))
  /\ (forall (a b : Coord) (others : list Coord),
         pointsTooFarApart (a :: b :: others) = pointsTooFarApart [a; b]).
Proof.
  split.
  - unfold callOpenRouteService.
    destruct (apiKeyMissing apiKey).
    + eexists. split; [reflexivity|discriminate].
    + apply (pointsTooFarApart_first_pair c1 c2 rest) in Hfar. rewrite Hfar.
      eexists. split; reflexivity.
  - intros a b others. reflexivity.
Qed.

Lemma far_first_pair_is_rejected_locally_witness :
  exists e,
    callOpenRouteService (rt := Approx.runtime) (Some "key"%string) (failingOnce 200 10)
                         farApartPair "cycling-road" 2 []
    = (Thrown e, [])
    /\ e = newError "Points too far apart for routing".
Proof.
  destruct (far_first_pair_is_rejected_locally (rt := Approx.runtime)
              (Some "key"%string) (failingOnce 200 10)
              (3475 # 100, 32) (3675 # 100, 32) [] "cycling-road" 2 [])
    as [(e & Hcall & He) _].
  - vm_compute. reflexivity.
  - exists e. split; [exact Hcall|]. apply He. reflexivity.
Defined.

(** C8 as stated fails: the second and third points are 210.9 km apart, the
    list is not rejected, a request is sent and its response is returned. *)
Lemma far_later_pair_is_sent :
  80 < straightLineKm (rt := Approx.runtime) (3485 # 100, 32) (3675 # 100, 32)
  /\ callOpenRouteService (rt := Approx.runtime) (Some "key"%string)
                          (fun _ req => HttpOk (measuring 10 1800 (req_coordinates req)))
                          farApartLater "foot-walking" 2 []
     = (Returned (measuring 10 1800 farApartLater),
        [mkRequest "foot-walking" farApartLater]).
Proof. split; vm_compute; reflexivity. Qed.

(** * Further properties *)

(** ** createWaypoints *)

Lemma Subsequence_refl {A : Type} (l : list A) : Subsequence l l.
Proof. induction l; constructor; assumption. Qed.

Lemma Subsequence_trans {A : Type} (a b c : list A) :
  Subsequence a b -> Subsequence b c -> Subsequence a c.
Proof.
  intros Hab Hbc. revert a Hab.
  induction Hbc as [l|x s l Hsl IH|x s l Hsl IH]; intros a Hab.
  - inversion Hab; subst. constructor.
  - inversion Hab; subst.
    + constructor.
    + constructor. apply IH. assumption.
    + apply Subsequence_skip. apply IH. assumption.
  - apply Subsequence_skip. apply IH. assumption.
Qed.

Lemma Subsequence_filter {A : Type} (f : A -> bool) (l : list A) :
  Subsequence (filter f l) l.
Proof.
  induction l as [|x l IH]; simpl.
  - constructor.
  - destruct (f x); constructor; assumption.
Qed.

Lemma Subsequence_Forall {A : Type} (P : A -> Prop) (s l : list A) :
  Subsequence s l -> Forall P l -> Forall P s.
Proof.
  induction 1 as [l|x s l Hsl IH|x s l Hsl IH]; intros Hall.
  - constructor.
  - inversion Hall; subst. constructor; auto.
  - inversion Hall; subst. auto.
Qed.

Lemma Subsequence_skipn {A : Type} (l : list A) (i j : nat) :
  (j <= i)%nat -> Subsequence (skipn i l) (skipn j l).
Proof.
  revert i j. induction l as [|x l IH]; intros i j Hji.
  - rewrite !skipn_nil. constructor.
  - destruct j as [|j].
    + simpl skipn at 2. destruct i as [|i].
      * apply Subsequence_refl.
      * simpl. apply Subsequence_skip.
        change l with (skipn 0 l) at 2. apply IH. lia.
    + destruct i as [|i]; [lia|]. simpl. apply IH. lia.
Qed.

Lemma skipn_nth_error {A : Type} (l : list A) (i : nat) (x : A) :
  nth_error l i = Some x -> skipn i l = x :: skipn (S i) l.
Proof.
  revert i. induction l as [|y l IH]; intros i H.
  - destruct i; discriminate.
  - destruct i as [|i]; simpl in *.
    + inversion H. reflexivity.
    + apply IH. exact H.
Qed.

Lemma last_in_skipn {A : Type} (l : list A) (d : A) (j : nat) :
  (j < List.length l)%nat -> Subsequence [last l d] (skipn j l).
Proof.
  revert j. induction l as [|x l IH]; intros j Hj; simpl in Hj; [lia|].
  destruct l as [|y l']; simpl in Hj.
  - destruct j; [|lia]. simpl. apply Subsequence_refl.
  - destruct j as [|j].
    + change (last (x :: y :: l') d) with (last (y :: l') d).
      simpl skipn. apply Subsequence_skip.
      change (y :: l') with (skipn 0 (y :: l')) at 2. apply IH. simpl. lia.
    + change (last (x :: y :: l') d) with (last (y :: l') d).
      simpl skipn. apply IH. simpl in *. lia.
Qed.

Section CreateWaypointsFacts.
Variable filtered : list LatLng.
Variable step : nat.
Hypothesis step_pos : (1 <= step)%nat.

Lemma simplifyFrom_subsequence (d : LatLng) (fuel : nat) :
  forall i j, (j <= i)%nat -> (j < List.length filtered)%nat ->
    Subsequence (simplifyFrom fuel i step filtered ++ [last filtered d]) (skipn j filtered).
Proof.
  induction fuel as [|fuel IH]; intros i j Hji Hj; simpl.
  - apply last_in_skipn. exact Hj.
  - destruct (i <? List.length filtered - 1)%nat eqn:Htest;
      [|apply last_in_skipn; exact Hj].
    apply Nat.ltb_lt in Htest.
    destruct (nth_error filtered i) as [coord|] eqn:Hnth;
      [|apply last_in_skipn; exact Hj].
    apply Subsequence_trans with (skipn i filtered);
      [|apply Subsequence_skipn; exact Hji].
    rewrite (skipn_nth_error _ _ _ Hnth). rewrite <- app_comm_cons. constructor.
    apply IH; lia.
Qed.

(** The fuel [createWaypoints] gives the loop is enough: more fuel pushes
    the same points. *)
Lemma simplifyFrom_fuel (fuel : nat) :
  forall i extra, (List.length filtered <= fuel + i)%nat ->
    simplifyFrom (fuel + extra) i step filtered = simplifyFrom fuel i step filtered.
Proof.
  induction fuel as [|fuel IH]; intros i extra Hn.
  - simpl. destruct extra as [|extra]; [reflexivity|]. simpl.
    replace (i <? List.length filtered - 1)%nat with false; [reflexivity|].
    symmetry. apply Nat.ltb_ge. lia.
  - simpl. destruct (i <? List.length filtered - 1)%nat; [|reflexivity].
    destruct (nth_error filtered i); [|reflexivity].
    f_equal. apply IH. lia.
Qed.

Lemma simplifyFrom_count (fuel : nat) :
  forall i, (2 <= List.length filtered)%nat ->
    let m := List.length (simplifyFrom fuel i step filtered) in
    m = 0%nat \/ (i + m * step <= List.length filtered - 2 + step)%nat.
Proof.
  induction fuel as [|fuel IH]; intros i Hn; simpl.
  - left. reflexivity.
  - destruct (i <? List.length filtered - 1)%nat eqn:Htest; [|left; reflexivity].
    apply Nat.ltb_lt in Htest.
    destruct (nth_error filtered i); [|left; reflexivity].
    right. simpl. destruct (IH (i + step)%nat Hn) as [H0|Hle].
    + rewrite H0. lia.
    + lia.
Qed.

End CreateWaypointsFacts.

(** [createWaypoints] returns valid points of its input, in the order of
    the input: its result is a subsequence of the input all of whose points
    pass the validity test. *)
Theorem createWaypoints_valid_subsequence (coordinates : list LatLng) :
  Subsequence (createWaypoints coordinates) coordinates
  /\ Forall (fun coord => waypointIsValid coord = true) (createWaypoints coordinates).
Proof.
  assert (Hsub : Subsequence (createWaypoints coordinates)
                             (filter waypointIsValid coordinates)).
  { unfold createWaypoints.
    destruct (List.length (filter waypointIsValid coordinates) <=? 3)%nat eqn:Hlen;
      [apply Subsequence_refl|].
    apply Nat.leb_gt in Hlen.
    destruct (filter waypointIsValid coordinates) as [|first rest] eqn:Hf;
      [constructor|].
    constructor.
    change rest with (skipn 1 (first :: rest)).
    apply simplifyFrom_subsequence; cbn [List.length] in *; lia. }
  split.
  - apply Subsequence_trans with (filter waypointIsValid coordinates);
      [exact Hsub|apply Subsequence_filter].
  - apply Subsequence_Forall with (filter waypointIsValid coordinates); [exact Hsub|].
    apply Forall_forall. intros x Hx. apply filter_In in Hx. tauto.
Qed.

Lemma last_default {A : Type} (l : list A) (x a b : A) :
  last (x :: l) a = last (x :: l) b.
Proof.
  revert x. induction l as [|y l IH]; intros x; [reflexivity|].
  change (last (x :: y :: l) a) with (last (y :: l) a).
  change (last (x :: y :: l) b) with (last (y :: l) b). apply IH.
Qed.

Lemma createWaypoints_shape (coordinates : list LatLng) :
  (List.length (createWaypoints coordinates) <= 19)%nat
  /\ (List.length (createWaypoints coordinates)
      <= List.length (filter waypointIsValid coordinates))%nat
  /\ hd_error (createWaypoints coordinates)
     = hd_error (filter waypointIsValid coordinates)
  /\ (forall d, last (createWaypoints coordinates) d
                = last (filter waypointIsValid coordinates) d).
Proof.
  unfold createWaypoints.
  generalize (filter waypointIsValid coordinates). intros filtered.
  remember (Nat.max 1 (List.length filtered / 10)) as step eqn:Hstepdef.
  assert (Hstep : (1 <= step)%nat) by lia.
  destruct (List.length filtered <=? 3)%nat eqn:Hlen.
  - apply Nat.leb_le in Hlen. repeat split; auto; lia.
  - apply Nat.leb_gt in Hlen.
    remember (simplifyFrom (List.length filtered) step step filtered) as middle eqn:Hmid.
    assert (Hcount : (List.length middle * step <= List.length filtered - 2)%nat).
    { destruct (simplifyFrom_count filtered step Hstep (List.length filtered) step)
        as [H0|Hle]; [lia| |].
      - rewrite <- Hmid in H0. rewrite H0. lia.
      - rewrite <- Hmid in Hle. lia. }
    assert (Hsmall : (List.length middle <= 17)%nat
                     /\ (List.length middle + 2 <= List.length filtered)%nat).
    { pose proof (Nat.div_mod_eq (List.length filtered) 10) as Hdiv.
      pose proof (Nat.mod_upper_bound (List.length filtered) 10) as Hmod.
      destruct (List.length filtered / 10)%nat as [|q] eqn:Hq.
      - replace step with 1%nat in Hcount by lia. lia.
      - replace step with (S q) in Hcount by lia.
        split; nia. }
    clear Hmid Hcount Hstepdef.
    destruct filtered as [|first rest]; [simpl in Hlen; lia|].
    repeat split.
    + simpl. rewrite length_app. simpl. lia.
    + simpl. rewrite length_app. simpl in *. lia.
    + intros d.
      change (first :: middle ++ [last (first :: rest) first])
        with ((first :: middle) ++ [last (first :: rest) first]).
      rewrite last_last. apply last_default.
Qed.

(** [createWaypoints] returns at most 19 points and never more than the
    valid points of its input; when the input has a valid point, the first
    and the last valid points are the first and the last points returned.
    The loop that thins the points has fuel enough: more fuel pushes the
    same points. *)
Theorem createWaypoints_bounded (coordinates : list LatLng) :
  let filtered := filter waypointIsValid coordinates in
  let step := Nat.max 1 (List.length filtered / 10) in
  (List.length (createWaypoints coordinates) <= 19)%nat
  /\ (List.length (createWaypoints coordinates) <= List.length filtered)%nat
  /\ hd_error (createWaypoints coordinates) = hd_error filtered
  /\ (forall d, last (createWaypoints coordinates) d = last filtered d)
  /\ (forall extra,
         simplifyFrom (List.length filtered + extra) step step filtered
         = simplifyFrom (List.length filtered) step step filtered).
Proof.
  intros filtered step.
  destruct (createWaypoints_shape coordinates) as (H1 & H2 & H3 & H4).
  repeat split; try assumption.
  intros extra. apply simplifyFrom_fuel; subst step; lia.
Qed.

(** ** What callOpenRouteService sends *)

Lemma validateCoordinates_None {rt : JsRuntime} (coords : list Coord) :
  forall i, validateCoordinates i coords = None <-> Forall coordinateInRange coords.
Proof.
  induction coords as [|[lng0 lat0] rest IH]; intros i; simpl.
  - split; [constructor|reflexivity].
  - destruct (Qltb lat0 (-90) || Qgtb lat0 90 || Qltb lng0 (-180) || Qgtb lng0 180)
      eqn:Hrange.
    + split; [discriminate|]. intros Hall. exfalso.
      inversion Hall as [|c l Hc Hrest]; subst.
      destruct Hc as (H1 & H2 & H3 & H4 & _). simpl in *.
      repeat rewrite orb_true_iff in Hrange.
      destruct Hrange as [[[H|H]|H]|H].
      * apply Qltb_lt in H. exact (Qlt_not_le _ _ H H1).
      * apply Qgtb_lt in H. exact (Qlt_not_le _ _ H H2).
      * apply Qltb_lt in H. exact (Qlt_not_le _ _ H H3).
      * apply Qgtb_lt in H. exact (Qlt_not_le _ _ H H4).
    + repeat rewrite orb_false_iff in Hrange.
      destruct Hrange as [[[H1 H2] H3] H4].
      apply Qltb_ge in H1. unfold Qgtb in H2. apply Qltb_ge in H2.
      apply Qltb_ge in H3. unfold Qgtb in H4. apply Qltb_ge in H4.
      destruct (Qltb (Qabs lat0) (1 # 10) && Qltb (Qabs lng0) (1 # 10)) eqn:Hzero.
      * split; [discriminate|]. intros Hall. exfalso.
        inversion Hall as [|c l Hc Hrest]; subst.
        destruct Hc as (_ & _ & _ & _ & Hnot). apply Hnot. simpl.
        apply andb_true_iff in Hzero. destruct Hzero as [Ha Hb].
        split; apply Qltb_lt; assumption.
      * rewrite IH. split.
        -- intros Hrest. constructor; [|exact Hrest].
           repeat split; simpl; try assumption.
           intros [Ha Hb]. apply Qltb_lt in Ha. apply Qltb_lt in Hb.
           rewrite Ha, Hb in Hzero. discriminate.
        -- intros Hall. inversion Hall; subst. assumption.
Qed.

Lemma repeat_append {A : Type} (w : list A) (x : A) (a b : nat) :
  ((w ++ repeat x a) ++ repeat x b = w ++ repeat x (a + b))%list.
Proof. rewrite <- app_assoc, <- repeat_app. reflexivity. Qed.

Lemma makeRateLimitedRequest_log (net : Network) (req : Request) (w : NetLog) :
  exists k, (1 <= k <= 2)%nat
            /\ snd (makeRateLimitedRequest net req w) = (w ++ repeat req k)%list.
Proof.
  unfold makeRateLimitedRequest, axios_post.
  destruct (net (List.length w) req) as [data|error].
  - exists 1%nat. split; [lia|reflexivity].
  - destruct (statusIs (ax_status error) 429).
    + exists 2%nat. split; [lia|]. simpl. rewrite <- app_assoc. reflexivity.
    + exists 1%nat. split; [lia|reflexivity].
Qed.

Lemma requestLoop_log {rt : JsRuntime} (net : Network) (maxRetries : nat) (req : Request)
      (tries : nat) :
  forall lastError w,
  exists k, (k <= 2 * tries)%nat
            /\ snd (requestLoop net maxRetries tries lastError req w)
               = (w ++ repeat req k)%list.
Proof.
  induction tries as [|tries IH]; intros lastError w.
  - exists 0%nat. split; [lia|]. simpl. rewrite app_nil_r. reflexivity.
  - cbn [requestLoop].
    destruct (makeRateLimitedRequest_log net req w) as (k1 & Hk1 & Hlog).
    destruct (makeRateLimitedRequest net req w) as [[data|error] w1]; simpl in Hlog; subst w1.
    + exists k1. split; [lia|reflexivity].
    + assert (Hrec : exists k, (k <= 2 * S tries)%nat
                     /\ snd (requestLoop net maxRetries tries (ax_message error) req
                                         (w ++ repeat req k1))
                        = (w ++ repeat req k)%list).
      { destruct (IH (ax_message error) (w ++ repeat req k1)%list) as (k2 & Hk2 & Hlog2).
        exists (k1 + k2)%nat. split; [lia|]. rewrite Hlog2. apply repeat_append. }
      destruct (ax_status error) as [status|]; [|exact Hrec].
      destruct (status =? 400)%Z; [exists k1; split; [lia|reflexivity]|].
      destruct (status =? 404)%Z; [exists k1; split; [lia|reflexivity]|].
      destruct ((status =? 401)%Z || (status =? 403)%Z);
        [exists k1; split; [lia|reflexivity]|].
      exact Hrec.
Qed.

Lemma callOpenRouteService_log
        {rt : JsRuntime} (apiKey : option string) (net : Network)
        (coords : list Coord) (profile : string) (maxRetries : nat) (w : NetLog) :
  exists k,
    snd (callOpenRouteService apiKey net coords profile maxRetries w)
    = (w ++ repeat (mkRequest profile coords) k)%list
    /\ (k <= 2 * (maxRetries + 1))%nat
    /\ (k <> 0%nat ->
        apiKeyMissing apiKey = false
        /\ pointsTooFarApart coords = false
        /\ Forall coordinateInRange coords).
Proof.
  unfold callOpenRouteService.
  destruct (apiKeyMissing apiKey) eqn:Hkey.
  { exists 0%nat. simpl. rewrite app_nil_r. repeat split; try lia. }
  destruct (pointsTooFarApart coords) eqn:Hfar.
  { exists 0%nat. simpl. rewrite app_nil_r. repeat split; try lia. }
  destruct (validateCoordinates 0 coords) as [e|] eqn:Hvalid.
  { exists 0%nat. simpl. rewrite app_nil_r. repeat split; try lia. }
  destruct (requestLoop_log net maxRetries (mkRequest profile coords) (S maxRetries)
                            EmptyString w) as (k & Hk & Hlog).
  exists k. split; [exact Hlog|]. split; [lia|].
  intros _. repeat split. apply (validateCoordinates_None coords 0%nat). exact Hvalid.
Qed.


(** ** How callOpenRouteService retries *)

Section RetryPolicy.
Context {rt : JsRuntime}.
Variable net : Network.
Variable maxRetries : nat.
Variable req : Request.

Lemma makeRateLimitedRequest_retried (w : NetLog) :
  retriedFailure (net (List.length w) req) ->
  exists e, net (List.length w) req = HttpErr e
            /\ makeRateLimitedRequest net req w = (HttpErr e, (w ++ [req])%list)
            /\ (forall status, ax_status e = Some status ->
                  (status =? 400)%Z = false /\ (status =? 404)%Z = false
                  /\ (status =? 401)%Z || (status =? 403)%Z = false).
Proof.
  unfold retriedFailure, makeRateLimitedRequest, axios_post.
  destruct (net (List.length w) req) as [data|e]; [contradiction|].
  intros Hretried. exists e. split; [reflexivity|].
  destruct (ax_status e) as [status|] eqn:Hstatus.
  - destruct Hretried as (H400 & H404 & H401 & H403 & H429).
    simpl. replace (status =? 429)%Z with false by (symmetry; apply Z.eqb_neq; exact H429).
    split; [reflexivity|]. intros status' Heq. inversion Heq; subst status'.
    repeat split; try (apply Z.eqb_neq; assumption).
    apply orb_false_iff. split; apply Z.eqb_neq; assumption.
  - split; [reflexivity|]. discriminate.
Qed.

Lemma requestLoop_retried_step (tries : nat) (lastError : string) (w : NetLog) :
  retriedFailure (net (List.length w) req) ->
  exists e, net (List.length w) req = HttpErr e
            /\ requestLoop net maxRetries (S tries) lastError req w
               = requestLoop net maxRetries tries (ax_message e) req (w ++ [req])%list.
Proof.
  intros Hretried.
  destruct (makeRateLimitedRequest_retried w Hretried) as (e & Hnet & Hmake & Hstatus).
  exists e. split; [exact Hnet|].
  cbn [requestLoop]. rewrite Hmake.
  destruct (ax_status e) as [status|]; [|reflexivity].
  destruct (Hstatus status eq_refl) as (H400 & H404 & Hauth).
  rewrite H400, H404, Hauth. reflexivity.
Qed.

Lemma requestLoop_exhausted (tries : nat) :
  forall lastError w,
    (forall i, (i < tries)%nat -> retriedFailure (net (List.length w + i)%nat req)) ->
    exists msg,
      requestLoop net maxRetries tries lastError req w
      = (Thrown (newError ("Failed to call OpenRouteService after "
                           ++ showNat (maxRetries + 1) ++ " attempts: " ++ msg)),
         (w ++ repeat req tries)%list)
      /\ (tries = 0%nat -> msg = lastError)
      /\ (tries <> 0%nat ->
          exists e, net (List.length w + tries - 1)%nat req = HttpErr e /\ msg = ax_message e).
Proof.
  induction tries as [|tries IH]; intros lastError w Hall.
  - exists lastError. simpl. rewrite app_nil_r.
    split; [reflexivity|]. split; [reflexivity|]. intros H; contradiction.
  - destruct (requestLoop_retried_step tries lastError w) as (e & Hnet & Hstep).
    { specialize (Hall 0%nat). rewrite Nat.add_0_r in Hall. apply Hall. lia. }
    destruct (IH (ax_message e) (w ++ [req])%list) as (msg & Hloop & Hzero & Hlast).
    { intros i Hi. rewrite length_app. simpl.
      replace (List.length w + 1 + i)%nat with (List.length w + S i)%nat by lia.
      apply Hall. lia. }
    exists msg. rewrite Hstep, Hloop. split.
    + rewrite <- app_assoc. reflexivity.
    + split; [discriminate|]. intros _.
      destruct tries as [|tries'].
      * exists e. rewrite (Hzero eq_refl). split; [|reflexivity].
        replace (List.length w + 1 - 1)%nat with (List.length w) by lia. exact Hnet.
      * destruct Hlast as (e' & Hnet' & Hmsg); [discriminate|].
        exists e'. split; [|exact Hmsg].
        rewrite length_app in Hnet'. simpl in Hnet'.
        replace (List.length w + S (S tries') - 1)%nat
          with (List.length w + 1 + S tries' - 1)%nat by lia.
        exact Hnet'.
Qed.

Lemma requestLoop_first_success (j : nat) :
  forall tries lastError w data,
    (j < tries)%nat ->
    (forall i, (i < j)%nat -> retriedFailure (net (List.length w + i)%nat req)) ->
    net (List.length w + j)%nat req = HttpOk data ->
    requestLoop net maxRetries tries lastError req w
    = (Returned data, (w ++ repeat req (S j))%list).
Proof.
  induction j as [|j IH]; intros tries lastError w data Hj Hfail Hok;
    (destruct tries as [|tries]; [lia|]).
  - cbn [requestLoop]. unfold makeRateLimitedRequest, axios_post.
    rewrite Nat.add_0_r in Hok. rewrite Hok. reflexivity.
  - destruct (requestLoop_retried_step tries lastError w) as (e & Hnet & Hstep).
    { specialize (Hfail 0%nat). rewrite Nat.add_0_r in Hfail. apply Hfail. lia. }
    rewrite Hstep.
    rewrite (IH tries (ax_message e) (w ++ [req])%list data).
    + rewrite <- app_assoc. reflexivity.
    + lia.
    + intros i Hi. rewrite length_app. simpl.
      replace (List.length w + 1 + i)%nat with (List.length w + S i)%nat by lia.
      apply Hfail. lia.
    + rewrite length_app. simpl.
      replace (List.length w + 1 + j)%nat with (List.length w + S j)%nat by lia.
      exact Hok.
Qed.

Lemma requestLoop_thrown_status (tries : nat) :
  forall lastError w e w',
    requestLoop net maxRetries tries lastError req w = (Thrown e, w') ->
    response_status e = None.
Proof.
  induction tries as [|tries IH]; intros lastError w e w'.
  - simpl. intros H; inversion H; reflexivity.
  - cbn [requestLoop].
    destruct (makeRateLimitedRequest net req w) as [[data|error] w1]; [discriminate|].
    destruct (ax_status error) as [status|]; [|apply IH].
    destruct (status =? 400)%Z; [intros H; inversion H; reflexivity|].
    destruct (status =? 404)%Z; [intros H; inversion H; reflexivity|].
    destruct ((status =? 401)%Z || (status =? 403)%Z);
      [intros H; inversion H; reflexivity|].
    apply IH.
Qed.

End RetryPolicy.

Lemma validateCoordinates_status {rt : JsRuntime} (coords : list Coord) :
  forall i e, validateCoordinates i coords = Some e -> response_status e = None.
Proof.
  induction coords as [|[lng0 lat0] rest IH]; intros i e; simpl; [discriminate|].
  destruct (_ || _); [intros H; inversion H; reflexivity|].
  destruct (_ && _); [intros H; inversion H; reflexivity|].
  apply IH.
Qed.

(** The errors [callOpenRouteService] throws are plain [Error] objects: none
    carries a [response]. *)
Lemma callOpenRouteService_thrown_status
      {rt : JsRuntime} (apiKey : option string) (net : Network)
      (coords : list Coord) (profile : string) (maxRetries : nat) (w w' : NetLog)
      (e : JsError) :
  callOpenRouteService apiKey net coords profile maxRetries w = (Thrown e, w') ->
  response_status e = None.
Proof.
  unfold callOpenRouteService.
  destruct (apiKeyMissing apiKey); [intros H; inversion H; reflexivity|].
  destruct (pointsTooFarApart coords); [intros H; inversion H; reflexivity|].
  destruct (validateCoordinates 0 coords) as [e0|] eqn:Hvalid.
  - intros H; inversion H; subst. apply (validateCoordinates_status coords 0%nat). exact Hvalid.
  - apply requestLoop_thrown_status.
Qed.

(** When every answer to the request is a failure that is retried (no
    status, or a status other than 400, 404, 401, 403 and 429),
    [callOpenRouteService] sends the request exactly [maxRetries + 1] times
    and then throws the failure of the whole call, with the number of
    attempts and the message of the last failure. *)
Theorem callOpenRouteService_gives_up_after_retries
        {rt : JsRuntime} (apiKey : option string) (net : Network)
        (coords : list Coord) (profile : string) (maxRetries : nat) (w : NetLog)
        (Hkey : apiKeyMissing apiKey = false)
        (Hnear : pointsTooFarApart coords = false)
        (Hrange : Forall coordinateInRange coords)
        (Hfail : forall i, (i <= maxRetries)%nat ->
                   retriedFailure (net (List.length w + i)%nat (mkRequest profile coords))) :
  exists last,
    net (List.length w + maxRetries)%nat (mkRequest profile coords) = HttpErr last
    /\ callOpenRouteService apiKey net coords profile maxRetries w
       = (Thrown (mkError ("Failed to call OpenRouteService after "
                           ++ showNat (maxRetries + 1) ++ " attempts: " ++ ax_message last)
                          None),
          (w ++ repeat (mkRequest profile coords) (maxRetries + 1))%list).
Proof.
  unfold callOpenRouteService. rewrite Hkey, Hnear.
  apply (validateCoordinates_None coords 0%nat) in Hrange. rewrite Hrange.
  destruct (requestLoop_exhausted net maxRetries (mkRequest profile coords)
                                  (S maxRetries) EmptyString w)
    as (msg & Hloop & _ & Hlast).
  { intros i Hi. apply Hfail. lia. }
  destruct Hlast as (e & Hnet & Hmsg); [discriminate|].
  exists e. split.
  - replace (List.length w + S maxRetries - 1)%nat
      with (List.length w + maxRetries)%nat in Hnet by lia.
    exact Hnet.
  - rewrite Hloop, Hmsg. replace (maxRetries + 1)%nat with (S maxRetries) by lia.
    reflexivity.
Qed.

(** When the answers to the request are retried failures up to a first
    success that comes within the [maxRetries + 1] tries,
    [callOpenRouteService] returns the data of that answer, having sent the
    request once per answer. *)
Theorem callOpenRouteService_returns_first_success
        {rt : JsRuntime} (apiKey : option string) (net : Network)
        (coords : list Coord) (profile : string) (maxRetries : nat) (w : NetLog)
        (failures : nat) (data : ResponseData)
        (Hkey : apiKeyMissing apiKey = false)
        (Hnear : pointsTooFarApart coords = false)
        (Hrange : Forall coordinateInRange coords)
        (Hwithin : (failures <= maxRetries)%nat)
        (Hfail : forall i, (i < failures)%nat ->
                   retriedFailure (net (List.length w + i)%nat (mkRequest profile coords)))
        (Hok : net (List.length w + failures)%nat (mkRequest profile coords) = HttpOk data) :
  callOpenRouteService apiKey net coords profile maxRetries w
  = (Returned data, (w ++ repeat (mkRequest profile coords) (failures + 1))%list).
Proof.
  unfold callOpenRouteService. rewrite Hkey, Hnear.
  apply (validateCoordinates_None coords 0%nat) in Hrange. rewrite Hrange.
  rewrite (requestLoop_first_success net maxRetries (mkRequest profile coords) failures
             (S maxRetries) EmptyString w data); [|lia|exact Hfail|exact Hok].
  replace (failures + 1)%nat with (S failures) by lia. reflexivity.
Qed.

Lemma callOpenRouteService_gives_up_after_retries_witness :
  exists last,
    callOpenRouteService (rt := Approx.runtime) (Some "key"%string)
                         (fun _ _ => HttpErr (mkAxiosError "Service Unavailable"
                                                           (Some 503%Z) None))
                         nearPair "cycling-road" 2 []
    = (Thrown (mkError ("Failed to call OpenRouteService after 3 attempts: "
                        ++ ax_message last) None),
       repeat (mkRequest "cycling-road" nearPair) 3).
Proof.
  destruct (callOpenRouteService_gives_up_after_retries (rt := Approx.runtime)
              (Some "key"%string)
              (fun _ _ => HttpErr (mkAxiosError "Service Unavailable" (Some 503%Z) None))
              nearPair "cycling-road" 2 [])
    as (last & _ & Hcall).
  - reflexivity.
  - vm_compute. reflexivity.
  - apply (validateCoordinates_None (rt := Approx.runtime) nearPair 0%nat).
    vm_compute. reflexivity.
  - intros i _. simpl. repeat split; discriminate.
  - exists last. exact Hcall.
Defined.

Lemma callOpenRouteService_returns_first_success_witness :
  callOpenRouteService (rt := Approx.runtime) (Some "key"%string)
                       (fun k req =>
                          match k with
                          | O => HttpErr (mkAxiosError "timeout" None None)
                          | S _ => HttpOk (measuring 10 1800 (req_coordinates req))
                          end)
                       nearPair "cycling-road" 2 []
  = (Returned (measuring 10 1800 nearPair), repeat (mkRequest "cycling-road" nearPair) 2).
Proof.
  apply (callOpenRouteService_returns_first_success (rt := Approx.runtime)
           (Some "key"%string)
           (fun k req =>
              match k with
              | O => HttpErr (mkAxiosError "timeout" None None)
              | S _ => HttpOk (measuring 10 1800 (req_coordinates req))
              end)
           nearPair "cycling-road" 2 [] 1 (measuring 10 1800 nearPair)).
  - reflexivity.
  - vm_compute. reflexivity.
  - apply (validateCoordinates_None (rt := Approx.runtime) nearPair 0%nat).
    vm_compute. reflexivity.
  - lia.
  - intros i Hi. replace i with 0%nat by lia. exact I.
  - reflexivity.
Defined.

(** ** Invariants of the retry loops *)

Section LoopInvariants.
Variables (St R : Type).
Variable body : St -> St + R.
Variable after : St -> R.

Lemma for_loop_invariant (Inv : St -> Prop) (Post : R -> Prop) :
  (forall s s', Inv s -> body s = inl s' -> Inv s') ->
  (forall s r, Inv s -> body s = inr r -> Post r) ->
  (forall s, Inv s -> Post (after s)) ->
  forall k s, Inv s -> Post (for_loop body after k s).
Proof.
  intros Hstep Hexit Hafter. induction k as [|k IH]; intros s Hs; simpl.
  - apply Hafter. exact Hs.
  - destruct (body s) as [s'|r] eqn:Hb.
    + apply IH. exact (Hstep _ _ Hs Hb).
    + exact (Hexit _ _ Hs Hb).
Qed.

Lemma for_loop_cost (size : St -> nat) (rsize : R -> nat) (c : nat) :
  (forall s s', body s = inl s' -> (size s' <= size s + c)%nat) ->
  (forall s r, body s = inr r -> (rsize r <= size s + c)%nat) ->
  (forall s, (rsize (after s) <= size s)%nat) ->
  forall k s, (rsize (for_loop body after k s) <= size s + c * k)%nat.
Proof.
  intros Hstep Hexit Hafter. induction k as [|k IH]; intros s; simpl.
  - specialize (Hafter s). lia.
  - destruct (body s) as [s'|r] eqn:Hb.
    + specialize (IH s'). apply Hstep in Hb. lia.
    + apply Hexit in Hb. lia.
Qed.

End LoopInvariants.

Section WalkingInvariants.
Context {rt : JsRuntime} {World : Type}.
Variable geoOracle : list Coord -> string -> World -> Completion ResponseData * World.
Variables centerLat centerLng : Q.
Variable numPoints : Z.
Variable maxRetries : nat.
Hypothesis numPoints_pos : (0 < numPoints)%Z.

(** The four ways an iteration of the walking loop ends. *)
Lemma walk_body_cases (s : WalkLoop World) :
  let s1 := called s (snd (geoOracle (wl_waypoints s) "foot-walking" (wl_world s))) in
  (exists out, walk_body geoOracle centerLat centerLng numPoints maxRetries s = inr (out, s1))
  \/ walk_body geoOracle centerLat centerLng numPoints maxRetries s = inl (walk_next s1)
  \/ exists factor,
      walk_body geoOracle centerLat centerLng numPoints maxRetries s
      = inl (mkWalkLoop (S (wl_attempt s))
                        (ringAt centerLat centerLng numPoints (wl_radius s * factor))
                        (wl_radius s * factor) (wl_world s1) (wl_calls s1)).
Proof.
  unfold walk_body, walk_try, walk_regenerate.
  destruct (geoOracle (wl_waypoints s) "foot-walking" (wl_world s)) as [[resp|e] w1];
    cbn [snd].
  - destruct (routeDistanceKm resp) as [[d|]|e]; cbn [numGeb numLeb numGtb numLtb andb].
    2:{ left. eexists. reflexivity. }
    + destruct (Qgeb d 5 && Qleb d 15); [left; eexists; reflexivity|].
      destruct (Qgtb d 15).
      { right. right. exists (8 # 10).
        rewrite ringWaypoints_returns by exact numPoints_pos. reflexivity. }
      destruct (Qltb d 5).
      { right. right. exists (13 # 10).
        rewrite ringWaypoints_returns by exact numPoints_pos. reflexivity. }
      left. eexists. reflexivity.
    + destruct (_ =? _); [left; eexists; reflexivity|right; left; reflexivity].
  - destruct (_ =? _); [left; eexists; reflexivity|right; left; reflexivity].
Qed.

End WalkingInvariants.

Lemma ringAt_closed {rt : JsRuntime} (centerLat centerLng : Q) (numPoints : Z) (radiusKm : Q) :
  (0 < numPoints)%Z ->
  let ring := ringAt centerLat centerLng numPoints radiusKm in
  List.length ring = S (Z.to_nat numPoints)
  /\ nth_error ring (Z.to_nat numPoints) = nth_error ring 0
  /\ nth_error ring 0 <> None.
Proof.
  intros Hpos ring. subst ring. unfold ringAt.
  destruct (Z.to_nat numPoints) as [|n] eqn:Hn; [lia|].
  split; [|split].
  - rewrite length_app, length_map, length_seq. simpl. lia.
  - rewrite nth_error_app2 by (rewrite length_map, length_seq; lia).
    rewrite length_map, length_seq, Nat.sub_diag. reflexivity.
  - simpl. discriminate.
Qed.

(** Every routing call of the walking search, started as
    [generateWalkingRoute] starts it, is made with the profile
    [foot-walking] and with a ring of waypoints around the centre:
    [numPoints + 1] points, the last one equal to the first. *)
Theorem walking_calls_are_closed_rings
        {rt : JsRuntime} {World : Type}
        (geoOracle : list Coord -> string -> World -> Completion ResponseData * World)
        (targetDistance centerLat centerLng baseRadiusKm : Q) (maxRetries : nat) (w : World) :
  let numPoints := numPointsFor targetDistance in
  let search := validateAndRetryRoute geoOracle centerLat centerLng numPoints baseRadiusKm
                  (ringAt centerLat centerLng numPoints baseRadiusKm) maxRetries w in
  Forall (fun c =>
            call_profile c = "foot-walking"%string
            /\ (exists radiusKm,
                   call_waypoints c = ringAt centerLat centerLng numPoints radiusKm)
            /\ List.length (call_waypoints c) = S (Z.to_nat numPoints)
            /\ nth_error (call_waypoints c) (Z.to_nat numPoints)
               = nth_error (call_waypoints c) 0)
         (wl_calls (snd search)).
Proof.
  intros numPoints search. subst search.
  assert (Hpos : (0 < numPoints)%Z).
  { subst numPoints. pose proof (numPointsFor_clamped targetDistance). lia. }
  set (good := fun c : Call =>
                 call_profile c = "foot-walking"%string
                 /\ (exists radiusKm,
                        call_waypoints c = ringAt centerLat centerLng numPoints radiusKm)
                 /\ List.length (call_waypoints c) = S (Z.to_nat numPoints)
                 /\ nth_error (call_waypoints c) (Z.to_nat numPoints)
                    = nth_error (call_waypoints c) 0).
  set (Inv := fun s : WalkLoop World =>
                wl_waypoints s = ringAt centerLat centerLng numPoints (wl_radius s)
                /\ Forall good (wl_calls s)).
  assert (Hcalled : forall s w1, Inv s -> Inv (called s w1)).
  { intros s w1 [Hwp Hcalls]. split; [exact Hwp|].
    unfold called. cbn [wl_calls]. apply Forall_app. split; [exact Hcalls|].
    constructor; [|constructor].
    unfold good. cbn [call_profile call_waypoints]. rewrite Hwp.
    destruct (ringAt_closed centerLat centerLng numPoints (wl_radius s) Hpos)
      as (Hlen & Hlast & _).
    split; [reflexivity|]. split; [eexists; reflexivity|]. split; assumption. }
  unfold validateAndRetryRoute.
  apply (for_loop_invariant _ _ _ _ Inv (fun r => Forall good (wl_calls (snd r)))).
  - intros s s' Hs Hb.
    destruct (walk_body_cases geoOracle centerLat centerLng numPoints maxRetries Hpos s)
      as [[out Hout]|[Hnext|[factor Hf]]].
    + rewrite Hout in Hb. discriminate.
    + rewrite Hnext in Hb. inversion Hb; subst.
      destruct (Hcalled s (snd (geoOracle (wl_waypoints s) "foot-walking"%string
                                          (wl_world s))) Hs) as [H1 H2].
      split; assumption.
    + rewrite Hf in Hb. inversion Hb; subst.
      destruct (Hcalled s (snd (geoOracle (wl_waypoints s) "foot-walking"%string
                                          (wl_world s))) Hs) as [H1 H2].
      split; [reflexivity|exact H2].
  - intros s r Hs Hb.
    destruct (walk_body_cases geoOracle centerLat centerLng numPoints maxRetries Hpos s)
      as [[out Hout]|[Hnext|[factor Hf]]].
    + rewrite Hout in Hb. inversion Hb; subst. cbn [snd].
      apply (Hcalled s _ Hs).
    + rewrite Hnext in Hb. discriminate.
    + rewrite Hf in Hb. discriminate.
  - intros s [_ Hcalls]. exact Hcalls.
  - split; [reflexivity|constructor].
Qed.

Section CyclingInvariants.
Context {rt : JsRuntime} {World : Type}.
Variable geoOracle : list Coord -> string -> World -> Completion ResponseData * World.
Variable waypoints : Coord * Coord.
Variable maxRetries : nat.

(** The three ways the [catch] block of the cycling loop ends. *)
Lemma cycle_catch_cases (e : JsError) (s1 : CycleLoop World) :
  let moved := cycle_set_waypoints s1 (rotatedWaypoints waypoints (cl_attempt s1)) in
  (statusIs (response_status e) 404 = true
   /\ exists profile,
       cycle_catch waypoints maxRetries e s1 = inl (cycle_next (cycle_set_profile s1 profile)))
  \/ cycle_catch waypoints maxRetries e s1 = inr (Thrown e, moved)
  \/ cycle_catch waypoints maxRetries e s1 = inl (cycle_next moved).
Proof.
  unfold cycle_catch.
  destruct (statusIs (response_status e) 404) eqn:Hstatus; cbn [andb].
  - destruct (includes (message e) "profile not found").
    + destruct (_ <? _)%Z.
      * left. split; [reflexivity|]. eexists. reflexivity.
      * right. destruct (_ =? _); [left|right]; reflexivity.
    + right. destruct (_ =? _); [left|right]; reflexivity.
  - right. destruct (_ =? _); [left|right]; reflexivity.
Qed.

(** The three ways an iteration of the cycling loop ends. *)
Lemma cycle_body_cases (s : CycleLoop World) :
  let out := geoOracle (pairList (cl_waypoints s)) (cl_profile s) (cl_world s) in
  let s1 := mkCycleLoop (cl_attempt s) (cl_waypoints s) (cl_profile s) (snd out)
                        (cl_calls s ++ [mkCall (pairList (cl_waypoints s)) (cl_profile s)]) in
  (exists response d,
      routeDistanceKm response = Returned d
      /\ (d = NaN \/ numWithin d 5 60 \/ (3 <= cl_attempt s)%nat)
      /\ cycle_body geoOracle waypoints maxRetries s = inr (Returned (response, d), s1))
  \/ (exists k,
         cycle_body geoOracle waypoints maxRetries s
         = inl (cycle_next (cycle_set_waypoints s1 (rescaleEnd (cl_waypoints s) k))))
  \/ (exists e,
         (fst out = Thrown e \/ e = typeError "properties")
         /\ cycle_body geoOracle waypoints maxRetries s
            = cycle_catch waypoints maxRetries e s1).
Proof.
  unfold cycle_body, cycle_try.
  destruct (geoOracle (pairList (cl_waypoints s)) (cl_profile s) (cl_world s))
    as [[response|e] w1]; cbn [fst snd].
  - destruct (routeDistanceKm response) as [[d|]|e] eqn:Hd;
      cbn [numGeb numLeb numGtb numLtb andb].
    2:{ left. exists response, NaN. split; [exact Hd|]. split; [|reflexivity].
        left. reflexivity. }
    + destruct (Qgeb d 5 && Qleb d 60) eqn:Hband.
      { left. exists response, (Num d). split; [exact Hd|]. split; [|reflexivity].
        right. left. apply andb_true_iff in Hband. destruct Hband as [Hlo Hhi].
        split; [apply Qgeb_le|apply Qleb_le]; assumption. }
      cbn [cl_attempt cl_waypoints].
      destruct (cl_attempt s <? 3)%nat eqn:Hearly.
      * destruct (Qltb d 5) eqn:Hshort; cbn [andb].
        { right. left. exists 2. reflexivity. }
        destruct (Qgtb d 60) eqn:Hlong; cbn [andb].
        { right. left. exists (6 # 10). reflexivity. }
        exfalso. apply andb_false_iff in Hband.
        apply Qltb_ge in Hshort. unfold Qgtb in Hlong. apply Qltb_ge in Hlong.
        destruct Hband as [Hb|Hb].
        -- unfold Qgeb in Hb. apply Qleb_gt in Hb. exact (Qlt_not_le _ _ Hb Hshort).
        -- apply Qleb_gt in Hb. exact (Qlt_not_le _ _ Hb Hlong).
      * rewrite !andb_false_r. left. exists response, (Num d).
        split; [exact Hd|]. split; [|reflexivity].
        right. right. apply Nat.ltb_ge in Hearly. exact Hearly.
    + right. right. exists e. split; [|reflexivity]. right.
      unfold routeDistanceKm in Hd. destruct (features response); inversion Hd. reflexivity.
  - right. right. exists e. split; [left; reflexivity|reflexivity].
Qed.

End CyclingInvariants.

(** Every routing call of a day's search starts at the start the search was
    given: the loop moves the end point only, and each call carries exactly
    two points. *)
Theorem cycling_calls_keep_the_start
        {rt : JsRuntime} {World : Type}
        (geoOracle : list Coord -> string -> World -> Completion ResponseData * World)
        (waypoints : Coord * Coord) (routeName : string) (maxRetries : nat) (w : World) :
  Forall (fun c => exists finish, call_waypoints c = [fst waypoints; finish])
         (cl_calls (snd (generateCityRouteWithRetry geoOracle waypoints routeName
                                                    maxRetries w))).
Proof.
  set (good := fun c : Call => exists finish, call_waypoints c = [fst waypoints; finish]).
  set (Inv := fun s : CycleLoop World =>
                fst (cl_waypoints s) = fst waypoints /\ Forall good (cl_calls s)).
  assert (Hcall : forall s, Inv s ->
             Forall good (cl_calls s ++ [mkCall (pairList (cl_waypoints s)) (cl_profile s)])).
  { intros s [Hstart Hcalls]. apply Forall_app. split; [exact Hcalls|].
    constructor; [|constructor]. exists (snd (cl_waypoints s)).
    unfold pairList. cbn [call_waypoints]. rewrite Hstart. reflexivity. }
  assert (Hrescale : forall wp k, fst (rescaleEnd wp k) = fst wp).
  { intros [a b] k. reflexivity. }
  unfold generateCityRouteWithRetry.
  apply (for_loop_invariant _ _ _ _ Inv (fun r => Forall good (cl_calls (snd r)))).
  - intros s s' Hs Hb.
    destruct (cycle_body_cases geoOracle waypoints maxRetries s)
      as [(response & d & _ & _ & Hret)|[(k & Hk)|(e & _ & Hcatch)]].
    + rewrite Hret in Hb. discriminate.
    + rewrite Hk in Hb. inversion Hb; subst. split.
      * cbn. rewrite Hrescale. apply Hs.
      * cbn. apply Hcall. exact Hs.
    + rewrite Hcatch in Hb.
      match type of Hb with cycle_catch _ _ _ ?s1 = _ =>
        destruct (cycle_catch_cases waypoints maxRetries e s1)
          as [(_ & profile & Hp)|[Hthrow|Hmove]] end.
      * rewrite Hp in Hb. inversion Hb; subst. split; cbn; [apply Hs|apply Hcall; exact Hs].
      * rewrite Hthrow in Hb. discriminate.
      * rewrite Hmove in Hb. inversion Hb; subst.
        split; cbn; [reflexivity|apply Hcall; exact Hs].
  - intros s r Hs Hb.
    destruct (cycle_body_cases geoOracle waypoints maxRetries s)
      as [(response & d & _ & _ & Hret)|[(k & Hk)|(e & _ & Hcatch)]].
    + rewrite Hret in Hb. inversion Hb; subst. cbn. apply Hcall. exact Hs.
    + rewrite Hk in Hb. discriminate.
    + rewrite Hcatch in Hb.
      match type of Hb with cycle_catch _ _ _ ?s1 = _ =>
        destruct (cycle_catch_cases waypoints maxRetries e s1)
          as [(_ & profile & Hp)|[Hthrow|Hmove]] end.
      * rewrite Hp in Hb. discriminate.
      * rewrite Hthrow in Hb. inversion Hb; subst. cbn. apply Hcall. exact Hs.
      * rewrite Hmove in Hb. discriminate.
  - intros s [_ Hcalls]. exact Hcalls.
  - split; [reflexivity|constructor].
Qed.

(** A day's search that returns at one of its first three attempts returns
    a measured distance within [5, 60] km or, when a segment of the response
    lacks its distance, [NaN]; a number outside that band is returned from
    the fourth attempt on only. *)
Theorem cycling_early_return_in_band_or_NaN
        {rt : JsRuntime} {World : Type}
        (geoOracle : list Coord -> string -> World -> Completion ResponseData * World)
        (waypoints : Coord * Coord) (routeName : string) (maxRetries : nat) (w : World)
        (response : ResponseData) (d : JsNumber) (s : CycleLoop World)
        (Hreturned : generateCityRouteWithRetry geoOracle waypoints routeName maxRetries w
                     = (Returned (response, d), s))
        (Hearly : (cl_attempt s < 3)%nat) :
  routeDistanceKm response = Returned d
  /\ (d = NaN \/ numWithin d 5 60).
Proof.
  split.
  { unfold generateCityRouteWithRetry in Hreturned.
    exact (cycle_loop_returns_measured _ _ _ _ _ _ _ _ _ Hreturned). }
  assert (Hpost :
            match generateCityRouteWithRetry geoOracle waypoints routeName maxRetries w with
            | (Returned (_, d'), s') =>
                d' = NaN \/ numWithin d' 5 60 \/ (3 <= cl_attempt s')%nat
            | (Thrown _, _) => True
            end).
  { unfold generateCityRouteWithRetry.
    apply (for_loop_invariant _ _ _ _ (fun _ => True)
             (fun r : Completion (ResponseData * JsNumber) * CycleLoop World =>
                match r with
                | (Returned (_, d'), s') =>
                    d' = NaN \/ numWithin d' 5 60 \/ (3 <= cl_attempt s')%nat
                | (Thrown _, _) => True
                end)); auto.
    - intros s0 r _ Hb.
      destruct (cycle_body_cases geoOracle waypoints maxRetries s0)
        as [(response' & d' & _ & Hband & Hret)|[(k & Hk)|(e & _ & Hcatch)]].
      + rewrite Hret in Hb. inversion Hb; subst. exact Hband.
      + rewrite Hk in Hb. discriminate.
      + rewrite Hcatch in Hb. destruct r as [[[resp' d']|e'] s'']; [|exact I].
        exfalso. exact (cycle_catch_never_returns _ _ _ _ _ _ Hb). }
  rewrite Hreturned in Hpost.
  destruct Hpost as [Hnan|[Hband|Hlate]]; [left; exact Hnan|right; exact Hband|lia].
Qed.

(** Against a provider whose responses lack the distance of their segment,
    the first response is returned at the first attempt with the distance
    [NaN]. *)
Lemma cycling_early_return_in_band_or_NaN_witness :
  exists response s,
    generateCityRouteWithRetry (rt := Approx.runtime)
                               (scripted (fun _ waypoints _ =>
                                            Returned (unmeasured 3600 waypoints)))
                               (fst (proposedWaypoints (rt := Approx.runtime)
                                                       sampleCenter sampleDraws))
                               "Day 1" 8 0%nat
    = (Returned (response, NaN), s)
    /\ routeDistanceKm response = Returned NaN.
Proof.
  assert (Hrun : exists response s,
             generateCityRouteWithRetry (rt := Approx.runtime)
                                        (scripted (fun _ waypoints _ =>
                                                     Returned (unmeasured 3600 waypoints)))
                                        (fst (proposedWaypoints (rt := Approx.runtime)
                                                                sampleCenter sampleDraws))
                                        "Day 1" 8 0%nat
             = (Returned (response, NaN), s)
             /\ (cl_attempt s < 3)%nat).
  { vm_compute. eexists. eexists. split; [reflexivity|].
    cbn [cl_attempt]. lia. }
  destruct Hrun as (response & s & Hrun & Hearly).
  exists response, s. split; [exact Hrun|].
  exact (proj1 (cycling_early_return_in_band_or_NaN _ _ _ _ _ _ _ _ Hrun Hearly)).
Defined.

(** ** The searches over the network *)

Lemma routingCall_thrown_status {rt : JsRuntime} (apiKey : option string) (net : Network)
      (coords : list Coord) (profile : string) (w : NetLog) (e : JsError) :
  fst (routingCall apiKey net coords profile w) = Thrown e -> response_status e = None.
Proof.
  unfold routingCall. intros H.
  destruct (callOpenRouteService apiKey net coords profile 2 w) as [out w'] eqn:Hcall.
  simpl in H. subst out. exact (callOpenRouteService_thrown_status _ _ _ _ _ _ _ _ Hcall).
Qed.

Lemma routingCall_cost {rt : JsRuntime} (apiKey : option string) (net : Network)
      (coords : list Coord) (profile : string) (w : NetLog) :
  (List.length (snd (routingCall apiKey net coords profile w)) <= List.length w + 6)%nat.
Proof.
  unfold routingCall.
  destruct (callOpenRouteService_log apiKey net coords profile 2 w) as (k & Hlog & Hk & _).
  rewrite Hlog, length_app, repeat_length. lia.
Qed.

(** Over [callOpenRouteService], a day's cycling search requests the profile
    [cycling-road] at every call: no error that call throws carries a
    [response], so the switch to [cycling-regular] never happens. *)
Theorem cycling_fallback_profile_is_never_requested
        {rt : JsRuntime} (apiKey : option string) (net : Network)
        (waypoints : Coord * Coord) (routeName : string) (maxRetries : nat) (w : NetLog) :
  Forall (fun c => call_profile c = "cycling-road"%string)
         (cl_calls (snd (generateCityRouteWithRetry (routingCall apiKey net) waypoints
                                                    routeName maxRetries w))).
Proof.
  set (good := fun c : Call => call_profile c = "cycling-road"%string).
  set (Inv := fun s : CycleLoop NetLog =>
                cl_profile s = "cycling-road"%string /\ Forall good (cl_calls s)).
  assert (Hcall : forall s, Inv s ->
             Forall good (cl_calls s ++ [mkCall (pairList (cl_waypoints s)) (cl_profile s)])).
  { intros s [Hprofile Hcalls]. apply Forall_app. split; [exact Hcalls|].
    constructor; [|constructor]. exact Hprofile. }
  assert (Hplain : forall (s : CycleLoop NetLog) e,
             fst (routingCall apiKey net (pairList (cl_waypoints s)) (cl_profile s)
                              (cl_world s)) = Thrown e
             \/ e = typeError "properties" ->
             statusIs (response_status e) 404 = false).
  { intros s e [He|He].
    - rewrite (routingCall_thrown_status _ _ _ _ _ _ He). reflexivity.
    - subst e. reflexivity. }
  unfold generateCityRouteWithRetry.
  apply (for_loop_invariant _ _ _ _ Inv (fun r => Forall good (cl_calls (snd r)))).
  - intros s s' Hs Hb.
    destruct (cycle_body_cases (routingCall apiKey net) waypoints maxRetries s)
      as [(response & d & _ & _ & Hret)|[(k & Hk)|(e & He & Hcatch)]].
    + rewrite Hret in Hb. discriminate.
    + rewrite Hk in Hb. inversion Hb; subst. split; cbn; [apply Hs|apply Hcall; exact Hs].
    + rewrite Hcatch in Hb.
      match type of Hb with cycle_catch _ _ _ ?s1 = _ =>
        destruct (cycle_catch_cases waypoints maxRetries e s1)
          as [(H404 & _)|[Hthrow|Hmove]] end.
      * rewrite (Hplain s e He) in H404. discriminate.
      * rewrite Hthrow in Hb. discriminate.
      * rewrite Hmove in Hb. inversion Hb; subst.
        split; cbn; [apply Hs|apply Hcall; exact Hs].
  - intros s r Hs Hb.
    destruct (cycle_body_cases (routingCall apiKey net) waypoints maxRetries s)
      as [(response & d & _ & _ & Hret)|[(k & Hk)|(e & He & Hcatch)]].
    + rewrite Hret in Hb. inversion Hb; subst. cbn. apply Hcall. exact Hs.
    + rewrite Hk in Hb. discriminate.
    + rewrite Hcatch in Hb.
      match type of Hb with cycle_catch _ _ _ ?s1 = _ =>
        destruct (cycle_catch_cases waypoints maxRetries e s1)
          as [(H404 & _)|[Hthrow|Hmove]] end.
      * rewrite (Hplain s e He) in H404. discriminate.
      * rewrite Hthrow in Hb. inversion Hb; subst. cbn. apply Hcall. exact Hs.
      * rewrite Hmove in Hb. discriminate.
  - intros s [_ Hcalls]. exact Hcalls.
  - split; [reflexivity|constructor].
Qed.

Lemma walk_loop_cost {rt : JsRuntime} (apiKey : option string) (net : Network)
      (centerLat centerLng baseRadiusKm : Q) (numPoints : Z) (initialWaypoints : list Coord)
      (maxRetries : nat) (w : NetLog) :
  (0 < numPoints)%Z ->
  (List.length (wl_world (snd (validateAndRetryRoute (routingCall apiKey net) centerLat
                                 centerLng numPoints baseRadiusKm initialWaypoints
                                 maxRetries w)))
   <= List.length w + 6 * maxRetries)%nat.
Proof.
  intros Hpos. unfold validateAndRetryRoute.
  apply (for_loop_cost _ _ _ _ (fun s : WalkLoop NetLog => List.length (wl_world s))
           (fun r => List.length (wl_world (snd r))) 6).
  - intros s s' Hb.
    destruct (walk_body_cases (routingCall apiKey net) centerLat centerLng numPoints
                              maxRetries Hpos s) as [[out Hout]|[Hnext|[factor Hf]]].
    + rewrite Hout in Hb. discriminate.
    + rewrite Hnext in Hb. inversion Hb; subst. cbn. apply routingCall_cost.
    + rewrite Hf in Hb. inversion Hb; subst. cbn. apply routingCall_cost.
  - intros s r Hb.
    destruct (walk_body_cases (routingCall apiKey net) centerLat centerLng numPoints
                              maxRetries Hpos s) as [[out Hout]|[Hnext|[factor Hf]]].
    + rewrite Hout in Hb. inversion Hb; subst. cbn. apply routingCall_cost.
    + rewrite Hnext in Hb. discriminate.
    + rewrite Hf in Hb. discriminate.
  - intros s. apply le_n.
Qed.

Lemma cycle_loop_cost {rt : JsRuntime} (apiKey : option string) (net : Network)
      (waypoints : Coord * Coord) (routeName : string) (maxRetries : nat) (w : NetLog) :
  (List.length (cl_world (snd (generateCityRouteWithRetry (routingCall apiKey net) waypoints
                                 routeName maxRetries w)))
   <= List.length w + 6 * maxRetries)%nat.
Proof.
  unfold generateCityRouteWithRetry.
  apply (for_loop_cost _ _ _ _ (fun s : CycleLoop NetLog => List.length (cl_world s))
           (fun r => List.length (cl_world (snd r))) 6).
  - intros s s' Hb.
    destruct (cycle_body_cases (routingCall apiKey net) waypoints maxRetries s)
      as [(response & d & _ & _ & Hret)|[(k & Hk)|(e & _ & Hcatch)]].
    + rewrite Hret in Hb. discriminate.
    + rewrite Hk in Hb. inversion Hb; subst. cbn. apply routingCall_cost.
    + rewrite Hcatch in Hb.
      match type of Hb with cycle_catch _ _ _ ?s1 = _ =>
        destruct (cycle_catch_cases waypoints maxRetries e s1)
          as [(_ & profile & Hp)|[Hthrow|Hmove]] end.
      * rewrite Hp in Hb. inversion Hb; subst. cbn. apply routingCall_cost.
      * rewrite Hthrow in Hb. discriminate.
      * rewrite Hmove in Hb. inversion Hb; subst. cbn. apply routingCall_cost.
  - intros s r Hb.
    destruct (cycle_body_cases (routingCall apiKey net) waypoints maxRetries s)
      as [(response & d & _ & _ & Hret)|[(k & Hk)|(e & _ & Hcatch)]].
    + rewrite Hret in Hb. inversion Hb; subst. cbn. apply routingCall_cost.
    + rewrite Hk in Hb. discriminate.
    + rewrite Hcatch in Hb.
      match type of Hb with cycle_catch _ _ _ ?s1 = _ =>
        destruct (cycle_catch_cases waypoints maxRetries e s1)
          as [(_ & profile & Hp)|[Hthrow|Hmove]] end.
      * rewrite Hp in Hb. discriminate.
      * rewrite Hthrow in Hb. inversion Hb; subst. cbn. apply routingCall_cost.
      * rewrite Hmove in Hb. discriminate.
  - intros s. apply le_n.
Qed.

(** Over [callOpenRouteService], [generateWalkingRoute] sends at most 48
    requests to the provider and [generateCyclingRoute] at most 96: eight
    attempts per search, three tries per attempt, and one more request for
    each try answered 429. *)
Theorem route_generation_request_budget
        {rt : JsRuntime} (apiKey : option string) (net : Network) (w : NetLog) :
  (forall geocoded,
      (List.length (snd (generateWalkingRoute (routingCall apiKey net) geocoded w))
       <= List.length w + 48)%nat)
  /\ (forall geocoded r,
         (List.length (snd (generateCyclingRoute (routingCall apiKey net) geocoded r w))
          <= List.length w + 96)%nat).
Proof.
  split.
  - intros geocoded. unfold generateWalkingRoute.
    destruct geocoded as [[center|]|e]; cbn [snd]; try lia.
    destruct (ringWaypoints _ _ _ _) as [ring|e]; cbn [snd]; try lia.
    pose proof (walk_loop_cost apiKey net (lat center) (lng center)
                  (baseRadiusKmFor walkingTargetDistance)
                  (numPointsFor walkingTargetDistance) ring 8 w) as Hcost.
    destruct (validateAndRetryRoute _ _ _ _ _ _ _ _) as [[response|e] s];
      cbn [snd] in *; apply Hcost; reflexivity.
  - intros geocoded r. unfold generateCyclingRoute.
    destruct geocoded as [[startCenter|]|e]; cbn [snd]; try lia.
    destruct (proposedWaypoints startCenter r) as [day1Waypoints day2Waypoints].
    pose proof (cycle_loop_cost apiKey net day1Waypoints "Day 1" 8 w) as Hday1.
    destruct (generateCityRouteWithRetry _ day1Waypoints _ _ _) as [[[response1 d1]|e] s1];
      cbn [snd] in *; [|lia].
    pose proof (cycle_loop_cost apiKey net (snd day1Waypoints, snd day2Waypoints)
                  "Day 2" 8 (cl_world s1)) as Hday2.
    destruct (generateCityRouteWithRetry _ (snd day1Waypoints, snd day2Waypoints) _ _ _)
      as [[[response2 d2]|e] s2]; cbn [snd] in *; [|lia].
    destruct (features response1); [cbn [snd]; lia|].
    destruct (features response2); cbn [snd]; lia.
Qed.

(** ** The limiter of route generation *)

Lemma Qceiling_div (x y : Z) :
  (0 < y)%Z -> Qceiling (inject_Z x / inject_Z y) = (- ((- x) / y))%Z.
Proof.
  intros Hy. destruct y as [|p|p]; try lia.
  unfold Qceiling, Qfloor, Qdiv, Qmult, Qinv, Qopp, inject_Z. simpl.
  rewrite Z.mul_1_r. reflexivity.
Qed.

(** One request through the limiter.  When it is let through, the session
    holds the earlier timestamps still inside the five-minute window followed
    by the present time, at most three in all.  When it is refused, the
    session is left as it was and [retryAfter] is at least one second; it is
    at most 300 seconds when no stored timestamp is in the future. *)
Theorem routeGenerationLimiter_step (routeRequests : list Z) (now : Z) :
  match routeGenerationLimiter routeRequests now with
  | (LimiterNext, session) =>
      session = (filter (inWindow now) routeRequests ++ [now])%list
      /\ (List.length session <= 3)%nat
      /\ Forall (fun t => inWindow now t = true) session
  | (LimiterTooMany retryAfter, session) =>
      session = routeRequests
      /\ (3 <= List.length (filter (inWindow now) routeRequests))%nat
      /\ (1 <= retryAfter)%Z
      /\ (Forall (fun t => (t <= now)%Z) routeRequests -> (retryAfter <= 300)%Z)
  end.
Proof.
  unfold routeGenerationLimiter.
  change (fun timestamp : Z => (now - timestamp <? limiterWindowMs)%Z) with (inWindow now).
  destruct (limiterMaxRequests <=? List.length (filter (inWindow now) routeRequests))%nat
    eqn:Hfull.
  - apply Nat.leb_le in Hfull. unfold limiterMaxRequests in Hfull.
    split; [reflexivity|]. split; [exact Hfull|].
    destruct (filter (inWindow now) routeRequests) as [|t rest] eqn:Hrecent;
      [simpl in Hfull; lia|].
    assert (Hin : In t (filter (inWindow now) routeRequests)) by (rewrite Hrecent; left; reflexivity).
    apply filter_In in Hin. destruct Hin as [Hmem Hwin].
    unfold inWindow in Hwin. apply Z.ltb_lt in Hwin. unfold limiterWindowMs in *.
    cbn [hd]. change 1000 with (inject_Z 1000). rewrite Qceiling_div by lia.
    split.
    + assert (((- (t + 5 * 60 * 1000 - now)) / 1000 < 0)%Z);
        [apply Z.div_lt_upper_bound; lia|lia].
    + intros Hpast. rewrite Forall_forall in Hpast. specialize (Hpast t Hmem).
      assert ((-300 <= (- (t + 5 * 60 * 1000 - now)) / 1000)%Z);
        [apply Z.div_le_lower_bound; lia|lia].
  - apply Nat.leb_gt in Hfull. unfold limiterMaxRequests in Hfull.
    split; [reflexivity|]. split.
    + rewrite length_app. simpl. lia.
    + apply Forall_app. split.
      * apply Forall_forall. intros t Ht. apply filter_In in Ht. tauto.
      * constructor; [|constructor]. unfold inWindow, limiterWindowMs.
        apply Z.ltb_lt. lia.
Qed.


(** ** Pagination of the routes of a user *)

Lemma ceiling_pages (total limit : Z) :
  (0 < limit)%Z ->
  let pages := (- ((- total) / limit))%Z in
  (total <= pages * limit)%Z /\ ((pages - 1) * limit < total)%Z.
Proof.
  intros Hlimit pages. subst pages.
  pose proof (Z.div_mod (- total) limit) as Hdiv.
  pose proof (Z.mod_pos_bound (- total) limit Hlimit) as Hmod.
  split; nia.
Qed.

(** For a page number and a limit of at least 1, [getUserRoutesFromDb]
    returns the routes of the page, at most [limit] of them; [totalPages] is
    the least number of pages that holds all the routes; [hasNextPage] is
    true exactly when routes remain after the ones returned, and
    [hasPrevPage] exactly when the page is not the first. *)
Theorem getUserRoutesFromDb_pages
        {A : Type} (matching : list A) (page limit : Z)
        (Hpage : (1 <= page)%Z) (Hlimit : (1 <= limit)%Z) :
  let result := getUserRoutesFromDb matching page limit in
  let total := Z.of_nat (List.length matching) in
  let skip := ((page - 1) * limit)%Z in
  let returned := Z.of_nat (List.length (fst result)) in
  returned = Z.max 0 (Z.min limit (total - skip))
  /\ (total <= totalPages (snd result) * limit)%Z
  /\ ((totalPages (snd result) - 1) * limit < total)%Z
  /\ (hasNextPage (snd result) = true <-> (skip + returned < total)%Z)
  /\ (hasPrevPage (snd result) = true <-> (1 < page)%Z)
  /\ totalRoutes (snd result) = total
  /\ currentPage (snd result) = page.
Proof.
  intros result total skip returned.
  assert (Hreturned : returned = Z.max 0 (Z.min limit (total - skip))).
  { subst returned result. unfold getUserRoutesFromDb. cbn [fst].
    rewrite length_firstn, length_skipn. fold skip. subst total. nia. }
  subst result. unfold getUserRoutesFromDb, paginationOf.
  cbn [snd totalPages hasNextPage hasPrevPage totalRoutes currentPage].
  fold total. rewrite Qceiling_div by lia.
  destruct (ceiling_pages total limit) as [Hup Hdown]; [lia|].
  split; [exact Hreturned|]. split; [exact Hup|]. split; [exact Hdown|].
  split; [|split; [apply Z.ltb_lt|split; reflexivity]].
  rewrite Z.ltb_lt. rewrite Hreturned. subst skip. split; intros H; nia.
Qed.

Lemma getUserRoutesFromDb_pages_witness :
  fst (getUserRoutesFromDb [1; 2; 3; 4; 5]%nat 2 2) = [3; 4]%nat
  /\ (hasNextPage (snd (getUserRoutesFromDb [1; 2; 3; 4; 5]%nat 2 2)) = true
      <-> (2 + 2 < 5)%Z).
Proof.
  split; [reflexivity|].
  destruct (getUserRoutesFromDb_pages [1; 2; 3; 4; 5]%nat 2 2) as (_ & _ & _ & Hnext & _);
    [lia|lia|].
  exact Hnext.
Defined.

(** ** The image address kept with a saved route *)

Lemma prefix_append (p x : string) : String.prefix p (p ++ x) = true.
Proof.
  induction p as [|a p IH]; simpl; [destruct x; reflexivity|].
  destruct (ascii_dec a a) as [_|Hne]; [exact IH|contradiction].
Qed.

Lemma prefix_split (p : string) :
  forall s, String.prefix p s = true -> exists rest, s = (p ++ rest)%string.
Proof.
  induction p as [|a p IH]; intros s H.
  - exists s. reflexivity.
  - destruct s as [|b s]; simpl in H; [discriminate|].
    destruct (ascii_dec a b) as [Heq|Hne]; [|discriminate].
    subst b. destruct (IH s H) as [rest Hrest]. exists rest. simpl. rewrite Hrest. reflexivity.
Qed.

Lemma append_assoc (a b c : string) : ((a ++ b) ++ c = a ++ (b ++ c))%string.
Proof. induction a as [|x a IH]; simpl; [reflexivity|rewrite IH; reflexivity]. Qed.

Lemma beforeChar_idempotent (c : ascii) (s : string) :
  beforeChar c (beforeChar c s) = beforeChar c s.
Proof.
  induction s as [|a s IH]; simpl; [reflexivity|].
  destruct (Ascii.eqb a c) eqn:Hac; simpl; [reflexivity|].
  rewrite Hac, IH. reflexivity.
Qed.

Lemma beforeChar_append (c : ascii) (s t : string) :
  beforeChar c s = s -> beforeChar c t = t ->
  beforeChar c (s ++ t) = (s ++ t)%string.
Proof.
  intros Hs Ht. induction s as [|a s IH]; simpl in *; [exact Ht|].
  destruct (Ascii.eqb a c); [discriminate|].
  inversion Hs as [Hs']. rewrite Hs'. rewrite (IH Hs'). reflexivity.
Qed.

Lemma lowerCase_append (s t : string) :
  lowerCase (s ++ t) = (lowerCase s ++ lowerCase t)%string.
Proof. induction s as [|a s IH]; simpl; [reflexivity|rewrite IH; reflexivity]. Qed.

Lemma endsWith_append (s t : string) : endsWith (s ++ t) t = true.
Proof.
  induction s as [|a s IH].
  - change (EmptyString ++ t)%string with t.
    destruct t as [|b t]; [reflexivity|].
    unfold endsWith. rewrite String.eqb_refl. reflexivity.
  - change (String a s ++ t)%string with (String a (s ++ t)).
    cbn [endsWith]. destruct (String.eqb (String a (s ++ t)) t); [reflexivity|exact IH].
Qed.

Lemma hasImageExtension_jpg (s : string) : hasImageExtension (s ++ ".jpg") = true.
Proof.
  unfold hasImageExtension. rewrite lowerCase_append.
  change (lowerCase ".jpg") with ".jpg"%string.
  rewrite endsWith_append. reflexivity.
Qed.

Lemma beforeChar_unsplash (rest : string) :
  beforeChar "?" (unsplashPrefix ++ rest)
  = (unsplashPrefix ++ beforeChar "?" rest)%string.
Proof. reflexivity. Qed.

(** The cleaning of the image address by [saveRouteToDb].  An address that
    does not start with the Unsplash prefix is kept as it is.  An Unsplash
    address is cut at its first question mark and given the extension
    [.jpg] unless it ends with an image extension: the result still starts
    with the prefix, holds no question mark and ends with an image
    extension.  Cleaning a cleaned address changes nothing. *)
Theorem cleanImageUrl_normalises (imageUrlRaw : string) :
  cleanImageUrl (cleanImageUrl imageUrlRaw) = cleanImageUrl imageUrlRaw
  /\ (String.prefix unsplashPrefix imageUrlRaw = false ->
      cleanImageUrl imageUrlRaw = imageUrlRaw)
  /\ (String.prefix unsplashPrefix imageUrlRaw = true ->
      String.prefix unsplashPrefix (cleanImageUrl imageUrlRaw) = true
      /\ beforeChar "?" (cleanImageUrl imageUrlRaw) = cleanImageUrl imageUrlRaw
      /\ hasImageExtension (cleanImageUrl imageUrlRaw) = true).
Proof.
  assert (Hclean : String.prefix unsplashPrefix imageUrlRaw = true ->
                   String.prefix unsplashPrefix (cleanImageUrl imageUrlRaw) = true
                   /\ beforeChar "?" (cleanImageUrl imageUrlRaw) = cleanImageUrl imageUrlRaw
                   /\ hasImageExtension (cleanImageUrl imageUrlRaw) = true).
  { intros Hprefix. unfold cleanImageUrl. rewrite Hprefix.
    destruct (prefix_split _ _ Hprefix) as [rest Hrest]. subst imageUrlRaw.
    rewrite beforeChar_unsplash.
    assert (Hcut : beforeChar "?" (unsplashPrefix ++ beforeChar "?" rest)
                   = (unsplashPrefix ++ beforeChar "?" rest)%string).
    { rewrite beforeChar_unsplash, beforeChar_idempotent. reflexivity. }
    destruct (hasImageExtension (unsplashPrefix ++ beforeChar "?" rest)) eqn:Hext.
    - split; [apply prefix_append|]. split; [exact Hcut|exact Hext].
    - split; [rewrite append_assoc; apply prefix_append|].
      split; [|apply hasImageExtension_jpg].
      apply beforeChar_append; [exact Hcut|reflexivity]. }
  split; [|split; [|exact Hclean]].
  - destruct (String.prefix unsplashPrefix imageUrlRaw) eqn:Hprefix.
    + destruct (Hclean eq_refl) as (Hp & Hcut & Hext).
      unfold cleanImageUrl at 1. rewrite Hp, Hcut, Hext. reflexivity.
    + unfold cleanImageUrl. rewrite Hprefix, Hprefix. reflexivity.
  - intros Hprefix. unfold cleanImageUrl. rewrite Hprefix. reflexivity.
Qed.

Lemma cleanImageUrl_normalises_witness :
  cleanImageUrl "https://images.unsplash.com/photo-1?w=400"
  = "https://images.unsplash.com/photo-1.jpg"%string
  /\ hasImageExtension (cleanImageUrl "https://images.unsplash.com/photo-1?w=400") = true.
Proof.
  split; [reflexivity|].
  destruct (cleanImageUrl_normalises "https://images.unsplash.com/photo-1?w=400")
    as (_ & _ & Hclean).
  destruct (Hclean eq_refl) as (_ & _ & Hext). exact Hext.
Defined.

(** ** Generated routes and the routes of POST /generate and POST /save *)

Lemma firstPoint_hd (coords : list Coord) (p : LatLng) :
  firstPoint coords = Returned p -> coords <> [].
Proof. destruct coords; [discriminate|discriminate]. Qed.

(** The shape of the route [generateWalkingRoute] returns. *)
Lemma generateWalkingRoute_shape
      {rt : JsRuntime} {World : Type}
      (geoOracle : list Coord -> string -> World -> Completion ResponseData * World)
      (geocoded : Completion (option LatLng)) (w w' : World) (route : Route) :
  generateWalkingRoute geoOracle geocoded w = (Returned route, w') ->
  routeType route = "walking"%string
  /\ dayDetails route = []
  /\ (route_distance route = NaN \/ numWithin (route_distance route) 5 15)
  /\ path route <> [].
Proof.
  intros Hreturned.
  pose proof (generateWalkingRoute_distance _ _ _ _ _ Hreturned) as Hdistance.
  unfold generateWalkingRoute in Hreturned.
  destruct geocoded as [[center|]|e]; try discriminate Hreturned.
  destruct (ringWaypoints _ _ _ _) as [waypoints|e]; try discriminate Hreturned.
  destruct (validateAndRetryRoute _ _ _ _ _ _ _ _) as [[response|e] s] eqn:Hloop;
    try discriminate Hreturned.
  unfold assembleWalkingRoute in Hreturned.
  destruct (features response) as [|feature rest]; [discriminate Hreturned|].
  destruct (numLtb _ 3); [discriminate Hreturned|].
  destruct (numGtb _ 20); [discriminate Hreturned|].
  destruct (firstPoint (coordinates feature)) eqn:Hfirst; [|discriminate Hreturned].
  destruct (lastPoint (coordinates feature)); [|discriminate Hreturned].
  inversion Hreturned; subst. cbn [routeType dayDetails path].
  split; [reflexivity|]. split; [reflexivity|]. split; [exact Hdistance|].
  apply firstPoint_hd in Hfirst. destruct (coordinates feature); [contradiction|discriminate].
Qed.

(** The distance check of [POST /save] never refuses a route
    [generateWalkingRoute] returned: posted back with its own fields, the
    route is refused only when its start and end points are 0.001 degrees
    apart or more, or when its path has a single point. *)
Theorem generated_walking_route_passes_the_distance_check
        {rt : JsRuntime} {World : Type}
        (geoOracle : list Coord -> string -> World -> Completion ResponseData * World)
        (geocoded : Completion (option LatLng)) (w w' : World) (route : Route)
        (Hreturned : generateWalkingRoute geoOracle geocoded w = (Returned route, w')) :
  let isCircular :=
    Qltb (Qabs (lat (startPoint route) - lat (endPoint route))) (1 # 1000)
    && Qltb (Qabs (lng (startPoint route) - lng (endPoint route))) (1 # 1000) in
  saveBusinessChecks (saveBodyOf route)
  = if negb isCircular then
      Some (400%Z, "Walking routes must be circular (start and end at the same point)"%string)
    else if (List.length (path route) <? 2)%nat then
      Some (400%Z, "Route must have at least 2 valid coordinates"%string)
    else None.
Proof.
  intros isCircular.
  destruct (generateWalkingRoute_shape _ _ _ _ _ Hreturned)
    as (Htype & Hdays & Hdistance & _).
  assert (Hposted : 5 <= safeToNumber (route_distance route) 5
                    /\ safeToNumber (route_distance route) 5 <= 15).
  { destruct Hdistance as [Hnan|Hband].
    - rewrite Hnan. split; discriminate.
    - destruct (route_distance route); [exact Hband|contradiction]. }
  destruct Hposted as [Hlo Hhi].
  unfold saveBusinessChecks, saveBodyOf.
  cbn [save_routeType save_distance save_dayDetails save_startPoint save_endPoint save_path].
  rewrite Htype.
  change (String.eqb "walking" "walking") with true.
  change (String.eqb "walking" "cycling") with false.
  replace (Qltb (safeToNumber (route_distance route) 5) 5) with false
    by (symmetry; apply Qltb_ge; exact Hlo).
  replace (Qgtb (safeToNumber (route_distance route) 5) 15) with false
    by (symmetry; unfold Qgtb; apply Qltb_ge; exact Hhi).
  cbn [andb orb firstAnswer]. fold isCircular.
  destruct (negb isCircular); [reflexivity|].
  cbn [firstAnswer]. destruct (List.length (path route) <? 2)%nat; reflexivity.
Qed.

Lemma generated_walking_route_passes_the_distance_check_witness :
  exists route,
    generateWalkingRoute (rt := Approx.runtime) (constantProvider 10)
                         (Returned (Some sampleCenter)) 0%nat = (Returned route, 1%nat)
    /\ saveBusinessChecks (saveBodyOf route) = None.
Proof.
  assert (Hrun : exists route,
             generateWalkingRoute (rt := Approx.runtime) (constantProvider 10)
                                  (Returned (Some sampleCenter)) 0%nat
             = (Returned route, 1%nat)
             /\ Qltb (Qabs (lat (startPoint route) - lat (endPoint route))) (1 # 1000)
                && Qltb (Qabs (lng (startPoint route) - lng (endPoint route))) (1 # 1000)
                = true
             /\ (List.length (path route) <? 2)%nat = false).
  { vm_compute. eexists. split; [reflexivity|]. split; reflexivity. }
  destruct Hrun as (route & Hrun & Hcircular & Hpath).
  exists route. split; [exact Hrun|].
  rewrite (generated_walking_route_passes_the_distance_check _ _ _ _ _ Hrun).
  rewrite Hcircular, Hpath. reflexivity.
Defined.

(** Posted back with its own fields, a route [generateCyclingRoute] returned
    has two days and a path of at least two points, and passes the business
    checks of [POST /save] exactly when neither day exceeds 60 km. *)
Theorem generated_cycling_route_save_checks
        {rt : JsRuntime} {World : Type}
        (geoOracle : list Coord -> string -> World -> Completion ResponseData * World)
        (geocoded : Completion (option LatLng)) (r : Draws) (w w' : World) (route : Route)
        (Hreturned : generateCyclingRoute geoOracle geocoded r w = (Returned route, w')) :
  List.length (dayDetails route) = 2%nat
  /\ (2 <= List.length (path route))%nat
  /\ (saveBusinessChecks (saveBodyOf route) = None
      <-> Forall (fun d => ~ numExceeds (day_distance d) 60) (dayDetails route)).
Proof.
  unfold generateCyclingRoute in Hreturned.
  destruct geocoded as [[startCenter|]|e]; try discriminate Hreturned.
  destruct (proposedWaypoints startCenter r) as [day1Waypoints day2Waypoints].
  destruct (generateCityRouteWithRetry geoOracle day1Waypoints "Day 1" 8 w)
    as [[[response1 d1]|e] s1]; try discriminate Hreturned.
  destruct (generateCityRouteWithRetry geoOracle _ "Day 2" 8 (cl_world s1))
    as [[[response2 d2]|e] s2]; try discriminate Hreturned.
  destruct (features response1) as [|day1 rest1]; [discriminate Hreturned|].
  destruct (features response2) as [|day2 rest2]; [discriminate Hreturned|].
  unfold assembleCyclingRoute in Hreturned.
  destruct (firstPoint (coordinates day1)) eqn:Hf1; [|discriminate Hreturned].
  destruct (lastPoint (coordinates day1)); [|discriminate Hreturned].
  destruct (firstPoint (coordinates day2)) eqn:Hf2; [|discriminate Hreturned].
  destruct (lastPoint (coordinates day2)); [|discriminate Hreturned].
  inversion Hreturned; subst. clear Hreturned.
  apply firstPoint_hd in Hf1. apply firstPoint_hd in Hf2.
  assert (Hpath : (2 <= List.length (map toLatLng (coordinates day1)
                                     ++ map toLatLng (coordinates day2)))%nat).
  { rewrite length_app, !length_map.
    destruct (coordinates day1); [contradiction|].
    destruct (coordinates day2); [contradiction|]. simpl. lia. }
  cbn [dayDetails path]. split; [reflexivity|]. split; [exact Hpath|].
  unfold saveBusinessChecks, saveBodyOf.
  cbn [routeType route_distance dayDetails startPoint endPoint path
       save_routeType save_distance save_dayDetails save_startPoint save_endPoint save_path].
  change (String.eqb "cycling" "walking") with false.
  change (String.eqb "cycling" "cycling") with true.
  cbn [andb find day_distance firstAnswer].
  replace (List.length (map toLatLng (coordinates day1) ++ map toLatLng (coordinates day2))
           <? 2)%nat with false by (symmetry; apply Nat.ltb_ge; exact Hpath).
  destruct (numGtb d1 60) eqn:H1.
  - cbn [firstAnswer]. split; [discriminate|].
    intros Hall. inversion Hall as [|x l Hx Hrest]; subst. cbn [day_distance] in Hx.
    apply numGtb_exceeds in H1. exfalso. exact (Hx H1).
  - destruct (numGtb d2 60) eqn:H2.
    + cbn [firstAnswer]. split; [discriminate|].
      intros Hall. inversion Hall as [|x l Hx Hrest]; subst.
      inversion Hrest as [|y l' Hy _]; subst. cbn [day_distance] in Hy.
      apply numGtb_exceeds in H2. exfalso. exact (Hy H2).
    + cbn [firstAnswer]. split; [|reflexivity]. intros _.
      constructor; [|constructor; [|constructor]]; cbn [day_distance];
        intros Hexceeds; apply numGtb_exceeds in Hexceeds; congruence.
Qed.

Lemma generated_cycling_route_save_checks_witness :
  exists route,
    generateCyclingRoute (rt := Approx.runtime) (constantProvider 25)
                         (Returned (Some sampleCenter)) sampleDraws 0%nat
    = (Returned route, 2%nat)
    /\ List.length (dayDetails route) = 2%nat.
Proof.
  assert (Hrun : exists route,
             generateCyclingRoute (rt := Approx.runtime) (constantProvider 25)
                                  (Returned (Some sampleCenter)) sampleDraws 0%nat
             = (Returned route, 2%nat)).
  { vm_compute. eexists. reflexivity. }
  destruct Hrun as [route Hrun]. exists route. split; [exact Hrun|].
  destruct (generated_cycling_route_save_checks _ _ _ _ _ _ Hrun) as (Hdays & _).
  exact Hdays.
Defined.

(** A cycling route that [POST /save] refuses: every response measures
    70 km, both days accept it at their fourth attempt, and the day check
    answers 400. *)
Example late_cycling_route_is_refused :
  exists route,
    generateCyclingRoute (rt := Approx.runtime) (constantProvider 70)
                         (Returned (Some sampleCenter)) sampleDraws 0%nat
    = (Returned route, 8%nat)
    /\ saveBusinessChecks (saveBodyOf route)
       = Some (400%Z, "Cycling routes cannot exceed 60 km per day. Day 1 is 70.0 km"%string).
Proof. vm_compute. eexists. split; reflexivity. Qed.

Lemma includes_unable_to_generate (detail : string) :
  includes ("CYCLING_ROUTE_FAILED: Unable to generate " ++ detail) "Unable to generate"
  = true.
Proof.
  unfold includes.
  destruct (String.index 0 "Unable to generate"
                         ("CYCLING_ROUTE_FAILED: Unable to generate " ++ detail))
    eqn:Hindex; [reflexivity|].
  exfalso.
  apply (index_correct3 0 22 _ _ Hindex); [discriminate|lia|reflexivity].
Qed.

Lemma pointThrown_message (coords : list Coord) (e : JsError) :
  firstPoint coords = Thrown e \/ lastPoint coords = Thrown e -> e = typeError "1".
Proof.
  unfold firstPoint, lastPoint. intros [H|H].
  - destruct coords; inversion H. reflexivity.
  - destruct (rev coords); inversion H. reflexivity.
Qed.

(** Once the start is geocoded, [generateCyclingRoute] fails in two ways
    only.  When a day's search fails, whatever the error, it throws the
    cycling failure built from that error, and the client of
    [POST /generate] receives that message as it is, because it holds the
    words "Unable to generate".  When the geometry of a response has no
    coordinates, it throws the processing failure and the client receives
    the general message of the handler.  The failure for a response without
    features is never thrown. *)
Theorem cycling_failure_message_reaches_the_client
        {rt : JsRuntime} {World : Type}
        (geoOracle : list Coord -> string -> World -> Completion ResponseData * World)
        (startCenter : LatLng) (r : Draws) (w w' : World) (failure : JsError)
        (Hthrown : generateCyclingRoute geoOracle (Returned (Some startCenter)) r w
                   = (Thrown failure, w')) :
  (exists error, failure = cyclingFailed error
                 /\ generateFailureMessage failure = message failure)
  \/ (failure = newError "Failed to process cycling route: Cannot read properties of undefined (reading '1')"
      /\ generateFailureMessage failure
         = "Failed to generate route. Please try a different location or route type."%string).
Proof.
  assert (Hpass : forall error,
             generateFailureMessage (cyclingFailed error) = message (cyclingFailed error)).
  { intros error. unfold generateFailureMessage.
    destruct (includes (message (cyclingFailed error)) "exceed"); [reflexivity|].
    unfold cyclingFailed, newError. cbn [message].
    change ("CYCLING_ROUTE_FAILED: Unable to generate city-to-city cycling route: "
            ++ message error
            ++ ". Please try a different country or location with better road connectivity.")%string
      with ("CYCLING_ROUTE_FAILED: Unable to generate "
            ++ ("city-to-city cycling route: " ++ message error
                ++ ". Please try a different country or location with better road connectivity."))%string.
    rewrite includes_unable_to_generate. reflexivity. }
  unfold generateCyclingRoute in Hthrown.
  destruct (proposedWaypoints startCenter r) as [day1Waypoints day2Waypoints].
  destruct (generateCityRouteWithRetry geoOracle day1Waypoints "Day 1" 8 w)
    as [[[response1 d1]|e] s1] eqn:Hday1.
  2:{ inversion Hthrown; subst. left. exists e. split; [reflexivity|apply Hpass]. }
  destruct (generateCityRouteWithRetry geoOracle _ "Day 2" 8 (cl_world s1))
    as [[[response2 d2]|e] s2] eqn:Hday2.
  2:{ inversion Hthrown; subst. left. exists e. split; [reflexivity|apply Hpass]. }
  apply cycle_loop_returns_measured in Hday1. apply cycle_loop_returns_measured in Hday2.
  unfold routeDistanceKm in Hday1, Hday2.
  destruct (features response1) as [|day1 rest1]; [discriminate Hday1|].
  destruct (features response2) as [|day2 rest2]; [discriminate Hday2|].
  right. unfold assembleCyclingRoute in Hthrown.
  assert (Hmsg : forall e, e = typeError "1" ->
             newError ("Failed to process cycling route: " ++ message e)
             = newError "Failed to process cycling route: Cannot read properties of undefined (reading '1')").
  { intros e He. subst e. reflexivity. }
  destruct (firstPoint (coordinates day1)) as [p1|e1] eqn:H1.
  2:{ assert (He : e1 = typeError "1") by (apply (pointThrown_message (coordinates day1)); left; exact H1).
      destruct (lastPoint (coordinates day1)); destruct (firstPoint (coordinates day2));
        destruct (lastPoint (coordinates day2)); inversion Hthrown; subst;
        (split; [reflexivity|reflexivity]). }
  destruct (lastPoint (coordinates day1)) as [p2|e2] eqn:H2.
  2:{ assert (He : e2 = typeError "1") by (apply (pointThrown_message (coordinates day1)); right; exact H2).
      destruct (firstPoint (coordinates day2));
        destruct (lastPoint (coordinates day2)); inversion Hthrown; subst;
        (split; [reflexivity|reflexivity]). }
  destruct (firstPoint (coordinates day2)) as [p3|e3] eqn:H3.
  2:{ assert (He : e3 = typeError "1") by (apply (pointThrown_message (coordinates day2)); left; exact H3).
      destruct (lastPoint (coordinates day2)); inversion Hthrown; subst;
        (split; [reflexivity|reflexivity]). }
  destruct (lastPoint (coordinates day2)) as [p4|e4] eqn:H4.
  - discriminate Hthrown.
  - assert (He : e4 = typeError "1") by (apply (pointThrown_message (coordinates day2)); right; exact H4).
    inversion Hthrown; subst. split; reflexivity.
Qed.

Lemma cycling_failure_message_reaches_the_client_witness :
  exists failure,
    fst (generateCyclingRoute (rt := Approx.runtime)
           (scripted (fun _ _ _ => Thrown (newError "Network Error")))
           (Returned (Some sampleCenter)) sampleDraws 0%nat) = Thrown failure
    /\ generateFailureMessage failure = message failure.
Proof.
  assert (Hrun : exists failure,
             generateCyclingRoute (rt := Approx.runtime)
               (scripted (fun _ _ _ => Thrown (newError "Network Error")))
               (Returned (Some sampleCenter)) sampleDraws 0%nat
             = (Thrown failure, 8%nat)
             /\ failure <> newError "Failed to process cycling route: Cannot read properties of undefined (reading '1')").
  { vm_compute. eexists. split; [reflexivity|discriminate]. }
  destruct Hrun as (failure & Hrun & Hother).
  exists failure. split; [rewrite Hrun; reflexivity|].
  destruct (cycling_failure_message_reaches_the_client _ _ _ _ _ _ Hrun)
    as [(error & _ & Hmsg)|(Hprocess & _)]; [exact Hmsg|contradiction].
Defined.


